(** * Rocket message reconciliation: the repository of [internal/storage]

    A shallow embedding of [RocketRepository] (package [storage]) and of the
    model types of package [models], followed by the properties of the
    reconciliation engine: deduplication, buffering of out-of-order
    messages, the drain of the pending buffer, and the diagnostics queries.

    Go's [int] is taken at its 64-bit width: every arithmetic operation of
    the source is followed by the two's-complement wrap-around that Go
    defines for signed overflow.  A [time.Time] is an integer instant whose
    zero is Go's zero time.  The three maps of the repository are finite
    maps; a pointer to a [RocketState] is the key of the record in
    [rockets], and every mutation through the pointer is written back.

    The packages [errors], [validation], [sorting], [middleware] and [api]
    follow the repository.  A handler is taken from the decoded request on
    and gives the response it writes: the status code and the value handed
    to the JSON encoder.  [sort.Slice] and [strings.ToLower] belong to the
    Go library: the comparison function of [SortRockets] is embedded with
    [strings.ToLower] as a parameter. *)

From stdpp Require Import gmap strings list fin_maps sorting.
From Stdlib Require Import ZArith Lia DecimalString.

Local Open Scope Z_scope.

(** ** Machine integers *)

Module GoInt.

Definition int_bits : Z := 64.
Definition max_int : Z := 2 ^ (int_bits - 1) - 1.
Definition min_int : Z := - 2 ^ (int_bits - 1).

(** Two's-complement wrap-around of a mathematical result. *)
Definition wrap (z : Z) : Z :=
  (z + 2 ^ (int_bits - 1)) mod 2 ^ int_bits - 2 ^ (int_bits - 1).

Definition add (a b : Z) : Z := wrap (a + b).
Definition sub (a b : Z) : Z := wrap (a - b).

Definition in_range (z : Z) : Prop := min_int <= z <= max_int.

End GoInt.

(** ** Package [models] *)

Definition Time : Type := Z.
Definition IsZero (t : Time) : bool := t =? 0.
Definition Before (t u : Time) : bool := t <? u.

Record MessageContent := mkContent {
  Type_ : string;
  LaunchSpeed : Z;
  Mission : string;
  By : Z;
  Reason : string;
  NewMission : string
}.

Record RocketMessage := mkMessage {
  Channel : string;
  MessageNumber : Z;
  MessageTime : Time;
  MessageType : string;
  Message : MessageContent
}.

Definition MessageTypeRocketLaunched : string := "RocketLaunched".
Definition MessageTypeRocketSpeedIncreased : string := "RocketSpeedIncreased".
Definition MessageTypeRocketSpeedDecreased : string := "RocketSpeedDecreased".
Definition MessageTypeRocketExploded : string := "RocketExploded".
Definition MessageTypeRocketMissionChanged : string := "RocketMissionChanged".

Definition GetChannel (m : RocketMessage) : string := Channel m.
Definition GetMessageNumber (m : RocketMessage) : Z := MessageNumber m.
Definition GetMessageTime (m : RocketMessage) : Time := MessageTime m.
Definition GetMessageType (m : RocketMessage) : string := MessageType m.

Record RocketState := mkRocket {
  ID : string;
  RType : string;
  Speed : Z;
  RMission : string;
  Exploded : bool;
  RReason : string;
  CreatedAt : Time;
  UpdatedAt : Time;
  LastProcessedMessageNumber : Z
}.

Record RocketSummary := mkSummary {
  SID : string;
  SType : string;
  SSpeed : Z;
  SMission : string;
  SExploded : bool;
  SUpdatedAt : Time
}.

(** ** Package [storage] *)

Record RocketRepository := mkRepo {
  rockets : gmap string RocketState;
  processedMessages : gmap string (gmap Z bool);
  pendingMessages : gmap string (gmap Z RocketMessage)
}.

Definition NewRocketRepository : RocketRepository :=
  {| rockets := ∅; processedMessages := ∅; pendingMessages := ∅ |}.

(** Reading a missing key of a Go map gives the zero value: the nil inner
    map, which reads as the empty map, and [false] for a [bool]. *)
Definition processed_of (r : RocketRepository) (id : string) : gmap Z bool :=
  default ∅ (processedMessages r !! id).

Definition pending_of (r : RocketRepository) (id : string) : gmap Z RocketMessage :=
  default ∅ (pendingMessages r !! id).

Definition is_processed (r : RocketRepository) (id : string) (n : Z) : bool :=
  default false (processed_of r id !! n).

(** The two [make] calls at the head of [ProcessMessage]. *)
Definition init_maps (r : RocketRepository) (id : string) : RocketRepository :=
  {| rockets := rockets r;
     processedMessages :=
       match processedMessages r !! id with
       | None => <[id := ∅]> (processedMessages r)
       | Some _ => processedMessages r
       end;
     pendingMessages :=
       match pendingMessages r !! id with
       | None => <[id := ∅]> (pendingMessages r)
       | Some _ => pendingMessages r
       end |}.

(** [r.pendingMessages[id][n] = msg] *)
Definition set_pending (r : RocketRepository) (id : string) (n : Z)
    (msg : RocketMessage) : RocketRepository :=
  {| rockets := rockets r;
     processedMessages := processedMessages r;
     pendingMessages := <[id := <[n := msg]> (pending_of r id)]> (pendingMessages r) |}.

(** [delete(r.pendingMessages[id], n)]; deleting from a nil map does nothing. *)
Definition delete_pending (r : RocketRepository) (id : string) (n : Z) : RocketRepository :=
  {| rockets := rockets r;
     processedMessages := processedMessages r;
     pendingMessages := alter (delete n) id (pendingMessages r) |}.

(** [r.processedMessages[id][n] = true]; [ProcessMessage] has made the inner
    map before any such assignment. *)
Definition set_processed (r : RocketRepository) (id : string) (n : Z) : RocketRepository :=
  {| rockets := rockets r;
     processedMessages := <[id := <[n := true]> (processed_of r id)]> (processedMessages r);
     pendingMessages := pendingMessages r |}.

(** Writing back the record behind the pointer stored at [r.rockets[id]]. *)
Definition set_rocket (r : RocketRepository) (id : string) (rocket : RocketState)
    : RocketRepository :=
  {| rockets := <[id := rocket]> (rockets r);
     processedMessages := processedMessages r;
     pendingMessages := pendingMessages r |}.

Definition is_launch (msg : RocketMessage) : bool :=
  String.eqb (GetMessageType msg) MessageTypeRocketLaunched.

(** The sweep of the [RocketExploded] case: every entry of the pending map
    of the rocket that is not a launch message is deleted.  The loop deletes
    only the entry it is visiting, so whatever order the range takes, the
    launch messages and only they are left. *)
Definition sweep_pending (r : RocketRepository) (id : string) : RocketRepository :=
  {| rockets := rockets r;
     processedMessages := processedMessages r;
     pendingMessages :=
       alter (filter (λ kv : Z * RocketMessage, is_launch kv.2 = true)) id (pendingMessages r) |}.

(** [processMessageByType]: the mutated repository (only the pending buffer
    can change), the mutated rocket and the boolean result. *)
Definition processMessageByType (r : RocketRepository) (rocket : RocketState)
    (msg : RocketMessage) : RocketRepository * RocketState * bool :=
  if Exploded rocket && negb (is_launch msg) then (r, rocket, false)
  else if String.eqb (GetMessageType msg) MessageTypeRocketLaunched then
    if String.eqb (Type_ (Message msg)) "" || String.eqb (Mission (Message msg)) ""
    then (r, rocket, false)
    else
      (r,
       {| ID := ID rocket;
          RType := Type_ (Message msg);
          Speed := LaunchSpeed (Message msg);
          RMission := Mission (Message msg);
          Exploded := false;
          RReason := "";
          CreatedAt := if IsZero (CreatedAt rocket) then GetMessageTime msg
                       else CreatedAt rocket;
          UpdatedAt := UpdatedAt rocket;
          LastProcessedMessageNumber := LastProcessedMessageNumber rocket |},
       true)
  else if String.eqb (GetMessageType msg) MessageTypeRocketSpeedIncreased then
    if By (Message msg) <=? 0 then (r, rocket, false)
    else
      (r,
       {| ID := ID rocket;
          RType := RType rocket;
          Speed := GoInt.add (Speed rocket) (By (Message msg));
          RMission := RMission rocket;
          Exploded := Exploded rocket;
          RReason := RReason rocket;
          CreatedAt := CreatedAt rocket;
          UpdatedAt := UpdatedAt rocket;
          LastProcessedMessageNumber := LastProcessedMessageNumber rocket |},
       true)
  else if String.eqb (GetMessageType msg) MessageTypeRocketSpeedDecreased then
    if By (Message msg) <=? 0 then (r, rocket, false)
    else
      let speed := GoInt.sub (Speed rocket) (By (Message msg)) in
      (r,
       {| ID := ID rocket;
          RType := RType rocket;
          Speed := if speed <? 0 then 0 else speed;
          RMission := RMission rocket;
          Exploded := Exploded rocket;
          RReason := RReason rocket;
          CreatedAt := CreatedAt rocket;
          UpdatedAt := UpdatedAt rocket;
          LastProcessedMessageNumber := LastProcessedMessageNumber rocket |},
       true)
  else if String.eqb (GetMessageType msg) MessageTypeRocketExploded then
    if String.eqb (Reason (Message msg)) "" then (r, rocket, false)
    else
      (sweep_pending r (ID rocket),
       {| ID := ID rocket;
          RType := RType rocket;
          Speed := Speed rocket;
          RMission := RMission rocket;
          Exploded := true;
          RReason := Reason (Message msg);
          CreatedAt := CreatedAt rocket;
          UpdatedAt := UpdatedAt rocket;
          LastProcessedMessageNumber := LastProcessedMessageNumber rocket |},
       true)
  else if String.eqb (GetMessageType msg) MessageTypeRocketMissionChanged then
    if String.eqb (NewMission (Message msg)) "" then (r, rocket, false)
    else
      (r,
       {| ID := ID rocket;
          RType := RType rocket;
          Speed := Speed rocket;
          RMission := NewMission (Message msg);
          Exploded := Exploded rocket;
          RReason := RReason rocket;
          CreatedAt := CreatedAt rocket;
          UpdatedAt := UpdatedAt rocket;
          LastProcessedMessageNumber := LastProcessedMessageNumber rocket |},
       true)
  else (r, rocket, false).

(** The two assignments to the rocket that follow a successful
    [processMessageByType]: the cursor moves to the number and [UpdatedAt]
    takes the message time. *)
Definition advance (rocket : RocketState) (n : Z) (t : Time) : RocketState :=
  {| ID := ID rocket;
     RType := RType rocket;
     Speed := Speed rocket;
     RMission := RMission rocket;
     Exploded := Exploded rocket;
     RReason := RReason rocket;
     CreatedAt := CreatedAt rocket;
     UpdatedAt := t;
     LastProcessedMessageNumber := n |}.

(** The [for] loop of [processPendingMessages], unrolled at most [fuel]
    times.  An iteration that does not break deletes the entry it looked up,
    so the size of the pending map bounds the number of iterations
    ([pending_loop_fuel] below). *)
Fixpoint pending_loop (fuel : nat) (rocketID : string) (r : RocketRepository)
    (rocket : RocketState) : RocketRepository * RocketState :=
  match fuel with
  | O => (r, rocket)
  | S fuel' =>
    let nextMsgNumber := GoInt.add (LastProcessedMessageNumber rocket) 1 in
    match pending_of r rocketID !! nextMsgNumber with
    | None => (r, rocket)
    | Some msg =>
      if Exploded rocket && negb (is_launch msg) then
        pending_loop fuel' rocketID (delete_pending r rocketID nextMsgNumber) rocket
      else
        let '(r1, rocket1, ok) := processMessageByType r rocket msg in
        if ok then
          pending_loop fuel' rocketID
            (delete_pending (set_processed r1 rocketID nextMsgNumber) rocketID nextMsgNumber)
            (advance rocket1 nextMsgNumber (GetMessageTime msg))
        else (delete_pending r1 rocketID nextMsgNumber, rocket1)
    end
  end.

(** [processPendingMessages] is called once the rocket is in [r.rockets];
    the loop works on the record behind that pointer, which is written back
    when the loop is left. *)
Definition processPendingMessages (r : RocketRepository) (rocketID : string)
    : RocketRepository :=
  match rockets r !! rocketID with
  | None => r
  | Some rocket =>
    let '(r', rocket') :=
      pending_loop (S (size (pending_of r rocketID))) rocketID r rocket in
    set_rocket r' rocketID rocket'
  end.

(** [&models.RocketState{ID: rocketID, LastProcessedMessageNumber: 0}] *)
Definition new_rocket (rocketID : string) : RocketState :=
  {| ID := rocketID; RType := ""; Speed := 0; RMission := ""; Exploded := false;
     RReason := ""; CreatedAt := 0; UpdatedAt := 0; LastProcessedMessageNumber := 0 |}.

(** The part of [ProcessMessage] after "Get or create rocket". *)
Definition process_in_sequence (r : RocketRepository) (rocket : RocketState)
    (msg : RocketMessage) : RocketRepository * bool :=
  let rocketID := GetChannel msg in
  let msgNumber := GetMessageNumber msg in
  let expectedMsgNumber := GoInt.add (LastProcessedMessageNumber rocket) 1 in
  if msgNumber =? expectedMsgNumber then
    let '(r1, rocket1, ok) := processMessageByType r rocket msg in
    if ok then
      (processPendingMessages
         (set_rocket (set_processed r1 rocketID msgNumber) rocketID
            (advance rocket1 msgNumber (GetMessageTime msg)))
         rocketID,
       true)
    else (set_rocket r1 rocketID rocket1, false)
  else if msgNumber >? expectedMsgNumber then
    (set_pending r rocketID msgNumber msg, true)
  else (r, false).

(** [ProcessMessage]: the repository after the call and the boolean
    returned. *)
Definition ProcessMessage (r0 : RocketRepository) (msg : RocketMessage)
    : RocketRepository * bool :=
  let rocketID := GetChannel msg in
  let msgNumber := GetMessageNumber msg in
  let r := init_maps r0 rocketID in
  if is_processed r rocketID msgNumber then (r, true)
  else
    match rockets r !! rocketID with
    | None =>
      if negb (is_launch msg) then (set_pending r rocketID msgNumber msg, true)
      else
        let rocket := new_rocket rocketID in
        process_in_sequence (set_rocket r rocketID rocket) rocket msg
    | Some rocket => process_in_sequence r rocket msg
    end.

(** Ingesting a sequence of messages, oldest call first. *)
Definition ingest_all (r : RocketRepository) (msgs : list RocketMessage)
    : RocketRepository :=
  foldl (λ acc msg, (ProcessMessage acc msg).1) r msgs.

(** What the successive calls returned. *)
Fixpoint ingest_results (r : RocketRepository) (msgs : list RocketMessage) : list bool :=
  match msgs with
  | [] => []
  | msg :: rest =>
    let '(r', ok) := ProcessMessage r msg in ok :: ingest_results r' rest
  end.

(** ** Queries *)

(** The order in which a [range] statement visits a map is not specified by
    Go; every entry is visited once.  An iteration order is any rearrangement
    of the entries. *)
Record MapOrder := mkOrder {
  visit : ∀ A : Type, list A → list A;
  visit_perm : ∀ (A : Type) (l : list A), visit A l ≡ₚ l
}.

(** [GetRocket] returns a copy of the record, or nothing. *)
Definition GetRocket (r : RocketRepository) (id : string) : option RocketState :=
  rockets r !! id.

Definition summary_of (rocket : RocketState) : RocketSummary :=
  {| SID := ID rocket; SType := RType rocket; SSpeed := Speed rocket;
     SMission := RMission rocket; SExploded := Exploded rocket;
     SUpdatedAt := UpdatedAt rocket |}.

Definition GetAllRockets (o : MapOrder) (r : RocketRepository) : list RocketSummary :=
  summary_of <$> visit o _ (map_to_list (rockets r)).*2.

(** [GetDebugInfo]: the number of processed messages and the pending
    numbers, appended in the order of the range over the pending map. *)
Definition GetDebugInfo (o : MapOrder) (r : RocketRepository) (rocketID : string)
    : Z * list Z :=
  (Z.of_nat (size (processed_of r rocketID)),
   visit o _ (map_to_list (pending_of r rocketID)).*1).

Record DebugInfo := mkDebug {
  RocketID : string;
  ProcessedMessageCount : Z;
  PendingMessageCount : Z;
  PendingMessageNumbers : list Z;
  LastProcessedMessage : Z
}.

(** The body of [HandleDebugRocket] once the rocket id has passed
    validation: [None] is the 404 answer.  The handler reads the repository
    twice, and each read takes the lock of the repository for itself: [r]
    is the repository when [GetRocket] reads it and [r'] the repository
    when [GetDebugInfo] does, after the calls of [ProcessMessage] that other
    requests made in between. *)
Definition debug_rocket (o : MapOrder) (r r' : RocketRepository) (rocketID : string)
    : option DebugInfo :=
  match GetRocket r rocketID with
  | None => None
  | Some rocket =>
    let '(processedCount, pending) := GetDebugInfo o r' rocketID in
    Some {| RocketID := rocketID;
            ProcessedMessageCount := processedCount;
            PendingMessageCount := Z.of_nat (length pending);
            PendingMessageNumbers := pending;
            LastProcessedMessage := LastProcessedMessageNumber rocket |}
  end.

(** Two iteration orders: the one of the listing of the finite map, and
    its reverse. *)
Program Definition order_as_stored : MapOrder := {| visit := λ A l, l |}.
Next Obligation. done. Qed.

Program Definition order_reversed : MapOrder := {| visit := λ A l, reverse l |}.
Next Obligation. intros. apply reverse_Permutation. Qed.

(** ** Package [errors] *)

Record APIError := mkAPIError {
  ACode : Z;
  AMessage : string;
  ADetails : string
}.

Record ValidationError := mkValidationError {
  VField : string;
  VMessage : string;
  VValue : string
}.

Record MessageProcessingError := mkProcessingError {
  PRocketID : string;
  PMessageNumber : Z;
  PMessageType : string;
  PReason : string
}.

(** A value of the interface [error]: one of the three error types of the
    package, or any other implementation, given by the text of its [Error]
    method. *)
Inductive error :=
| api_error (e : APIError)
| validation_error (e : ValidationError)
| processing_error (e : MessageProcessingError)
| other_error (text : string).

(** The verb [%d] of [fmt.Sprintf] on an [int]. *)
Definition format_int (n : Z) : string := NilZero.string_of_int (Z.to_int n).

Definition APIError_Error (e : APIError) : string :=
  if negb (String.eqb (ADetails e) "") then
    "API Error " +:+ format_int (ACode e) +:+ ": " +:+ AMessage e
      +:+ " (" +:+ ADetails e +:+ ")"
  else "API Error " +:+ format_int (ACode e) +:+ ": " +:+ AMessage e.

Definition ValidationError_Error (e : ValidationError) : string :=
  "Validation error for field '" +:+ VField e +:+ "': " +:+ VMessage e.

Definition MessageProcessingError_Error (e : MessageProcessingError) : string :=
  "Failed to process message " +:+ format_int (PMessageNumber e) +:+ " for rocket "
    +:+ PRocketID e +:+ " (type: " +:+ PMessageType e +:+ "): " +:+ PReason e.

Definition Error (err : error) : string :=
  match err with
  | api_error e => APIError_Error e
  | validation_error e => ValidationError_Error e
  | processing_error e => MessageProcessingError_Error e
  | other_error text => text
  end.

(** [NewValidationError(field, message, value...)]: the first of the
    variadic values, if any. *)
Definition NewValidationError (field message : string) (value : list string)
    : ValidationError :=
  {| VField := field; VMessage := message; VValue := default "" (head value) |}.

Definition NewMessageProcessingError (rocketID : string) (messageNumber : Z)
    (messageType reason : string) : MessageProcessingError :=
  {| PRocketID := rocketID; PMessageNumber := messageNumber;
     PMessageType := messageType; PReason := reason |}.

Definition NewAPIError (code : Z) (message details : string) : APIError :=
  {| ACode := code; AMessage := message; ADetails := details |}.

(** The status codes of [net/http] that the package uses. *)
Definition StatusOK : Z := 200.
Definition StatusBadRequest : Z := 400.
Definition StatusNotFound : Z := 404.
Definition StatusInternalServerError : Z := 500.

(** ** Package [validation] *)

Definition isValidMessageType (messageType : string) : bool :=
  existsb (String.eqb messageType)
    [MessageTypeRocketLaunched; MessageTypeRocketSpeedIncreased;
     MessageTypeRocketSpeedDecreased; MessageTypeRocketExploded;
     MessageTypeRocketMissionChanged].

(** [ValidateRocketMessage]: [None] is the [nil] error. *)
Definition ValidateRocketMessage (msg : RocketMessage) : option ValidationError :=
  if String.eqb (Channel msg) "" then
    Some (NewValidationError "channel" "channel is required" [])
  else if MessageNumber msg <=? 0 then
    Some (NewValidationError "messageNumber" "messageNumber must be positive integer" [])
  else if IsZero (MessageTime msg) then
    Some (NewValidationError "messageTime" "messageTime is required" [])
  else if negb (isValidMessageType (MessageType msg)) then
    Some (NewValidationError "messageType" "invalid message type" [MessageType msg])
  else if String.eqb (MessageType msg) MessageTypeRocketLaunched then
    if String.eqb (Type_ (Message msg)) "" then
      Some (NewValidationError "type" "rocket type is required for launch message" [])
    else if String.eqb (Mission (Message msg)) "" then
      Some (NewValidationError "mission" "mission is required for launch message" [])
    else if LaunchSpeed (Message msg) <? 0 then
      Some (NewValidationError "launchSpeed" "launch speed cannot be negative" [])
    else None
  else if String.eqb (MessageType msg) MessageTypeRocketSpeedIncreased
          || String.eqb (MessageType msg) MessageTypeRocketSpeedDecreased then
    if By (Message msg) <=? 0 then
      Some (NewValidationError "by" "speed change amount must be positive" [])
    else None
  else if String.eqb (MessageType msg) MessageTypeRocketExploded then
    if String.eqb (Reason (Message msg)) "" then
      Some (NewValidationError "reason" "explosion reason is required" [])
    else None
  else if String.eqb (MessageType msg) MessageTypeRocketMissionChanged then
    if String.eqb (NewMission (Message msg)) "" then
      Some (NewValidationError "newMission" "new mission is required" [])
    else None
  else None.

(** [ValidateRocketID]; [len] counts the bytes of the string. *)
Definition ValidateRocketID (rocketID : string) : option ValidationError :=
  if String.eqb rocketID "" then
    Some (NewValidationError "rocketId" "rocket ID is required" [])
  else if (String.length rocketID <? 3)%nat then
    Some (NewValidationError "rocketId" "rocket ID is too short" [rocketID])
  else None.

(** ** Package [sorting] *)

Definition ValidSortOptions : gmap string bool :=
  list_to_map [("id", true); ("type", true); ("speed", true); ("mission", true);
               ("exploded", true); ("updatedAt", true)].

Definition ValidSortOrders : gmap string bool :=
  list_to_map [("asc", true); ("desc", true)].

Definition ValidateSortOrder (order : string) : bool :=
  if String.eqb order "" then true else default false (ValidSortOrders !! order).

Definition ValidateSortBy (field : string) : bool :=
  if String.eqb field "" then true else default false (ValidSortOptions !! field).

(** The defaults that [SortRockets] gives to its two parameters. *)
Definition default_sortBy (sortBy : string) : string :=
  if String.eqb sortBy "" then "id" else sortBy.

Definition default_sortOrder (sortOrder : string) : string :=
  if String.eqb sortOrder "" then "asc" else sortOrder.

(** The function that [SortRockets] hands to [sort.Slice], on the two
    elements [a = sortedRockets[i]] and [b = sortedRockets[j]].  The
    comparison of Go strings is the one of their bytes; [ToLower] stands for
    [strings.ToLower]. *)
Definition less (ToLower : string → string) (sortBy sortOrder : string)
    (a b : RocketSummary) : bool :=
  let result :=
    if String.eqb sortBy "id" then String.ltb (ToLower (SID a)) (ToLower (SID b))
    else if String.eqb sortBy "type" then
      String.ltb (ToLower (SType a)) (ToLower (SType b))
    else if String.eqb sortBy "speed" then SSpeed a <? SSpeed b
    else if String.eqb sortBy "mission" then
      String.ltb (ToLower (SMission a)) (ToLower (SMission b))
    else if String.eqb sortBy "exploded" then
      if negb (Bool.eqb (SExploded a) (SExploded b)) then
        negb (SExploded a) && SExploded b
      else String.ltb (ToLower (SID a)) (ToLower (SID b))
    else if String.eqb sortBy "updatedAt" then Before (SUpdatedAt a) (SUpdatedAt b)
    else String.ltb (ToLower (SID a)) (ToLower (SID b)) in
  if String.eqb sortOrder "desc" then negb result else result.

(** ** Package [middleware] *)

(** The value handed to the JSON encoder: a map literal (its entries in the
    order of the source; a Go map has none), a string, an [int], or one of
    the structs and slices of structs that the handlers pass. *)
#[local] Unset Elimination Schemes.

Inductive Data :=
| DMap (entries : list (string * Data))
| DString (s : string)
| DInt (n : Z)
| DRocket (rocket : RocketState)
| DSummaries (summaries : list RocketSummary)
| DDebugInfo (info : DebugInfo)
| DDebugInfos (infos : list DebugInfo).

#[local] Set Elimination Schemes.

(** What a handler has written: the content type, the status code and the
    encoded value. *)
Record Response := mkResponse {
  ContentType : string;
  StatusCode : Z;
  Encoded : Data
}.

Definition error_response (code : Z) (entries : list (string * Data)) : Response :=
  {| ContentType := "application/json"; StatusCode := code;
     Encoded := DMap [("error", DMap entries)] |}.

Definition WriteErrorResponse (err : error) : Response :=
  match err with
  | api_error e =>
    error_response (ACode e)
      [("code", DInt (ACode e)); ("message", DString (AMessage e));
       ("details", DString (ADetails e))]
  | validation_error e =>
    error_response StatusBadRequest
      [("code", DInt StatusBadRequest); ("message", DString "Validation failed");
       ("details", DString (ValidationError_Error e)); ("field", DString (VField e))]
  | processing_error e =>
    error_response StatusBadRequest
      [("code", DInt StatusBadRequest); ("message", DString "Message processing failed");
       ("details", DString (MessageProcessingError_Error e));
       ("rocketId", DString (PRocketID e)); ("messageNumber", DInt (PMessageNumber e));
       ("messageType", DString (PMessageType e))]
  | other_error text =>
    error_response StatusInternalServerError
      [("code", DInt StatusInternalServerError);
       ("message", DString "Internal server error"); ("details", DString text)]
  end.

(** [WriteSuccessResponse]: [None] is the [nil] interface value. *)
Definition WriteSuccessResponse (data : option Data) : Response :=
  {| ContentType := "application/json"; StatusCode := StatusOK;
     Encoded := match data with
                | None => DMap [("status", DString "success")]
                | Some d => d
                end |}.

(** The loop of [ChainMiddleware] with [n] indices left to visit: the next
    one is [n - 1].  [None] is the panic of an index out of range. *)
Fixpoint chain_from {H : Type} (middlewares : list (H → H)) (n : nat) (h : H)
    : option H :=
  match n with
  | O => Some h
  | S i =>
    match middlewares !! i with
    | Some m => chain_from middlewares i (m h)
    | None => None
    end
  end.

Definition ChainMiddleware {H : Type} (h : H) (middlewares : list (H → H)) : option H :=
  chain_from middlewares (length middlewares) h.

(** ** Package [api] *)

(** The outcome of decoding the body of a request into a [RocketMessage]. *)
Inductive Decoded :=
| decode_error (text : string)
| decoded (message : RocketMessage).

(** [HandleMessage], from the decoding of the body on: the repository after
    the request and the response written. *)
Definition HandleMessage (r : RocketRepository) (body : Decoded)
    : RocketRepository * Response :=
  match body with
  | decode_error text =>
    (r, WriteErrorResponse
          (api_error (NewAPIError StatusBadRequest "Invalid JSON format" text)))
  | decoded message =>
    match ValidateRocketMessage message with
    | Some err => (r, WriteErrorResponse (validation_error err))
    | None =>
      let '(r', success) := ProcessMessage r message in
      if negb success then
        (r', WriteErrorResponse
               (processing_error
                  (NewMessageProcessingError (GetChannel message)
                     (GetMessageNumber message) (GetMessageType message)
                     "Message processing failed - may be duplicate, out-of-order, or invalid state transition")))
      else
        (r', WriteSuccessResponse
               (Some (DMap [("status", DString "success");
                            ("message", DString "Message processed successfully");
                            ("rocketId", DString (GetChannel message));
                            ("messageNumber", DInt (GetMessageNumber message))])))
    end
  end.

Definition rocket_not_found (rocketID : string) : Response :=
  WriteErrorResponse
    (api_error (NewAPIError StatusNotFound "Rocket not found"
                  ("No rocket found with ID: " +:+ rocketID))).

(** [HandleGetRocket] on the path value [id]. *)
Definition HandleGetRocket (r : RocketRepository) (rocketID : string) : Response :=
  match ValidateRocketID rocketID with
  | Some err => WriteErrorResponse (validation_error err)
  | None =>
    match GetRocket r rocketID with
    | None => rocket_not_found rocketID
    | Some rocket => WriteSuccessResponse (Some (DRocket rocket))
    end
  end.

(** [HandleDebugRocket] on the path value [id], with the repository [r] at
    its first read and [r'] at its second. *)
Definition HandleDebugRocket (o : MapOrder) (r r' : RocketRepository) (rocketID : string)
    : Response :=
  match ValidateRocketID rocketID with
  | Some err => WriteErrorResponse (validation_error err)
  | None =>
    match debug_rocket o r r' rocketID with
    | None => rocket_not_found rocketID
    | Some debugInfo => WriteSuccessResponse (Some (DDebugInfo debugInfo))
    end
  end.



(** The repository after a sequence of requests to [POST /messages]. *)
Definition serve (r : RocketRepository) (bodies : list Decoded) : RocketRepository :=
  foldl (λ acc body, (HandleMessage acc body).1) r bodies.

(** ** Sample messages *)

Definition launch (c : string) (n : Z) (t : Time) (ty mi : string) (sp : Z) : RocketMessage :=
  mkMessage c n t MessageTypeRocketLaunched (mkContent ty sp mi 0 "" "").
Definition speed_up (c : string) (n : Z) (t : Time) (by_ : Z) : RocketMessage :=
  mkMessage c n t MessageTypeRocketSpeedIncreased (mkContent "" 0 "" by_ "" "").
Definition speed_down (c : string) (n : Z) (t : Time) (by_ : Z) : RocketMessage :=
  mkMessage c n t MessageTypeRocketSpeedDecreased (mkContent "" 0 "" by_ "" "").
Definition explode (c : string) (n : Z) (t : Time) (why : string) : RocketMessage :=
  mkMessage c n t MessageTypeRocketExploded (mkContent "" 0 "" 0 why "").
Definition change_mission (c : string) (n : Z) (t : Time) (mi : string) : RocketMessage :=
  mkMessage c n t MessageTypeRocketMissionChanged (mkContent "" 0 "" 0 "" mi).

(** ** Vocabulary of the properties *)

(** Scenario 4 of the specification, with any times and payloads. *)
Definition scenario4 (t1 t2 t3 : Time) (ty mi : string) (sp by_ : Z) (why : string)
    : list RocketMessage :=
  [launch "R" 1 t1 ty mi sp; speed_up "R" 5 t2 by_; explode "R" 2 t3 why].

(** Sample states and messages. *)
Definition exploded_sample : RocketRepository :=
  ingest_all NewRocketRepository
    [launch "R" 1 10 "Falcon-9" "ARTEMIS" 500; explode "R" 2 11 "X"].

Definition exploded_rocket : RocketState :=
  {| ID := "R"; RType := "Falcon-9"; Speed := 500; RMission := "ARTEMIS";
     Exploded := true; RReason := "X"; CreatedAt := 10; UpdatedAt := 11;
     LastProcessedMessageNumber := 2 |}.

(** The message type is one of the five constants. *)
Definition recognized (msg : RocketMessage) : bool :=
  String.eqb (GetMessageType msg) MessageTypeRocketLaunched
  || String.eqb (GetMessageType msg) MessageTypeRocketSpeedIncreased
  || String.eqb (GetMessageType msg) MessageTypeRocketSpeedDecreased
  || String.eqb (GetMessageType msg) MessageTypeRocketExploded
  || String.eqb (GetMessageType msg) MessageTypeRocketMissionChanged.

Definition launched_sample : RocketRepository :=
  ingest_all NewRocketRepository [launch "R" 1 10 "Falcon-9" "ARTEMIS" 500].


Definition three_pending : RocketRepository :=
  ingest_all NewRocketRepository
    [launch "R" 1 10 "Falcon-9" "ARTEMIS" 500; speed_up "R" 5 11 50; speed_up "R" 3 12 50].

(** The range loop of the [RocketExploded] case over the entries of the
    pending map of the rocket, in the order [entries] of the visit. *)
Definition sweep_range (entries : list (Z * RocketMessage))
    (pend : gmap Z RocketMessage) : gmap Z RocketMessage :=
  foldl (λ acc kv, if negb (is_launch kv.2) then delete kv.1 acc else acc) pend entries.

(** A channel without a rocket has no processed number. *)
Definition unborn_clean (r : RocketRepository) : Prop :=
  ∀ c, rockets r !! c = None → processed_of r c = ∅.

(** The cursor is a non-negative number below the largest [int]; every
    pending key is below the largest [int] and, when [strict], more than
    [slack] above the cursor; every processed number is between 1 and the
    cursor. *)
Definition behind (strict : bool) (slack : Z) (rk : RocketState) (proc : gmap Z bool)
    (pend : gmap Z RocketMessage) : Prop :=
  0 <= LastProcessedMessageNumber rk < GoInt.max_int ∧
  (∀ k, is_Some (pend !! k) →
        (strict = true → LastProcessedMessageNumber rk + slack < k) ∧ k < GoInt.max_int) ∧
  (∀ k, is_Some (proc !! k) → 1 <= k <= LastProcessedMessageNumber rk).

(** The invariant of the repository, channel by channel.  When [strict], a
    channel without a rocket has nothing pending. *)
Definition cursor_inv (strict : bool) (r : RocketRepository) : Prop :=
  ∀ c, match rockets r !! c with
       | None =>
         (strict = true → pending_of r c = ∅) ∧
         (∀ k, is_Some (pending_of r c !! k) → k < GoInt.max_int) ∧
         processed_of r c = ∅
       | Some rk => behind strict 1 rk (processed_of r c) (pending_of r c)
       end.

(** The buffering of messages for a rocket that does not exist yet stores
    nothing under a number below 2: a message that is not a launch and
    arrives before any launch message of its channel is numbered 2 or more.
    [born] lists the channels on which a launch message has already
    arrived. *)
Fixpoint gate_clear (born : list string) (msgs : list RocketMessage) : bool :=
  match msgs with
  | [] => true
  | msg :: rest =>
    (is_launch msg || existsb (String.eqb (GetChannel msg)) born
     || (2 <=? GetMessageNumber msg))
    && gate_clear (if is_launch msg then GetChannel msg :: born else born) rest
  end.

(** The invariant that such sequences keep: for a rocket, the pending keys
    are more than one above the cursor and the processed numbers between 1
    and the cursor; for a channel without a rocket, the pending keys are 2
    or more and nothing is processed. *)
Definition gate_inv (r : RocketRepository) : Prop :=
  ∀ c, match rockets r !! c with
       | None =>
         (∀ k, is_Some (pending_of r c !! k) → 2 <= k < GoInt.max_int) ∧
         processed_of r c = ∅
       | Some rk => behind true 1 rk (processed_of r c) (pending_of r c)
       end.

(** Scenarios 2 and 6 of the specification on two channels, and a launch
    that arrives ahead of its number. *)
Definition early_arrival : list RocketMessage :=
  [speed_down "R" 3 10 300; speed_up "Q" 2 11 50;
   launch "R" 1 12 "Falcon-9" "ARTEMIS" 500; speed_up "R" 2 13 100;
   launch "Q" 1 14 "Atlas" "LUNA" 800; launch "S" 4 15 "Delta" "MARS" 900;
   speed_up "S" 1 16 10; speed_up "R" 6 17 1].

(** The number of the message is at most [N], its [By] is at most [B], and
    the launch speed of a launch message is between 0 and [B]. *)
Definition bounded (B N : Z) (msg : RocketMessage) : Prop :=
  GetMessageNumber msg <= N ∧ By (Message msg) <= B ∧
  (is_launch msg = true → 0 <= LaunchSpeed (Message msg) <= B).

(** The cursor is between 0 and [N] and the speed between 0 and [B] times
    the cursor. *)
Definition speed_ok (B N : Z) (rk : RocketState) : Prop :=
  0 <= LastProcessedMessageNumber rk <= N ∧
  0 <= Speed rk <= B * LastProcessedMessageNumber rk.

Definition pending_ok (B N : Z) (pend : gmap Z RocketMessage) : Prop :=
  ∀ k msg, pend !! k = Some msg → k <= N ∧ bounded B N msg.

Definition speed_inv (B N : Z) (r : RocketRepository) : Prop :=
  ∀ c, (∀ rk, rockets r !! c = Some rk → speed_ok B N rk) ∧ pending_ok B N (pending_of r c).

Definition is_speed_decrease (msg : RocketMessage) : bool :=
  String.eqb (GetMessageType msg) MessageTypeRocketSpeedDecreased.

Definition slow_rocket : list RocketMessage :=
  [launch "R" 1 10 "Falcon-9" "ARTEMIS" 500; speed_down "R" 2 11 300].

(** The loop with the fuel that [processPendingMessages] gives it. *)
Definition drain (c : string) (r : RocketRepository) (rk : RocketState)
    : RocketRepository * RocketState :=
  pending_loop (S (size (pending_of r c))) c r rk.

Definition is_explosion (msg : RocketMessage) : bool :=
  String.eqb (GetMessageType msg) MessageTypeRocketExploded.

(** The rocket that [processMessageByType] leaves; it does not depend on
    the repository. *)
Definition transition (rk : RocketState) (msg : RocketMessage) : RocketState :=
  (processMessageByType NewRocketRepository rk msg).1.2.

(** The answer of [processMessageByType] on a rocket that has not exploded. *)
Definition accepted_intact (msg : RocketMessage) : bool :=
  (processMessageByType NewRocketRepository (new_rocket "") msg).2.

(** A message of channel [c], numbered from 1 and below the largest [int],
    that passes the checks of its kind. *)
Definition benign (c : string) (msg : RocketMessage) : Prop :=
  GetChannel msg = c ∧ 1 <= GetMessageNumber msg < GoInt.max_int ∧
  accepted_intact msg = true.

(** Every entry above the key [k0] is a launch message. *)
Definition launches_above (k0 : Z) (pend : gmap Z RocketMessage) : Prop :=
  ∀ k msg, pend !! k = Some msg → k0 < k → is_launch msg = true.

(** Above an explosion there are only launch messages. *)
Definition disciplined (pend : gmap Z RocketMessage) : Prop :=
  ∀ k0 msg0, pend !! k0 = Some msg0 → is_explosion msg0 = true → launches_above k0 pend.

(** The state of the loop in which nothing can be rejected or skipped, and
    in which the sweep of an explosion finds nothing to remove but the
    explosion itself: the pending messages are acceptable and above the
    cursor, only launch messages are above an explosion, and only launch
    messages are pending when the rocket has exploded. *)
Definition calm (c : string) (rk : RocketState) (pend : gmap Z RocketMessage) : Prop :=
  ID rk = c ∧
  0 <= LastProcessedMessageNumber rk < GoInt.max_int ∧
  (∀ k msg, pend !! k = Some msg →
     benign c msg ∧ LastProcessedMessageNumber rk < k < GoInt.max_int) ∧
  disciplined pend ∧
  (Exploded rk = true → launches_above (LastProcessedMessageNumber rk) pend).

(** The repository in which the messages [S] of channel [c] are pending, and
    nothing else has happened: without a rocket, and with the empty one. *)
Definition boot (c : string) (S : gmap Z RocketMessage) : RocketRepository :=
  {| rockets := ∅; processedMessages := {[c := ∅]}; pendingMessages := {[c := S]} |}.

Definition seed (c : string) (S : gmap Z RocketMessage) : RocketRepository :=
  {| rockets := {[c := new_rocket c]};
     processedMessages := {[c := ∅]};
     pendingMessages := {[c := S]} |}.

(** While no launch message has arrived everything is pending; from the
    first launch message on, the state is the one the drain reaches from the
    empty rocket with every message pending. *)
Definition settled (c : string) (S : gmap Z RocketMessage) : RocketRepository :=
  if decide (map_Forall (λ _ msg, is_launch msg = false) S) then boot c S
  else processPendingMessages (seed c S) c.

(** Every message is acceptable and stored under its number, number 1, if
    there, is a launch message, and only launch messages are above an
    explosion. *)
Definition tidy (c : string) (S : gmap Z RocketMessage) : Prop :=
  (∀ k msg, S !! k = Some msg →
     benign c msg ∧ GetMessageNumber msg = k ∧ (k = 1 → is_launch msg = true)) ∧
  disciplined S.

(** The messages with their numbers as keys. *)
Definition numbered (msgs : list RocketMessage) : list (Z * RocketMessage) :=
  (λ msg, (GetMessageNumber msg, msg)) <$> msgs.

Definition relaunch_in_order : list RocketMessage :=
  [launch "R" 1 10 "Falcon-9" "ARTEMIS" 500; explode "R" 2 11 "X";
   launch "R" 3 12 "Atlas" "LUNA" 800; speed_up "R" 4 13 50].

Definition relaunch_shuffled : list RocketMessage :=
  [launch "R" 1 10 "Falcon-9" "ARTEMIS" 500; speed_up "R" 4 13 50;
   explode "R" 2 11 "X"; launch "R" 3 12 "Atlas" "LUNA" 800].

Definition eventful_flight : list RocketMessage :=
  [launch "R" 1 10 "Falcon-9" "ARTEMIS" 500; speed_up "R" 2 11 100;
   speed_down "R" 3 12 300; explode "R" 4 13 "X"; launch "R" 5 14 "Atlas" "LUNA" 800;
   launch "R" 7 15 "Atlas" "MARS" 900].

(** ** Vocabulary of the further properties *)

(** The rocket that a call of [ProcessMessage] works on, and the repository
    in which it does: the record of the channel, or, for a launch message
    on a channel without one, a new record, stored at once. *)
Inductive working (r : RocketRepository) (msg : RocketMessage)
    : RocketRepository → RocketState → Prop :=
| working_found rk :
    rockets r !! GetChannel msg = Some rk →
    working r msg (init_maps r (GetChannel msg)) rk
| working_created :
    rockets r !! GetChannel msg = None →
    is_launch msg = true →
    working r msg
      (set_rocket (init_maps r (GetChannel msg)) (GetChannel msg)
         (new_rocket (GetChannel msg)))
      (new_rocket (GetChannel msg)).

(** The six ways through [ProcessMessage], each with the repository it
    leaves and the boolean it returns. *)
Inductive ingest_case (r : RocketRepository) (msg : RocketMessage)
    : RocketRepository → bool → Prop :=
| ingest_duplicate :
    is_processed r (GetChannel msg) (GetMessageNumber msg) = true →
    ingest_case r msg (init_maps r (GetChannel msg)) true
| ingest_unborn :
    is_processed r (GetChannel msg) (GetMessageNumber msg) = false →
    rockets r !! GetChannel msg = None →
    is_launch msg = false →
    ingest_case r msg
      (set_pending (init_maps r (GetChannel msg)) (GetChannel msg)
         (GetMessageNumber msg) msg)
      true
| ingest_applied ra rk r1 rk1 r' rk' :
    is_processed r (GetChannel msg) (GetMessageNumber msg) = false →
    working r msg ra rk →
    GetMessageNumber msg = GoInt.add (LastProcessedMessageNumber rk) 1 →
    processMessageByType ra rk msg = (r1, rk1, true) →
    drain (GetChannel msg)
      (set_rocket (set_processed r1 (GetChannel msg) (GetMessageNumber msg))
         (GetChannel msg) (advance rk1 (GetMessageNumber msg) (GetMessageTime msg)))
      (advance rk1 (GetMessageNumber msg) (GetMessageTime msg)) = (r', rk') →
    ingest_case r msg (set_rocket r' (GetChannel msg) rk') true
| ingest_rejected ra rk :
    is_processed r (GetChannel msg) (GetMessageNumber msg) = false →
    working r msg ra rk →
    GetMessageNumber msg = GoInt.add (LastProcessedMessageNumber rk) 1 →
    processMessageByType ra rk msg = (ra, rk, false) →
    ingest_case r msg (set_rocket ra (GetChannel msg) rk) false
| ingest_buffered ra rk :
    is_processed r (GetChannel msg) (GetMessageNumber msg) = false →
    working r msg ra rk →
    GoInt.add (LastProcessedMessageNumber rk) 1 < GetMessageNumber msg →
    ingest_case r msg
      (set_pending ra (GetChannel msg) (GetMessageNumber msg) msg) true
| ingest_stale ra rk :
    is_processed r (GetChannel msg) (GetMessageNumber msg) = false →
    working r msg ra rk →
    GetMessageNumber msg < GoInt.add (LastProcessedMessageNumber rk) 1 →
    ingest_case r msg ra false.

(** Every record is stored under its own [ID]. *)
Definition named (r : RocketRepository) : Prop :=
  ∀ c rk, rockets r !! c = Some rk → ID rk = c.

(** The processed numbers are the numbers from 1 to the cursor, each marked
    [true], and nothing else. *)
Definition logged (rk : RocketState) (proc : gmap Z bool) : Prop :=
  (∀ k, 1 <= k <= LastProcessedMessageNumber rk → proc !! k = Some true) ∧
  Z.of_nat (size proc) = LastProcessedMessageNumber rk.

Definition log_inv (r : RocketRepository) : Prop :=
  cursor_inv false r ∧
  ∀ c rk, rockets r !! c = Some rk → logged rk (processed_of r c).

(** The messages of a sequence of request bodies that reach
    [ProcessMessage]: those that were decoded and pass the validation. *)
Definition reaches_repository (body : Decoded) : option RocketMessage :=
  match body with
  | decode_error _ => None
  | decoded message =>
    match ValidateRocketMessage message with
    | Some _ => None
    | None => Some message
    end
  end.

Definition validated_of (bodies : list Decoded) : list RocketMessage :=
  omap reaches_repository bodies.

(** A comparison that [sort.Slice] can sort by: no element is before
    itself, being before is transitive, and so is not being before. *)
Definition strict_weak {A : Type} (R : A → A → bool) : Prop :=
  (∀ a, R a a = false) ∧
  (∀ a b c, R a b = true → R b c = true → R a c = true) ∧
  (∀ a b c, R a b = false → R b c = false → R a c = false).

(** Nothing in the buffers but what was ingested: every pending entry is a
    message of the list, of that channel and stored under its number, and
    every processed number is the number of a message of the list on that
    channel. *)
Definition sourced (msgs : list RocketMessage) (r : RocketRepository) : Prop :=
  (∀ c k m, pending_of r c !! k = Some m →
            m ∈ msgs ∧ GetChannel m = c ∧ GetMessageNumber m = k) ∧
  (∀ c k, is_processed r c k = true →
          ∃ m, m ∈ msgs ∧ GetChannel m = c ∧ GetMessageNumber m = k).


(** ** Machine integers: facts *)

Lemma wrap_id z : GoInt.in_range z -> GoInt.wrap z = z.
Proof.
  unfold GoInt.in_range, GoInt.wrap, GoInt.min_int, GoInt.max_int, GoInt.int_bits. intros Hz.
  rewrite Z.mod_small; lia.
Qed.

Lemma wrap_in_range z : GoInt.in_range (GoInt.wrap z).
Proof.
  unfold GoInt.in_range, GoInt.wrap, GoInt.min_int, GoInt.max_int, GoInt.int_bits.
  pose proof (Z.mod_pos_bound (z + 2 ^ (64 - 1)) (2 ^ 64) ltac:(lia)). lia.
Qed.

(** ** Reading the maps after an update *)

Section map_access.
Implicit Types (r : RocketRepository) (c d : string) (n k : Z).

Lemma pending_of_init_maps r c d : pending_of (init_maps r c) d = pending_of r d.
Proof.
  unfold pending_of, init_maps; simpl.
  destruct (pendingMessages r !! c) eqn:Hc; [done|].
  destruct (decide (c = d)) as [->|Hne].
  - by rewrite lookup_insert_eq, Hc.
  - by rewrite lookup_insert_ne.
Qed.

Lemma processed_of_init_maps r c d : processed_of (init_maps r c) d = processed_of r d.
Proof.
  unfold processed_of, init_maps; simpl.
  destruct (processedMessages r !! c) eqn:Hc; [done|].
  destruct (decide (c = d)) as [->|Hne].
  - by rewrite lookup_insert_eq, Hc.
  - by rewrite lookup_insert_ne.
Qed.

Lemma is_processed_init_maps r c d n :
  is_processed (init_maps r c) d n = is_processed r d n.
Proof. unfold is_processed. by rewrite processed_of_init_maps. Qed.

Lemma init_maps_has_processed r c : is_Some (processedMessages (init_maps r c) !! c).
Proof.
  unfold init_maps; simpl. destruct (processedMessages r !! c) eqn:Hc.
  - rewrite Hc; eauto.
  - rewrite lookup_insert_eq; eauto.
Qed.

Lemma init_maps_has_pending r c : is_Some (pendingMessages (init_maps r c) !! c).
Proof.
  unfold init_maps; simpl. destruct (pendingMessages r !! c) eqn:Hc.
  - rewrite Hc; eauto.
  - rewrite lookup_insert_eq; eauto.
Qed.

Lemma init_maps_done r c :
  is_Some (processedMessages r !! c) → is_Some (pendingMessages r !! c) →
  init_maps r c = r.
Proof.
  intros [p Hp] [q Hq]. unfold init_maps. rewrite Hp, Hq. by destruct r.
Qed.

Lemma init_maps_idemp r c : init_maps (init_maps r c) c = init_maps r c.
Proof.
  apply init_maps_done; [apply init_maps_has_processed | apply init_maps_has_pending].
Qed.

Lemma pending_of_set_pending r c n msg d :
  pending_of (set_pending r c n msg) d =
    if decide (c = d) then <[n := msg]> (pending_of r c) else pending_of r d.
Proof.
  unfold pending_of at 1; simpl. case_decide as Hd.
  - subst. by rewrite lookup_insert_eq.
  - by rewrite lookup_insert_ne.
Qed.

Lemma pending_of_delete_pending r c n d :
  pending_of (delete_pending r c n) d =
    if decide (c = d) then delete n (pending_of r c) else pending_of r d.
Proof.
  unfold pending_of; simpl. rewrite lookup_alter. case_decide as Hd; [|done].
  subst. destruct (pendingMessages r !! d); simpl; [done|].
  by rewrite delete_empty.
Qed.

Lemma pending_of_sweep_pending r c d :
  pending_of (sweep_pending r c) d =
    if decide (c = d)
    then filter (λ kv : Z * RocketMessage, is_launch kv.2 = true) (pending_of r c)
    else pending_of r d.
Proof.
  unfold pending_of; simpl. rewrite lookup_alter. case_decide as Hd; [|done].
  subst. destruct (pendingMessages r !! d); simpl; [done|].
  by rewrite map_filter_empty.
Qed.

Lemma processed_of_set_processed r c n d :
  processed_of (set_processed r c n) d =
    if decide (c = d) then <[n := true]> (processed_of r c) else processed_of r d.
Proof.
  unfold processed_of at 1; simpl. case_decide as Hd.
  - subst. by rewrite lookup_insert_eq.
  - by rewrite lookup_insert_ne.
Qed.

Lemma is_processed_set_processed r c n d k :
  is_processed (set_processed r c n) d k =
    if decide (c = d ∧ n = k) then true else is_processed r d k.
Proof.
  unfold is_processed. rewrite processed_of_set_processed.
  destruct (decide (c = d)) as [->|Hne].
  - destruct (decide (n = k)) as [->|Hk].
    + rewrite lookup_insert_eq. by rewrite decide_True.
    + rewrite lookup_insert_ne by done. rewrite decide_False; [done|]. intros [_ ?]; congruence.
  - rewrite decide_False; [done|]. intros [? _]; congruence.
Qed.

End map_access.

(** ** The transition function *)

Lemma processMessageByType_rejects r rocket msg r1 rocket1 :
  processMessageByType r rocket msg = (r1, rocket1, false) →
  r1 = r ∧ rocket1 = rocket.
Proof.
  unfold processMessageByType.
  repeat (case_match; try (intros [= <- <-]; done)); intros [=].
Qed.

(** Whatever the outcome, only the pending buffer of the repository can
    differ, and the identity and the cursor of the rocket are kept. *)
Lemma processMessageByType_frame r rocket msg r1 rocket1 ok :
  processMessageByType r rocket msg = (r1, rocket1, ok) →
  rockets r1 = rockets r ∧ processedMessages r1 = processedMessages r ∧
  (r1 = r ∨ r1 = sweep_pending r (ID rocket)) ∧
  ID rocket1 = ID rocket ∧
  LastProcessedMessageNumber rocket1 = LastProcessedMessageNumber rocket.
Proof.
  unfold processMessageByType.
  repeat case_match; intros [= <- <- <-]; simpl; auto 6.
Qed.

(** The sweep of the [RocketExploded] case as the loop it is in the source:
    the entries are visited in some order, and the one visited is deleted if
    it is not a launch.  Whatever the order, what is left is the filter that
    [sweep_pending] applies. *)
Lemma sweep_range_gone entries acc k :
  acc !! k = None → sweep_range entries acc !! k = None.
Proof.
  revert acc. induction entries as [|[k' v'] entries IH]; intros acc Hk; [done|].
  simpl. apply IH. destruct (negb (is_launch v')); [|done].
  destruct (decide (k' = k)) as [->|Hne].
  - apply lookup_delete_eq.
  - by rewrite lookup_delete_ne.
Qed.

Lemma sweep_range_deleted entries acc k v :
  (k, v) ∈ entries → is_launch v = false → sweep_range entries acc !! k = None.
Proof.
  revert acc. induction entries as [|[k' v'] entries IH]; intros acc Hin Hl.
  - by apply elem_of_nil in Hin.
  - apply elem_of_cons in Hin as [[= <- <-]|Hin]; simpl.
    + rewrite Hl. simpl. apply sweep_range_gone, lookup_delete_eq.
    + by apply IH.
Qed.

Lemma sweep_range_kept entries acc k :
  (∀ v, (k, v) ∈ entries → is_launch v = true) →
  sweep_range entries acc !! k = acc !! k.
Proof.
  revert acc. induction entries as [|[k' v'] entries IH]; intros acc Hall; [done|].
  simpl. rewrite IH.
  - destruct (is_launch v') eqn:Hl; simpl; [done|].
    rewrite lookup_delete_ne; [done|]. intros ->.
    specialize (Hall v' ltac:(apply list_elem_of_here)). congruence.
  - intros v Hin. apply Hall. by apply list_elem_of_further.
Qed.

Lemma sweep_range_filter (o : MapOrder) (pend : gmap Z RocketMessage) :
  sweep_range (visit o _ (map_to_list pend)) pend
  = filter (λ kv : Z * RocketMessage, is_launch kv.2 = true) pend.
Proof.
  apply map_eq. intros k. rewrite map_lookup_filter.
  destruct (pend !! k) as [v|] eqn:Hk; simpl.
  - destruct (is_launch v) eqn:Hl.
    + rewrite option_guard_True by done.
      rewrite sweep_range_kept; [done|].
      intros v' Hin. rewrite (visit_perm o) in Hin.
      apply elem_of_map_to_list in Hin. congruence.
    + rewrite option_guard_False by (simpl; congruence).
      apply (sweep_range_deleted _ _ k v); [|done].
      rewrite (visit_perm o). by apply elem_of_map_to_list.
  - by apply sweep_range_gone.
Qed.

(** ** The loop of [processPendingMessages] *)

(** One case per exit or continuation of the loop body. *)
Lemma pending_loop_ind (P : string → RocketRepository → RocketState →
                            RocketRepository → RocketState → Prop) :
  (∀ c r rk, P c r rk r rk) →
  (∀ c r rk msg r' rk',
     pending_of r c !! GoInt.add (LastProcessedMessageNumber rk) 1 = Some msg →
     Exploded rk && negb (is_launch msg) = true →
     P c (delete_pending r c (GoInt.add (LastProcessedMessageNumber rk) 1)) rk r' rk' →
     P c r rk r' rk') →
  (∀ c r rk msg r1 rk1 r' rk',
     pending_of r c !! GoInt.add (LastProcessedMessageNumber rk) 1 = Some msg →
     Exploded rk && negb (is_launch msg) = false →
     processMessageByType r rk msg = (r1, rk1, true) →
     P c (delete_pending
            (set_processed r1 c (GoInt.add (LastProcessedMessageNumber rk) 1)) c
            (GoInt.add (LastProcessedMessageNumber rk) 1))
         (advance rk1 (GoInt.add (LastProcessedMessageNumber rk) 1) (GetMessageTime msg))
         r' rk' →
     P c r rk r' rk') →
  (∀ c r rk msg,
     pending_of r c !! GoInt.add (LastProcessedMessageNumber rk) 1 = Some msg →
     Exploded rk && negb (is_launch msg) = false →
     processMessageByType r rk msg = (r, rk, false) →
     P c r rk (delete_pending r c (GoInt.add (LastProcessedMessageNumber rk) 1)) rk) →
  ∀ fuel c r rk r' rk', pending_loop fuel c r rk = (r', rk') → P c r rk r' rk'.
Proof.
  intros Hstop Hskip Hok Hfail fuel.
  induction fuel as [|fuel IH]; intros c r rk r' rk'; simpl.
  - intros [= <- <-]. apply Hstop.
  - destruct (pending_of r c !! _) as [msg|] eqn:Hnext.
    + destruct (Exploded rk && negb (is_launch msg)) eqn:Hgate.
      * intros Hloop. eapply Hskip; eauto.
      * destruct (processMessageByType r rk msg) as [[r1 rk1] ok] eqn:Hp.
        destruct ok.
        -- intros Hloop. eapply Hok; eauto.
        -- apply processMessageByType_rejects in Hp as Hrej. destruct Hrej as [-> ->].
           intros [= <- <-]. by eapply Hfail.
    + intros [= <- <-]. apply Hstop.
Qed.

(** The loop leaves the rocket map of the repository alone (the rocket it
    works on is written back by the caller), keeps the identity of the
    rocket, never forgets a processed number, and touches the processed
    numbers of no other channel. *)
Lemma pending_loop_frame fuel c r rk r' rk' :
  pending_loop fuel c r rk = (r', rk') →
  rockets r' = rockets r ∧ ID rk' = ID rk ∧
  (∀ d, is_Some (processedMessages r !! d) → is_Some (processedMessages r' !! d)) ∧
  (∀ d, is_Some (pendingMessages r !! d) → is_Some (pendingMessages r' !! d)) ∧
  (∀ d k, is_processed r d k = true → is_processed r' d k = true) ∧
  (∀ d, d ≠ c → processed_of r' d = processed_of r d).
Proof.
  revert fuel c r rk r' rk'. apply pending_loop_ind.
  - intros; repeat split; auto.
  - intros c r rk msg r' rk' _ _ (Hr & Hid & Hp & Hq & Hd & Ho).
    repeat split; auto.
    intros d Hs. apply Hq. simpl. by rewrite lookup_alter_is_Some.
  - intros c r rk msg r1 rk1 r' rk' _ _ Hby (Hr & Hid & Hp & Hq & Hd & Ho).
    apply processMessageByType_frame in Hby as (Hr1 & Hp1 & Hq1 & Hid1 & _).
    repeat split.
    + by rewrite Hr.
    + by rewrite Hid.
    + intros d Hs. apply Hp. simpl. rewrite Hp1, lookup_insert_is_Some'. auto.
    + intros d Hs. apply Hq. simpl. rewrite lookup_alter_is_Some.
      destruct Hq1 as [->| ->]; [done|]. simpl. by rewrite lookup_alter_is_Some.
    + intros d k Hk. apply Hd.
      change (is_processed (set_processed r1 c (GoInt.add (LastProcessedMessageNumber rk) 1)) d k = true).
      rewrite is_processed_set_processed. case_decide; [done|].
      unfold is_processed, processed_of in *. by rewrite Hp1.
    + intros d Hne. rewrite Ho by done.
      change (processed_of (set_processed r1 c (GoInt.add (LastProcessedMessageNumber rk) 1)) d = processed_of r d).
      rewrite processed_of_set_processed. rewrite decide_False by done.
      unfold processed_of. by rewrite Hp1.
  - intros c r rk msg _ _ _. repeat split; auto.
    intros d Hs. simpl. by rewrite lookup_alter_is_Some.
Qed.

(** After [processMessageByType] the pending buffer of any channel is a
    part of what it was. *)
Lemma processMessageByType_pending r rk msg r1 rk1 ok d :
  processMessageByType r rk msg = (r1, rk1, ok) →
  pending_of r1 d ⊆ pending_of r d.
Proof.
  intros Hby. apply processMessageByType_frame in Hby as (_ & _ & [->| ->] & _); [done|].
  rewrite pending_of_sweep_pending. case_decide; subst; [|done].
  apply map_filter_subseteq.
Qed.

Lemma pending_shrinks r1 (r : RocketRepository) c n msg :
  pending_of r c !! n = Some msg → pending_of r1 c ⊆ pending_of r c →
  (size (delete n (pending_of r1 c)) < size (pending_of r c))%nat.
Proof.
  intros Hn Hsub.
  eapply Nat.le_lt_trans.
  - apply map_subseteq_size, delete_mono, Hsub.
  - apply map_subset_size, delete_subset. eauto.
Qed.

(** The fuel given by [processPendingMessages] is never used up: the loop
    leaves through one of its [break]s, and when it does the pending buffer
    has no entry at the number after the cursor. *)
Lemma pending_loop_exit fuel c r rk r' rk' :
  (size (pending_of r c) < fuel)%nat →
  pending_loop fuel c r rk = (r', rk') →
  pending_of r' c !! GoInt.add (LastProcessedMessageNumber rk') 1 = None.
Proof.
  revert r rk. induction fuel as [|fuel IH]; intros r rk Hfuel; [lia|]. simpl.
  destruct (pending_of r c !! _) as [msg|] eqn:Hnext.
  - destruct (Exploded rk && negb (is_launch msg)) eqn:Hgate.
    + apply IH. rewrite pending_of_delete_pending, decide_True by done.
      pose proof (pending_shrinks r r c _ msg Hnext ltac:(done)). lia.
    + destruct (processMessageByType r rk msg) as [[r1 rk1] ok] eqn:Hp.
      destruct ok.
      * apply IH. rewrite pending_of_delete_pending, decide_True by done.
        change (pending_of (set_processed r1 c ?n) c) with (pending_of r1 c).
        pose proof (pending_shrinks r1 r c _ msg Hnext
                      (processMessageByType_pending _ _ _ _ _ _ c Hp)). lia.
      * apply processMessageByType_rejects in Hp as [-> ->]. intros [= <- <-].
        rewrite pending_of_delete_pending, decide_True by done.
        apply lookup_delete_eq.
  - by intros [= <- <-].
Qed.

(** More fuel changes nothing. *)
Lemma pending_loop_fuel fuel1 fuel2 c r rk :
  (size (pending_of r c) < fuel1)%nat → (size (pending_of r c) < fuel2)%nat →
  pending_loop fuel1 c r rk = pending_loop fuel2 c r rk.
Proof.
  revert fuel2 r rk. induction fuel1 as [|fuel1 IH]; intros [|fuel2] r rk H1 H2; try lia.
  simpl. destruct (pending_of r c !! _) as [msg|] eqn:Hnext; [|done].
  destruct (Exploded rk && negb (is_launch msg)) eqn:Hgate.
  - pose proof (pending_shrinks r r c _ msg Hnext ltac:(done)).
    apply IH; rewrite pending_of_delete_pending, decide_True by done; lia.
  - destruct (processMessageByType r rk msg) as [[r1 rk1] ok] eqn:Hp.
    destruct ok; [|done].
    pose proof (pending_shrinks r1 r c _ msg Hnext
                  (processMessageByType_pending _ _ _ _ _ _ c Hp)).
    apply IH; rewrite pending_of_delete_pending, decide_True by done;
      change (pending_of (set_processed r1 c ?n) c) with (pending_of r1 c); lia.
Qed.

Lemma processPendingMessages_unfold r c rk :
  rockets r !! c = Some rk →
  ∃ r' rk', pending_loop (S (size (pending_of r c))) c r rk = (r', rk') ∧
            processPendingMessages r c = set_rocket r' c rk'.
Proof.
  intros Hc. unfold processPendingMessages. rewrite Hc.
  destruct (pending_loop _ c r rk) as [r' rk']. eauto.
Qed.

Lemma pending_loop_S fuel c r rk :
  pending_loop (S fuel) c r rk =
    match pending_of r c !! GoInt.add (LastProcessedMessageNumber rk) 1 with
    | None => (r, rk)
    | Some msg =>
      if Exploded rk && negb (is_launch msg) then
        pending_loop fuel c
          (delete_pending r c (GoInt.add (LastProcessedMessageNumber rk) 1)) rk
      else
        let '(r1, rk1, ok) := processMessageByType r rk msg in
        if ok then
          pending_loop fuel c
            (delete_pending
               (set_processed r1 c (GoInt.add (LastProcessedMessageNumber rk) 1)) c
               (GoInt.add (LastProcessedMessageNumber rk) 1))
            (advance rk1 (GoInt.add (LastProcessedMessageNumber rk) 1) (GetMessageTime msg))
        else (delete_pending r1 c (GoInt.add (LastProcessedMessageNumber rk) 1), rk1)
    end.
Proof. reflexivity. Qed.

Arguments pending_loop : simpl never.

Lemma visit_nil (o : MapOrder) (A : Type) : visit o A [] = [].
Proof. apply Permutation_nil_r. apply visit_perm. Qed.

(** ** Scenario: an explosion with a message buffered past a gap *)

(** C1, as stated, fails: in the scenario of the specification the cursor
    ends at 2, not at 5; the drain stops at the gap left by the numbers 3
    and 4. *)
Lemma C1_cursor_does_not_reach_5 :
  let r := ingest_all NewRocketRepository
             (scenario4 10 11 12 "Falcon-9" "ARTEMIS" 500 50 "X") in
  ¬ (LastProcessedMessageNumber <$> GetRocket r "R" = Some 5).
Proof. vm_compute. intros [=]. Qed.

(** C1, amended: after Launched #1, SpeedIncreased #5 (buffered) and
    Exploded #2 with a non-empty reason on a fresh channel, every call
    returned true, the rocket is exploded with that reason, its speed is
    still the launch speed, the pending buffer of the channel is empty (the
    entry at 5 was removed by the sweep of the explosion) and the cursor is
    at 2: it does not move past the gap at 3. *)
Theorem C1_explosion_buries_pending t1 t2 t3 ty mi sp by_ why :
  ty ≠ "" → mi ≠ "" → why ≠ "" →
  let msgs := scenario4 t1 t2 t3 ty mi sp by_ why in
  let r := ingest_all NewRocketRepository msgs in
  ingest_results NewRocketRepository msgs = [true; true; true] ∧
  GetRocket r "R" =
    Some {| ID := "R"; RType := ty; Speed := sp; RMission := mi; Exploded := true;
            RReason := why; CreatedAt := t1; UpdatedAt := t3;
            LastProcessedMessageNumber := 2 |} ∧
  pending_of r "R" = ∅ ∧
  (∀ o, GetDebugInfo o r "R" = (2, [])).
Proof.
  intros Hty Hmi Hwhy.
  destruct ty as [|a1 ty']; [congruence|]. destruct mi as [|a2 mi']; [congruence|].
  destruct why as [|a3 why']; [congruence|].
  vm_compute. repeat split.
  intros o. pose proof (visit_nil o Z) as Hnil. vm_compute in Hnil. by rewrite Hnil.
Qed.

Lemma C1_explosion_buries_pending_witness :
  let msgs := scenario4 10 11 12 "Falcon-9" "ARTEMIS" 500 50 "X" in
  let r := ingest_all NewRocketRepository msgs in
  ingest_results NewRocketRepository msgs = [true; true; true] ∧
  GetRocket r "R" =
    Some {| ID := "R"; RType := "Falcon-9"; Speed := 500; RMission := "ARTEMIS";
            Exploded := true; RReason := "X"; CreatedAt := 10; UpdatedAt := 12;
            LastProcessedMessageNumber := 2 |} ∧
  pending_of r "R" = ∅ ∧
  (∀ o, GetDebugInfo o r "R" = (2, [])).
Proof.
  apply (C1_explosion_buries_pending 10 11 12 "Falcon-9" "ARTEMIS" 500 50 "X");
    discriminate.
Defined.

(** ** What the queries list *)

Lemma GetAllRockets_lists o r c rocket :
  GetRocket r c = Some rocket → summary_of rocket ∈ GetAllRockets o r.
Proof.
  intros Hc. unfold GetAllRockets.
  apply list_elem_of_fmap. exists rocket. split; [done|].
  rewrite (visit_perm o). apply list_elem_of_fmap. exists (c, rocket). split; [done|].
  by apply elem_of_map_to_list.
Qed.

Lemma set_rocket_same r c rocket : rockets r !! c = Some rocket → set_rocket r c rocket = r.
Proof. intros Hc. unfold set_rocket. rewrite insert_id by done. by destruct r. Qed.

(** ** The terminal gate *)

(** C6: on an exploded rocket the transition function rejects every message
    that is not a launch and mutates nothing; and [ProcessMessage] returns
    false for such a message when it is the one expected next (and so not
    an already processed number), leaving the rocket, the processed numbers
    and the pending buffer as they were. *)
Theorem C6_exploded_rejects_non_launch r rocket msg :
  Exploded rocket = true → is_launch msg = false →
  processMessageByType r rocket msg = (r, rocket, false) ∧
  (rockets r !! GetChannel msg = Some rocket →
   GetMessageNumber msg = GoInt.add (LastProcessedMessageNumber rocket) 1 →
   is_processed r (GetChannel msg) (GetMessageNumber msg) = false →
   ProcessMessage r msg = (init_maps r (GetChannel msg), false) ∧
   GetRocket (ProcessMessage r msg).1 (GetChannel msg) = Some rocket ∧
   ∀ d, pending_of (ProcessMessage r msg).1 d = pending_of r d ∧
        processed_of (ProcessMessage r msg).1 d = processed_of r d).
Proof.
  intros Hexp Hnl.
  assert (Hgate : ∀ r0, processMessageByType r0 rocket msg = (r0, rocket, false)).
  { intros r0. unfold processMessageByType. by rewrite Hexp, Hnl. }
  split; [apply Hgate|]. intros Hrk Hnum Hdup.
  assert (ProcessMessage r msg = (init_maps r (GetChannel msg), false)) as Hpm.
  { unfold ProcessMessage. rewrite is_processed_init_maps, Hdup.
    change (rockets (init_maps r (GetChannel msg))) with (rockets r). rewrite Hrk.
    unfold process_in_sequence. rewrite Hnum, Z.eqb_refl, Hgate.
    by rewrite set_rocket_same. }
  rewrite Hpm. simpl. repeat split; [done| |].
  - apply pending_of_init_maps.
  - apply processed_of_init_maps.
Qed.

Lemma C6_exploded_rejects_non_launch_witness :
  processMessageByType exploded_sample exploded_rocket (speed_up "R" 3 12 50)
    = (exploded_sample, exploded_rocket, false) ∧
  ProcessMessage exploded_sample (speed_up "R" 3 12 50)
    = (init_maps exploded_sample "R", false).
Proof.
  pose proof (C6_exploded_rejects_non_launch exploded_sample exploded_rocket
                (speed_up "R" 3 12 50) eq_refl eq_refl) as [H1 H2].
  split; [exact H1|].
  apply H2; vm_compute; reflexivity.
Defined.

(** ** Messages of an unknown type *)


(** ** A rejected first launch *)

(** C10: on a channel without a rocket, a launch message numbered 1 (not an
    already processed number) whose type or mission is empty is rejected,
    and yet the empty record made for the channel stays in the rocket map:
    [GetRocket] returns it and [GetAllRockets] lists it. *)
Theorem C10_rejected_launch_leaves_record r msg :
  let c := GetChannel msg in
  rockets r !! c = None →
  is_processed r c 1 = false →
  is_launch msg = true →
  GetMessageNumber msg = 1 →
  Type_ (Message msg) = "" ∨ Mission (Message msg) = "" →
  let r' := (ProcessMessage r msg).1 in
  (ProcessMessage r msg).2 = false ∧
  GetRocket r' c =
    Some {| ID := c; RType := ""; Speed := 0; RMission := ""; Exploded := false;
            RReason := ""; CreatedAt := 0; UpdatedAt := 0;
            LastProcessedMessageNumber := 0 |} ∧
  (∀ o, {| SID := c; SType := ""; SSpeed := 0; SMission := ""; SExploded := false;
           SUpdatedAt := 0 |} ∈ GetAllRockets o r') ∧
  (∀ d, pending_of r' d = pending_of r d ∧ processed_of r' d = processed_of r d).
Proof.
  intros c Hnone Hdup Hl Hn Hempty r'.
  assert (Hpm : ProcessMessage r msg =
                  (set_rocket (init_maps r c) c (new_rocket c), false)).
  { unfold ProcessMessage. fold c. rewrite Hn, is_processed_init_maps, Hdup.
    change (rockets (init_maps r c)) with (rockets r). rewrite Hnone, Hl. simpl.
    unfold process_in_sequence. fold c. rewrite Hn. simpl.
    change (GoInt.add 0 1) with 1. simpl.
    assert (processMessageByType (set_rocket (init_maps r c) c (new_rocket c))
              (new_rocket c) msg
            = (set_rocket (init_maps r c) c (new_rocket c), new_rocket c, false)) as ->.
    { unfold processMessageByType. simpl. unfold is_launch in Hl. rewrite Hl.
      destruct Hempty as [-> | ->]; simpl; [done|]. by rewrite orb_true_r. }
    f_equal. unfold set_rocket; simpl. by rewrite insert_insert_eq. }
  subst r'. rewrite Hpm. simpl.
  assert (Hget : GetRocket (set_rocket (init_maps r c) c (new_rocket c)) c
                 = Some (new_rocket c)).
  { unfold GetRocket. simpl. apply lookup_insert_eq. }
  split; [done|]. split; [exact Hget|]. split.
  - intros o. apply (GetAllRockets_lists o _ c _ Hget).
  - intros d. split.
    + change (pending_of (init_maps r c) d = pending_of r d). apply pending_of_init_maps.
    + change (processed_of (init_maps r c) d = processed_of r d).
      apply processed_of_init_maps.
Qed.

Lemma C10_rejected_launch_leaves_record_witness :
  let msg := launch "R" 1 10 "" "ARTEMIS" 500 in
  (ProcessMessage NewRocketRepository msg).2 = false ∧
  GetRocket (ProcessMessage NewRocketRepository msg).1 "R" = Some (new_rocket "R").
Proof.
  pose proof (C10_rejected_launch_leaves_record NewRocketRepository
                (launch "R" 1 10 "" "ARTEMIS" 500)
                eq_refl eq_refl eq_refl eq_refl (or_introl eq_refl)) as (H1 & H2 & _).
  split; [exact H1 | exact H2].
Defined.

(** ** Diagnostics *)

(** C7, as stated, fails: nothing sorts the pending numbers.  With the
    numbers 5 and 3 buffered, an iteration of the map that meets 5 first
    gives the list 5, 3. *)
Lemma C7_pending_numbers_not_sorted :
  ¬ Sorted Z.le (GetDebugInfo order_as_stored three_pending "R").2.
Proof.
  vm_compute. intros Hs.
  apply Sorted_inv in Hs as [_ Hhd]. apply HdRel_inv in Hhd.
  vm_compute in Hhd. by apply Hhd.
Qed.

(** C7, amended: for one channel [GetDebugInfo] returns the number of
    processed messages and a list that holds every pending number exactly
    once, in the order the map iteration happened to take (not sorted); the
    handler adds the cursor of the rocket to the two, as it read it from the
    repository [r0] of its first read; and for a channel the repository has
    never seen the answer is 0 and the empty list. *)
Theorem C7_diagnostics o r rocketID :
  (GetDebugInfo o r rocketID).1 = Z.of_nat (size (processed_of r rocketID)) ∧
  (GetDebugInfo o r rocketID).2 ≡ₚ (map_to_list (pending_of r rocketID)).*1 ∧
  NoDup (GetDebugInfo o r rocketID).2 ∧
  (∀ n, n ∈ (GetDebugInfo o r rocketID).2 ↔ is_Some (pending_of r rocketID !! n)) ∧
  (∀ r0 rocket, GetRocket r0 rocketID = Some rocket →
     debug_rocket o r0 r rocketID =
       Some {| RocketID := rocketID;
               ProcessedMessageCount := Z.of_nat (size (processed_of r rocketID));
               PendingMessageCount := Z.of_nat (size (pending_of r rocketID));
               PendingMessageNumbers := (GetDebugInfo o r rocketID).2;
               LastProcessedMessage := LastProcessedMessageNumber rocket |}) ∧
  (processedMessages r !! rocketID = None → pendingMessages r !! rocketID = None →
     GetDebugInfo o r rocketID = (0, [])).
Proof.
  assert (Hperm : (GetDebugInfo o r rocketID).2 ≡ₚ (map_to_list (pending_of r rocketID)).*1)
    by apply visit_perm.
  split; [done|]. split; [done|]. split; [|split; [|split]].
  - rewrite Hperm. apply NoDup_fst_map_to_list.
  - intros n. rewrite Hperm, list_elem_of_fmap. split.
    + intros ([k m] & -> & Hin). apply elem_of_map_to_list in Hin. simpl. eauto.
    + intros [m Hm]. exists (n, m). split; [done|]. by apply elem_of_map_to_list.
  - intros r0 rocket Hrk. unfold debug_rocket. rewrite Hrk. simpl. do 2 f_equal.
    rewrite (Permutation_length (visit_perm o _ _)).
    by rewrite length_fmap, length_map_to_list.
  - intros Hp Hq. unfold GetDebugInfo, processed_of, pending_of. rewrite Hp, Hq. simpl.
    by rewrite map_size_empty, map_to_list_empty, visit_nil.
Qed.

Lemma C7_diagnostics_witness :
  debug_rocket order_as_stored three_pending three_pending "R" =
    Some {| RocketID := "R"; ProcessedMessageCount := 1; PendingMessageCount := 2;
            PendingMessageNumbers := [5; 3]; LastProcessedMessage := 1 |} ∧
  GetDebugInfo order_as_stored three_pending "unknown" = (0, []).
Proof.
  set (rocket := advance (mkRocket "R" "Falcon-9" 500 "ARTEMIS" false "" 10 0 0) 1 10).
  assert (Hrk : GetRocket three_pending "R" = Some rocket) by (vm_compute; reflexivity).
  assert (Hp : processedMessages three_pending !! "unknown" = None)
    by (vm_compute; reflexivity).
  assert (Hq : pendingMessages three_pending !! "unknown" = None)
    by (vm_compute; reflexivity).
  split.
  - rewrite (proj1 (proj2 (proj2 (proj2 (proj2
               (C7_diagnostics order_as_stored three_pending "R"))))) three_pending
               rocket Hrk).
    vm_compute. reflexivity.
  - exact (proj2 (proj2 (proj2 (proj2 (proj2
               (C7_diagnostics order_as_stored three_pending "unknown"))))) Hp Hq).
Defined.

(** ** When the rocket record appears *)


Lemma processPendingMessages_rockets r c d :
  is_Some (rockets (processPendingMessages r c) !! d) ↔ is_Some (rockets r !! d).
Proof.
  unfold processPendingMessages. destruct (rockets r !! c) as [rk|] eqn:Hc; [|done].
  destruct (pending_loop _ c r rk) as [r' rk'] eqn:Hloop.
  apply pending_loop_frame in Hloop as (Hr & _). simpl. rewrite Hr.
  rewrite lookup_insert_is_Some'. split; [|auto].
  intros [<-|]; [|done]. rewrite Hc. eauto.
Qed.

Lemma process_in_sequence_rockets r rk msg d :
  is_Some (rockets r !! GetChannel msg) →
  is_Some (rockets (process_in_sequence r rk msg).1 !! d) ↔ is_Some (rockets r !! d).
Proof.
  intros Hc. unfold process_in_sequence.
  assert (Hins : ∀ x, is_Some (<[GetChannel msg := x]> (rockets r) !! d)
                      ↔ is_Some (rockets r !! d)).
  { intros x. rewrite lookup_insert_is_Some'. split; [|auto]. by intros [<-|]. }
  destruct (_ =? _).
  - destruct (processMessageByType r rk msg) as [[r1 rk1] ok] eqn:Hby.
    apply processMessageByType_frame in Hby as (Hr1 & _).
    destruct ok; simpl.
    + rewrite processPendingMessages_rockets. simpl. rewrite Hr1. apply Hins.
    + rewrite Hr1. apply Hins.
  - by destruct (_ >? _).
Qed.

(** The rocket map grows by the channel of a launch message that is not an
    already processed number, and by nothing else. *)
Lemma ProcessMessage_rockets r msg d :
  is_Some (rockets (ProcessMessage r msg).1 !! d) ↔
  is_Some (rockets r !! d) ∨
  (d = GetChannel msg ∧ is_launch msg = true ∧
   is_processed r (GetChannel msg) (GetMessageNumber msg) = false).
Proof.
  unfold ProcessMessage. rewrite is_processed_init_maps.
  destruct (is_processed r _ _) eqn:Hdup; simpl.
  { split; [auto|]. by intros [?|(_ & _ & ?)]. }
  change (rockets (init_maps r (GetChannel msg))) with (rockets r).
  destruct (rockets r !! GetChannel msg) as [rk|] eqn:Hc.
  - rewrite process_in_sequence_rockets by (simpl; rewrite Hc; eauto). simpl.
    split; [auto|]. intros [?|(-> & _)]; [done|]. rewrite Hc; eauto.
  - destruct (is_launch msg) eqn:Hl; simpl.
    + rewrite process_in_sequence_rockets by (simpl; rewrite lookup_insert_eq; eauto).
      simpl. rewrite lookup_insert_is_Some'. split.
      * intros [<-|]; auto.
      * intros [?|(-> & _)]; auto.
    + split; [auto|]. by intros [?|(_ & ? & _)].
Qed.

(** ** What a call does to the other channels *)

Lemma pending_loop_pending fuel c r rk r' rk' :
  pending_loop fuel c r rk = (r', rk') →
  ∀ d, pending_of r' d ⊆ pending_of r d.
Proof.
  revert fuel c r rk r' rk'.
  refine (pending_loop_ind (λ c r rk r' rk', ∀ d, pending_of r' d ⊆ pending_of r d) _ _ _ _).
  - done.
  - intros c r rk msg r' rk' _ _ IH d. etrans; [apply IH|].
    rewrite pending_of_delete_pending. case_decide; subst; [apply delete_subseteq|done].
  - intros c r rk msg r1 rk1 r' rk' _ _ Hby IH d. etrans; [apply IH|].
    rewrite pending_of_delete_pending.
    change (pending_of (set_processed r1 c ?n) ?e) with (pending_of r1 e).
    etrans; [|apply (processMessageByType_pending _ _ _ _ _ _ d Hby)].
    case_decide; subst; [apply delete_subseteq|done].
  - intros c r rk msg _ _ _ d.
    rewrite pending_of_delete_pending. case_decide; subst; [apply delete_subseteq|done].
Qed.

(** A call changes neither the rocket nor the processed numbers of another
    channel, and adds nothing to its pending buffer. *)
Lemma ProcessMessage_other r msg d :
  d ≠ GetChannel msg →
  rockets (ProcessMessage r msg).1 !! d = rockets r !! d ∧
  processed_of (ProcessMessage r msg).1 d = processed_of r d ∧
  pending_of (ProcessMessage r msg).1 d ⊆ pending_of r d.
Proof.
  intros Hd. set (c := GetChannel msg) in *.
  assert (Hseq : ∀ r0 rk,
    rockets (process_in_sequence r0 rk msg).1 !! d = rockets r0 !! d ∧
    processed_of (process_in_sequence r0 rk msg).1 d = processed_of r0 d ∧
    pending_of (process_in_sequence r0 rk msg).1 d ⊆ pending_of r0 d).
  { intros r0 rk. unfold process_in_sequence. fold c.
    destruct (_ =? _).
    - destruct (processMessageByType r0 rk msg) as [[r1 rk1] ok] eqn:Hby.
      pose proof (processMessageByType_pending _ _ _ _ _ _ d Hby) as Hsub.
      apply processMessageByType_frame in Hby as (Hr1 & Hp1 & _).
      destruct ok; simpl.
      + edestruct (processPendingMessages_unfold
                     (set_rocket (set_processed r1 c (GetMessageNumber msg)) c
                        (advance rk1 (GetMessageNumber msg) (GetMessageTime msg))) c)
          as (r' & rk' & Hloop & ->); [apply lookup_insert_eq|].
        pose proof (pending_loop_pending _ _ _ _ _ _ Hloop d) as Hsub'.
        apply pending_loop_frame in Hloop as (Hr & _ & _ & _ & _ & Ho).
        simpl. rewrite Hr. simpl. rewrite !lookup_insert_ne, Hr1 by done.
        split; [done|]. split.
        * change (processed_of (set_rocket r' c rk') d) with (processed_of r' d).
          rewrite Ho by done.
          change (processed_of (set_rocket ?a c ?b) d) with (processed_of a d).
          rewrite processed_of_set_processed, decide_False by done.
          unfold processed_of. by rewrite Hp1.
        * etrans; [apply Hsub'|]. apply Hsub.
      + rewrite lookup_insert_ne, Hr1 by done. split; [done|]. split; [|done].
        change (processed_of (set_rocket r1 c rk1) d) with (processed_of r1 d).
        unfold processed_of. by rewrite Hp1.
    - destruct (_ >? _); simpl; [|done].
      split; [done|]. split; [done|].
      rewrite pending_of_set_pending, decide_False by done. done. }
  unfold ProcessMessage. fold c.
  destruct (is_processed _ c _); simpl.
  { by rewrite processed_of_init_maps, pending_of_init_maps. }
  change (rockets (init_maps r c)) with (rockets r).
  destruct (rockets r !! c) as [rk|] eqn:Hc.
  - destruct (Hseq (init_maps r c) rk) as (H1 & H2 & H3).
    rewrite H1, H2. rewrite processed_of_init_maps. split; [done|]. split; [done|].
    etrans; [apply H3|]. by rewrite pending_of_init_maps.
  - destruct (is_launch msg); simpl.
    + destruct (Hseq (set_rocket (init_maps r c) c (new_rocket c)) (new_rocket c))
        as (H1 & H2 & H3).
      rewrite H1, H2. simpl. rewrite lookup_insert_ne by done.
      change (processed_of (set_rocket ?a c ?b) d) with (processed_of a d).
      rewrite processed_of_init_maps. split; [done|]. split; [done|].
      etrans; [apply H3|].
      change (pending_of (set_rocket ?a c ?b) d) with (pending_of a d).
      by rewrite pending_of_init_maps.
    + rewrite pending_of_set_pending, decide_False by done.
      change (processed_of (set_pending ?a c ?n ?m) d) with (processed_of a d).
      by rewrite processed_of_init_maps, pending_of_init_maps.
Qed.

Lemma unborn_clean_new : unborn_clean NewRocketRepository.
Proof. intros c _. unfold processed_of. simpl. by rewrite lookup_empty. Qed.

Lemma unborn_clean_step r msg :
  unborn_clean r → unborn_clean (ProcessMessage r msg).1.
Proof.
  intros Hr d Hnone.
  assert (rockets r !! d = None) as Hd.
  { apply eq_None_not_Some. intros Hs. apply eq_None_not_Some in Hnone. apply Hnone.
    apply ProcessMessage_rockets. by left. }
  destruct (decide (d = GetChannel msg)) as [->|Hne].
  - assert (¬ (is_launch msg = true ∧
               is_processed r (GetChannel msg) (GetMessageNumber msg) = false)) as Hnot.
    { intros [Hl Hp]. apply eq_None_not_Some in Hnone. apply Hnone.
      apply ProcessMessage_rockets. right. done. }
    assert (is_processed r (GetChannel msg) (GetMessageNumber msg) = false) as Hp.
    { unfold is_processed. by rewrite (Hr _ Hd), lookup_empty. }
    assert (is_launch msg = false) as Hl.
    { destruct (is_launch msg); [|done]. by destruct Hnot. }
    unfold ProcessMessage. rewrite is_processed_init_maps, Hp.
    change (rockets (init_maps r ?c)) with (rockets r). rewrite Hd, Hl. simpl.
    change (processed_of (set_pending ?a ?c ?n ?m) ?e) with (processed_of a e).
    rewrite processed_of_init_maps. by apply Hr.
  - destruct (ProcessMessage_other r msg d Hne) as (_ & -> & _). by apply Hr.
Qed.

Lemma unborn_clean_run msgs r : unborn_clean r → unborn_clean (ingest_all r msgs).
Proof.
  revert r. induction msgs as [|msg msgs IH]; intros r Hr; [done|].
  simpl. apply IH. by apply unborn_clean_step.
Qed.

Lemma ingest_all_rockets msgs r c :
  unborn_clean r →
  is_Some (rockets (ingest_all r msgs) !! c) ↔
  is_Some (rockets r !! c) ∨
  ∃ msg, msg ∈ msgs ∧ GetChannel msg = c ∧ is_launch msg = true.
Proof.
  revert r. induction msgs as [|msg msgs IH]; intros r Hr; simpl.
  - split; [auto|]. intros [?|(msg & Hin & _)]; [done|]. by apply elem_of_nil in Hin.
  - rewrite IH by (by apply unborn_clean_step). rewrite ProcessMessage_rockets. split.
    + intros [[?|(-> & Hl & _)]|(m & Hin & Hm)]; [by left| |].
      * right. exists msg. split; [apply list_elem_of_here|done].
      * right. exists m. split; [by apply list_elem_of_further|done].
    + intros [?|(m & Hin & <- & Hl)]; [by left; left|].
      apply elem_of_cons in Hin as [->|Hin].
      * destruct (rockets r !! GetChannel msg) as [rk|] eqn:Hc; [left; left; eauto|].
        left. right. split; [done|]. split; [done|].
        unfold is_processed. by rewrite (Hr _ Hc), lookup_empty.
      * right. exists m. done.
Qed.

(** ** Ingesting the same message twice *)

(** C4, as stated, fails: a message that is rejected is rejected both
    times; here a first launch without a type. *)
Lemma C4_rejected_twice :
  let msg := launch "R" 1 10 "" "ARTEMIS" 500 in
  let r1 := (ProcessMessage NewRocketRepository msg).1 in
  ¬ ((ProcessMessage NewRocketRepository msg).2 = true ∧
     (ProcessMessage r1 msg).2 = true).
Proof. vm_compute. intros [[=] _]. Qed.

Lemma set_pending_idem r c n msg :
  set_pending (set_pending r c n msg) c n msg = set_pending r c n msg.
Proof.
  unfold set_pending at 1 3. f_equal.
  rewrite pending_of_set_pending, decide_True by done. simpl.
  by rewrite !insert_insert_eq.
Qed.

Lemma process_in_sequence_again r rk msg :
  let c := GetChannel msg in
  rockets r !! c = Some rk →
  is_Some (processedMessages r !! c) → is_Some (pendingMessages r !! c) →
  is_processed r c (GetMessageNumber msg) = false →
  ProcessMessage (process_in_sequence r rk msg).1 msg = process_in_sequence r rk msg.
Proof.
  intros c Hrk Hp Hq Hdup.
  assert (Hsame : ProcessMessage r msg = process_in_sequence r rk msg).
  { unfold ProcessMessage. fold c. rewrite init_maps_done by done. by rewrite Hdup, Hrk. }
  unfold process_in_sequence. fold c.
  destruct (_ =? _) eqn:Hexp.
  - destruct (processMessageByType r rk msg) as [[r1 rk1] ok] eqn:Hby. destruct ok.
    + apply processMessageByType_frame in Hby as (Hr1 & Hp1 & Hq1 & _).
      edestruct (processPendingMessages_unfold
                   (set_rocket (set_processed r1 c (GetMessageNumber msg)) c
                      (advance rk1 (GetMessageNumber msg) (GetMessageTime msg))) c)
        as (r' & rk' & Hloop & ->); [apply lookup_insert_eq|].
      apply pending_loop_frame in Hloop as (_ & _ & Hp' & Hq' & Hd' & _).
      simpl. unfold ProcessMessage. fold c.
      rewrite init_maps_done.
      * change (is_processed (set_rocket r' c rk') c ?n) with (is_processed r' c n).
        rewrite Hd'; [done|].
        change (is_processed (set_rocket ?a c ?b) c ?n) with (is_processed a c n).
        rewrite is_processed_set_processed. by rewrite decide_True.
      * apply Hp'. simpl. rewrite lookup_insert_eq. eauto.
      * apply Hq'. simpl.
        destruct Hq1 as [->| ->]; [done|]. simpl. by rewrite lookup_alter_is_Some.
    + apply processMessageByType_rejects in Hby as Hrej. destruct Hrej as [-> ->].
      simpl. rewrite set_rocket_same by done. rewrite Hsame.
      unfold process_in_sequence. fold c. rewrite Hexp, Hby.
      by rewrite set_rocket_same.
  - destruct (_ >? _) eqn:Hgt; simpl.
    + unfold ProcessMessage. fold c. rewrite init_maps_done.
      * change (is_processed (set_pending ?a c ?n ?m) c ?k) with (is_processed a c k).
        rewrite Hdup. simpl. rewrite Hrk. unfold process_in_sequence. fold c.
        rewrite Hexp, Hgt. by rewrite set_pending_idem.
      * done.
      * simpl. rewrite lookup_insert_eq. eauto.
    + rewrite Hsame. unfold process_in_sequence. fold c. by rewrite Hexp, Hgt.
Qed.

(** C4, amended: ingesting a message a second time right after the first
    leaves the repository exactly as the first call left it and returns
    what the first call returned: true when the first call applied or
    buffered the message, false when it rejected it. *)
Theorem C4_ingest_twice r msg :
  ProcessMessage (ProcessMessage r msg).1 msg = ProcessMessage r msg.
Proof.
  set (c := GetChannel msg).
  unfold ProcessMessage at 2 3. fold c.
  destruct (is_processed (init_maps r c) c _) eqn:Hdup.
  - simpl. unfold ProcessMessage. fold c. by rewrite init_maps_idemp, Hdup.
  - destruct (rockets (init_maps r c) !! c) as [rk|] eqn:Hrk.
    + apply process_in_sequence_again; fold c;
        auto using init_maps_has_processed, init_maps_has_pending.
    + destruct (is_launch msg) eqn:Hl; simpl.
      * apply process_in_sequence_again; fold c; simpl.
        -- apply lookup_insert_eq.
        -- apply init_maps_has_processed.
        -- apply init_maps_has_pending.
        -- done.
      * unfold ProcessMessage. fold c. rewrite init_maps_done.
        -- change (is_processed (set_pending ?a c ?n ?m) c ?k) with (is_processed a c k).
           rewrite Hdup. simpl in *. rewrite Hrk, Hl. simpl. by rewrite set_pending_idem.
        -- simpl. apply init_maps_has_processed.
        -- simpl. rewrite lookup_insert_eq. eauto.
Qed.

(** ** The cursor, the processed numbers and the pending buffer *)

(** C2, as stated, fails: a message that is not a launch and arrives before
    the rocket exists is buffered under its own number whatever that number
    is; here number 1, which the launch then takes.  The entry stays in the
    pending buffer, at a key that is not above the cursor and that is also a
    processed number. *)
Lemma C2_stale_pending_entry :
  let r := ingest_all NewRocketRepository
             [speed_up "R" 1 10 50; launch "R" 1 11 "Falcon-9" "ARTEMIS" 500] in
  ¬ ((∀ rk k, GetRocket r "R" = Some rk → is_Some (pending_of r "R" !! k) →
              LastProcessedMessageNumber rk < k) ∧
     (∀ k, is_processed r "R" k = true → pending_of r "R" !! k = None)).
Proof.
  intros r [_ Hdisj]. specialize (Hdisj 1).
  assert (is_processed r "R" 1 = true) as Hp by (vm_compute; reflexivity).
  apply Hdisj in Hp. vm_compute in Hp. discriminate.
Qed.

Lemma add_one_exact (n : Z) : 0 <= n < GoInt.max_int → GoInt.add n 1 = n + 1.
Proof.
  intros Hn. apply wrap_id. unfold GoInt.in_range, GoInt.min_int, GoInt.max_int in *.
  simpl in *. lia.
Qed.

Lemma behind_shrink strict slack rk proc pend pend' :
  pend' ⊆ pend → behind strict slack rk proc pend → behind strict slack rk proc pend'.
Proof.
  intros Hsub (H1 & H2 & H3). split; [done|]. split; [|done].
  intros k [m Hk]. apply H2. exists m. by eapply lookup_weaken.
Qed.

Lemma is_Some_delete {A} (m : gmap Z A) (i k : Z) :
  is_Some (delete i m !! k) → k ≠ i ∧ is_Some (m !! k).
Proof. rewrite lookup_delete_is_Some. intros [Hne Hk]. split; [congruence|done]. Qed.

Lemma pending_loop_behind strict fuel c r rk r' rk' :
  pending_loop fuel c r rk = (r', rk') →
  behind strict 0 rk (processed_of r c) (pending_of r c) →
  behind strict 0 rk' (processed_of r' c) (pending_of r' c).
Proof.
  revert fuel c r rk r' rk'.
  refine (pending_loop_ind (λ c r rk r' rk',
            behind strict 0 rk (processed_of r c) (pending_of r c) →
            behind strict 0 rk' (processed_of r' c) (pending_of r' c)) _ _ _ _).
  - done.
  - intros c r rk msg r' rk' _ _ IH Hb. apply IH.
    rewrite pending_of_delete_pending, decide_True by done.
    eapply behind_shrink; [apply delete_subseteq|done].
  - intros c r rk msg r1 rk1 r' rk' Hnext _ Hby IH (Hl & Hpend & Hproc). apply IH.
    pose proof (processMessageByType_pending _ _ _ _ _ _ c Hby) as Hsub.
    apply processMessageByType_frame in Hby as (_ & Hp1 & _ & _ & Hlast).
    rewrite add_one_exact in * by done.
    destruct (Hpend (LastProcessedMessageNumber rk + 1)) as [_ Hmax]; [eauto|].
    rewrite pending_of_delete_pending, decide_True by done.
    change (pending_of (set_processed r1 c ?n) c) with (pending_of r1 c).
    change (processed_of (delete_pending ?a c ?n) c) with (processed_of a c).
    rewrite processed_of_set_processed, decide_True by done.
    split; [simpl; lia|]. split; simpl.
    + intros k [Hne Hk]%is_Some_delete.
      destruct Hk as [m Hk]. eapply lookup_weaken in Hk; [|apply Hsub].
      destruct (Hpend k) as [Hlow ?]; [eauto|]. split; [|done].
      intros Hs. specialize (Hlow Hs). lia.
    + intros k. rewrite lookup_insert_is_Some'. intros [<-|Hk]; [lia|].
      unfold processed_of in Hk. rewrite Hp1 in Hk. apply Hproc in Hk. lia.
  - intros c r rk msg _ _ _ Hb.
    rewrite pending_of_delete_pending, decide_True by done.
    eapply behind_shrink; [apply delete_subseteq|done].
Qed.

Lemma process_in_sequence_behind strict r rk msg :
  let c := GetChannel msg in
  rockets r !! c = Some rk →
  GetMessageNumber msg < GoInt.max_int →
  behind strict 1 rk (processed_of r c) (pending_of r c) →
  ∃ rk', rockets (process_in_sequence r rk msg).1 !! c = Some rk' ∧
         behind strict 1 rk' (processed_of (process_in_sequence r rk msg).1 c)
                             (pending_of (process_in_sequence r rk msg).1 c).
Proof.
  intros c Hrk Hmax Hb. pose proof Hb as (Hl & Hpend & Hproc).
  unfold process_in_sequence. fold c. rewrite add_one_exact by done.
  destruct (Z.eqb_spec (GetMessageNumber msg) (LastProcessedMessageNumber rk + 1))
    as [Hn|Hn].
  - destruct (processMessageByType r rk msg) as [[r1 rk1] ok] eqn:Hby. destruct ok.
    + pose proof (processMessageByType_pending _ _ _ _ _ _ c Hby) as Hsub.
      apply processMessageByType_frame in Hby as (_ & Hp1 & _ & _ & Hlast).
      edestruct (processPendingMessages_unfold
                   (set_rocket (set_processed r1 c (GetMessageNumber msg)) c
                      (advance rk1 (GetMessageNumber msg) (GetMessageTime msg))) c)
        as (r' & rk' & Hloop & ->); [apply lookup_insert_eq|].
      exists rk'. simpl. rewrite lookup_insert_eq. split; [done|].
      change (processed_of (set_rocket r' c rk') c) with (processed_of r' c).
      change (pending_of (set_rocket r' c rk') c) with (pending_of r' c).
      pose proof (pending_loop_exit _ _ _ _ _ _ ltac:(apply Nat.lt_succ_diag_r) Hloop)
        as Hexit.
      apply (pending_loop_behind strict) in Hloop as (Hl' & Hpend' & Hproc').
      * rewrite add_one_exact in Hexit by done.
        split; [done|]. split; [|done].
        intros k Hk. destruct (Hpend' k Hk) as [Hlow ?]. split; [|done].
        intros Hs. specialize (Hlow Hs).
        assert (k ≠ LastProcessedMessageNumber rk' + 1).
        { intros ->. rewrite Hexit in Hk. by destruct Hk. }
        lia.
      * change (pending_of (set_rocket (set_processed r1 c ?n) c ?b) c)
          with (pending_of r1 c).
        change (processed_of (set_rocket ?a c ?b) c) with (processed_of a c).
        rewrite processed_of_set_processed, decide_True by done.
        split; [simpl; lia|]. split; simpl.
        -- intros k [m Hk]. eapply lookup_weaken in Hk; [|apply Hsub].
           destruct (Hpend k) as [Hlow ?]; [eauto|]. split; [|done].
           intros Hs. specialize (Hlow Hs). lia.
        -- intros k. rewrite lookup_insert_is_Some'. intros [<-|Hk]; [lia|].
           unfold processed_of in Hk. rewrite Hp1 in Hk. apply Hproc in Hk. lia.
    + apply processMessageByType_rejects in Hby as [-> ->].
      rewrite set_rocket_same by done. simpl. eauto.
  - destruct (Z.gtb_spec (GetMessageNumber msg) (LastProcessedMessageNumber rk + 1))
      as [Hgt|Hle]; simpl; [|eauto].
    exists rk. split; [done|].
    rewrite pending_of_set_pending, decide_True by done.
    change (processed_of (set_pending ?a c ?n ?m) c) with (processed_of a c).
    split; [done|]. split; [|done].
    intros k. rewrite lookup_insert_is_Some'. intros [<-|Hk]; [|by apply Hpend].
    split; [intros _; lia|done].
Qed.

(** The invariant is kept by every call on a message numbered below the
    largest [int]; the strict one, by every such call that does not go
    through the buffering of a message that is not a launch on a channel
    without rocket. *)
Lemma cursor_inv_step strict r msg :
  cursor_inv strict r →
  GetMessageNumber msg < GoInt.max_int →
  (strict = true → is_launch msg = true ∨ is_Some (rockets r !! GetChannel msg)) →
  cursor_inv strict (ProcessMessage r msg).1.
Proof.
  intros Hinv Hmax Hborn d. specialize (Hinv d).
  destruct (decide (d = GetChannel msg)) as [->|Hne].
  - unfold ProcessMessage.
    destruct (is_processed _ (GetChannel msg) _); simpl.
    { by rewrite processed_of_init_maps, pending_of_init_maps. }
    destruct (rockets r !! GetChannel msg) as [rk|] eqn:Hc.
    + destruct (process_in_sequence_behind strict (init_maps r (GetChannel msg)) rk msg)
        as (rk' & -> & Hb'); [done|done| |done].
      by rewrite processed_of_init_maps, pending_of_init_maps.
    + destruct Hinv as (Hempty & Hkeys & Hproc).
      destruct (is_launch msg) eqn:Hl; simpl.
      * destruct (process_in_sequence_behind strict
                    (set_rocket (init_maps r (GetChannel msg)) (GetChannel msg)
                       (new_rocket (GetChannel msg)))
                    (new_rocket (GetChannel msg)) msg)
          as (rk' & -> & Hb'); [apply lookup_insert_eq|done| |done].
        change (processed_of (set_rocket ?a ?c ?b) ?d) with (processed_of a d).
        change (pending_of (set_rocket ?a ?c ?b) ?d) with (pending_of a d).
        rewrite processed_of_init_maps, pending_of_init_maps, Hproc.
        split; [vm_compute; split; [discriminate|done]|]. split.
        -- intros k Hk. split; [|by apply Hkeys].
           intros Hs. rewrite (Hempty Hs), lookup_empty in Hk. by destruct Hk.
        -- intros k. rewrite lookup_empty. by intros [? [=]].
      * rewrite Hc. rewrite pending_of_set_pending, decide_True by done.
        change (processed_of (set_pending ?a ?c ?n ?m) ?d) with (processed_of a d).
        rewrite processed_of_init_maps, pending_of_init_maps.
        split; [|split; [|done]].
        -- intros Hs. destruct (Hborn Hs) as [[=]|[? [=]]].
        -- intros k. rewrite lookup_insert_is_Some'. intros [<-|Hk]; [done|].
           by apply Hkeys.
  - destruct (ProcessMessage_other r msg d Hne) as (-> & -> & Hsub).
    destruct (rockets r !! d) as [rk|].
    + by eapply behind_shrink.
    + destruct Hinv as (Hempty & Hkeys & ->). split; [|split; [|done]].
      * intros Hs. rewrite (Hempty Hs) in Hsub. apply map_eq. intros k.
        rewrite lookup_empty.
        destruct (pending_of _ d !! k) eqn:Hk; [|done].
        eapply lookup_weaken in Hk; [|apply Hsub]. by rewrite lookup_empty in Hk.
      * intros k [m Hk]. apply Hkeys. exists m. by eapply lookup_weaken.
Qed.

Lemma cursor_inv_new strict : cursor_inv strict NewRocketRepository.
Proof.
  intros c. simpl. rewrite lookup_empty. unfold pending_of, processed_of. simpl.
  rewrite !lookup_empty. simpl. split; [done|]. split; [|done].
  intros k. rewrite lookup_empty. by intros [? [=]].
Qed.

(** Whatever the arrival order, in a state reached from the empty
    repository by messages numbered below the largest [int], the processed
    numbers of a channel are behind its cursor.  So the number expected
    next, and every number beyond it, is not an already processed one, and a
    channel without a rocket has no processed number at all. *)
Lemma reachable_processed_behind_cursor msgs :
  Forall (λ msg, GetMessageNumber msg < GoInt.max_int) msgs →
  let r := ingest_all NewRocketRepository msgs in
  ∀ c n,
    match rockets r !! c with
    | None => is_processed r c n = false
    | Some rk =>
      GoInt.add (LastProcessedMessageNumber rk) 1 = LastProcessedMessageNumber rk + 1 ∧
      (LastProcessedMessageNumber rk < n → is_processed r c n = false)
    end.
Proof.
  intros Hmax r.
  assert (Hinv : cursor_inv false r).
  { subst r. generalize (cursor_inv_new false). generalize NewRocketRepository.
    induction msgs as [|msg msgs IH]; intros r0 Hr0; [done|].
    apply Forall_cons in Hmax as [Hmsg Hmax]. simpl. apply IH; [done|].
    by apply cursor_inv_step. }
  intros c n. specialize (Hinv c). unfold is_processed.
  destruct (rockets r !! c) as [rk|].
  - destruct Hinv as (Hl & _ & Hproc). split; [by apply add_one_exact|].
    intros Hlt. destruct (processed_of r c !! n) eqn:Hn; [|done].
    specialize (Hproc n ltac:(eauto)). lia.
  - destruct Hinv as (_ & _ & ->). by rewrite lookup_empty.
Qed.

(** The invariant is kept by every call on a message numbered below the
    largest [int] that is a launch, or finds the rocket of its channel, or
    is numbered 2 or more. *)
Lemma gate_inv_step r msg :
  gate_inv r →
  GetMessageNumber msg < GoInt.max_int →
  is_launch msg = true ∨ is_Some (rockets r !! GetChannel msg) ∨ 2 <= GetMessageNumber msg →
  gate_inv (ProcessMessage r msg).1.
Proof.
  intros Hinv Hmax Hgate d. specialize (Hinv d).
  destruct (decide (d = GetChannel msg)) as [->|Hne].
  - unfold ProcessMessage.
    destruct (is_processed _ (GetChannel msg) _); simpl.
    { by rewrite processed_of_init_maps, pending_of_init_maps. }
    destruct (rockets r !! GetChannel msg) as [rk|] eqn:Hc.
    + destruct (process_in_sequence_behind true (init_maps r (GetChannel msg)) rk msg)
        as (rk' & -> & Hb'); [done|done| |done].
      by rewrite processed_of_init_maps, pending_of_init_maps.
    + destruct Hinv as (Hkeys & Hproc).
      destruct (is_launch msg) eqn:Hl; simpl.
      * destruct (process_in_sequence_behind true
                    (set_rocket (init_maps r (GetChannel msg)) (GetChannel msg)
                       (new_rocket (GetChannel msg)))
                    (new_rocket (GetChannel msg)) msg)
          as (rk' & -> & Hb'); [apply lookup_insert_eq|done| |done].
        change (processed_of (set_rocket ?a ?c ?b) ?d) with (processed_of a d).
        change (pending_of (set_rocket ?a ?c ?b) ?d) with (pending_of a d).
        rewrite processed_of_init_maps, pending_of_init_maps, Hproc.
        split; [vm_compute; split; [discriminate|done]|]. split.
        -- intros k Hk. destruct (Hkeys k Hk). split; [intros _; simpl; lia|lia].
        -- intros k. rewrite lookup_empty. by intros [? [=]].
      * rewrite Hc. rewrite pending_of_set_pending, decide_True by done.
        change (processed_of (set_pending ?a ?c ?n ?m) ?d) with (processed_of a d).
        rewrite processed_of_init_maps, pending_of_init_maps.
        split; [|done].
        intros k. rewrite lookup_insert_is_Some'. intros [<-|Hk]; [|by apply Hkeys].
        destruct Hgate as [[=]|[[? [=]]|?]]. lia.
  - destruct (ProcessMessage_other r msg d Hne) as (-> & -> & Hsub).
    destruct (rockets r !! d) as [rk|].
    + by eapply behind_shrink.
    + destruct Hinv as (Hkeys & ->). split; [|done].
      intros k [m Hk]. apply Hkeys. exists m. by eapply lookup_weaken.
Qed.

Lemma gate_inv_new : gate_inv NewRocketRepository.
Proof.
  intros c. simpl. rewrite lookup_empty. unfold pending_of, processed_of. simpl.
  rewrite !lookup_empty. simpl. split; [|done].
  intros k. rewrite lookup_empty. by intros [? [=]].
Qed.

Lemma gate_inv_run msgs born r :
  gate_inv r →
  (∀ c, In c born → is_Some (rockets r !! c)) →
  gate_clear born msgs = true →
  Forall (λ msg, GetMessageNumber msg < GoInt.max_int) msgs →
  gate_inv (ingest_all r msgs).
Proof.
  revert born r. induction msgs as [|msg msgs IH]; intros born r Hinv Hborn Hgc Hmax; [done|].
  simpl in Hgc. apply andb_prop in Hgc as [Hfirst Hrest].
  apply Forall_cons in Hmax as [Hmsg Hmax].
  simpl. eapply IH; [| |exact Hrest|exact Hmax].
  - apply gate_inv_step; [done|done|].
    apply orb_prop in Hfirst as [Hfirst|Hnum]; [|right; right; lia].
    apply orb_prop in Hfirst as [?|Hex]; [by left|right; left].
    apply existsb_exists in Hex as (c & Hin & Heq). apply String.eqb_eq in Heq as ->.
    by apply Hborn.
  - intros c Hin. apply ProcessMessage_rockets.
    destruct (is_launch msg) eqn:Hl; [|left; by apply Hborn].
    destruct Hin as [<-|Hin]; [|left; by apply Hborn].
    destruct (is_processed r (GetChannel msg) (GetMessageNumber msg)) eqn:Hdup; [|by right].
    left. specialize (Hinv (GetChannel msg)).
    destruct (rockets r !! GetChannel msg); [eauto|].
    destruct Hinv as (_ & Hp). unfold is_processed in Hdup.
    by rewrite Hp, lookup_empty in Hdup.
Qed.

(** The sequences in which every message is numbered 1 or more and every
    message numbered 1 is a launch are among them, whatever the order of
    arrival. *)
Lemma gate_clear_numbered born msgs :
  Forall (λ msg, 1 <= GetMessageNumber msg ∧
                 (GetMessageNumber msg = 1 → is_launch msg = true)) msgs →
  gate_clear born msgs = true.
Proof.
  intros Hall. revert born. induction Hall as [|msg msgs [Hpos Hone] _ IH]; intros born; [done|].
  simpl. rewrite IH, andb_true_r.
  destruct (is_launch msg) eqn:Hl; [done|]. simpl.
  destruct (Z.leb_spec 2 (GetMessageNumber msg)); [by rewrite orb_true_r|].
  assert (GetMessageNumber msg = 1) as H1 by lia. specialize (Hone H1). congruence.
Qed.

(** The condition passes to the messages that have arrived so far. *)
Lemma gate_clear_take born msgs i :
  gate_clear born msgs = true → gate_clear born (take i msgs) = true.
Proof.
  revert born i. induction msgs as [|msg msgs IH]; intros born i; [by destruct i|].
  destruct i as [|i]; [done|]. simpl.
  intros [Hhead Hrest]%andb_true_iff. rewrite Hhead. simpl. by apply IH.
Qed.

(** C2, amended: start from the empty repository and ingest any sequence of
    messages, numbered below the largest [int], in which a message that is
    not a launch and arrives before any launch message of its channel is
    numbered 2 or more (so that nothing is buffered under a number below 2
    for a rocket that does not exist yet; the sequences whose numbers are 1
    or more and whose messages numbered 1 are launches are of this kind).
    Then after every call (after the first [i] messages, for every [i]),
    for every channel with a rocket: every key of the pending buffer is
    above the cursor plus one, no processed number is a pending key, and
    every processed number is between 1 and the cursor; and for a channel
    without a rocket no number is processed and the pending keys are 2 or
    more. *)
Theorem C2_cursor_pending_processed msgs i :
  gate_clear [] msgs = true →
  Forall (λ msg, GetMessageNumber msg < GoInt.max_int) msgs →
  let r := ingest_all NewRocketRepository (take i msgs) in
  (∀ c rk k, GetRocket r c = Some rk → is_Some (pending_of r c !! k) →
             LastProcessedMessageNumber rk + 1 < k) ∧
  (∀ c k, is_processed r c k = true → pending_of r c !! k = None) ∧
  (∀ c rk k, GetRocket r c = Some rk → is_processed r c k = true →
             1 <= k <= LastProcessedMessageNumber rk) ∧
  (∀ c k, GetRocket r c = None →
          is_processed r c k = false ∧ (is_Some (pending_of r c !! k) → 2 <= k)).
Proof.
  intros Hgc Hmax r.
  assert (Hinv : gate_inv r).
  { eapply gate_inv_run;
      [apply gate_inv_new| |by apply gate_clear_take|by apply Forall_take].
    by intros c []. }
  unfold GetRocket. split; [|split; [|split]].
  - intros c rk k Hrk Hk. specialize (Hinv c). rewrite Hrk in Hinv.
    destruct Hinv as (_ & Hpend & _). by apply Hpend.
  - intros c k Hk. specialize (Hinv c). unfold is_processed in Hk.
    destruct (processed_of r c !! k) as [b|] eqn:Hp; [|done].
    destruct (rockets r !! c) as [rk|].
    + destruct Hinv as (_ & Hpend & Hproc).
      destruct (pending_of r c !! k) eqn:Hq; [|done].
      destruct (Hpend k ltac:(eauto)) as [Hlow _]. specialize (Hlow eq_refl).
      specialize (Hproc k ltac:(eauto)). lia.
    + destruct Hinv as (_ & He). by rewrite He, lookup_empty in Hp.
  - intros c rk k Hrk Hk. specialize (Hinv c). rewrite Hrk in Hinv.
    destruct Hinv as (_ & _ & Hproc).
    unfold is_processed in Hk. destruct (processed_of r c !! k) eqn:Hp; [|done].
    apply Hproc. eauto.
  - intros c k Hc. specialize (Hinv c). rewrite Hc in Hinv. destruct Hinv as (Hkeys & He).
    split.
    + unfold is_processed. by rewrite He, lookup_empty.
    + intros Hk. by apply Hkeys.
Qed.

Lemma C2_cursor_pending_processed_witness :
  let r := ingest_all NewRocketRepository early_arrival in
  (∀ c rk k, GetRocket r c = Some rk → is_Some (pending_of r c !! k) →
             LastProcessedMessageNumber rk + 1 < k) ∧
  (∀ c k, is_processed r c k = true → pending_of r c !! k = None).
Proof.
  assert (Hgc : gate_clear [] early_arrival = true) by (vm_compute; reflexivity).
  assert (Hmax : Forall (λ msg, GetMessageNumber msg < GoInt.max_int) early_arrival).
  { repeat constructor. }
  pose proof (C2_cursor_pending_processed early_arrival 8 Hgc Hmax) as (H1 & H2 & _).
  split; [exact H1 | exact H2].
Defined.

(** ** The drain, without fuel *)

(** The loop body, once. *)
Lemma drain_unfold c r rk :
  drain c r rk =
    let nextMsgNumber := GoInt.add (LastProcessedMessageNumber rk) 1 in
    match pending_of r c !! nextMsgNumber with
    | None => (r, rk)
    | Some msg =>
      if Exploded rk && negb (is_launch msg) then
        drain c (delete_pending r c nextMsgNumber) rk
      else
        let '(r1, rk1, ok) := processMessageByType r rk msg in
        if ok then
          drain c (delete_pending (set_processed r1 c nextMsgNumber) c nextMsgNumber)
            (advance rk1 nextMsgNumber (GetMessageTime msg))
        else (delete_pending r1 c nextMsgNumber, rk1)
    end.
Proof.
  unfold drain at 1. rewrite pending_loop_S.
  destruct (pending_of r c !! _) as [msg|] eqn:Hnext; [|done].
  destruct (Exploded rk && negb (is_launch msg)).
  - pose proof (pending_shrinks r r c _ msg Hnext ltac:(done)).
    apply pending_loop_fuel; rewrite pending_of_delete_pending, decide_True by done; lia.
  - destruct (processMessageByType r rk msg) as [[r1 rk1] ok] eqn:Hp.
    destruct ok; [|done].
    pose proof (pending_shrinks r1 r c _ msg Hnext
                  (processMessageByType_pending _ _ _ _ _ _ c Hp)).
    apply pending_loop_fuel; rewrite pending_of_delete_pending, decide_True by done;
      change (pending_of (set_processed r1 c ?n) c) with (pending_of r1 c); lia.
Qed.

Lemma processPendingMessages_drain r c rk :
  rockets r !! c = Some rk →
  processPendingMessages r c = set_rocket (drain c r rk).1 c (drain c r rk).2.
Proof.
  intros Hc. unfold processPendingMessages, drain. rewrite Hc.
  by destruct (pending_loop _ c r rk).
Qed.

(** The rocket map of the repository is only carried along by the loop. *)
Lemma pending_loop_set_rocket fuel c r rk x :
  pending_loop fuel c (set_rocket r c x) rk =
    (set_rocket (pending_loop fuel c r rk).1 c x, (pending_loop fuel c r rk).2).
Proof.
  revert r rk. induction fuel as [|fuel IH]; intros r rk; [done|].
  rewrite !pending_loop_S.
  change (pending_of (set_rocket r c x) c) with (pending_of r c).
  destruct (pending_of r c !! _) as [msg|]; [|done].
  destruct (Exploded rk && negb (is_launch msg)).
  - apply (IH (delete_pending r c _)).
  - destruct (processMessageByType r rk msg) as [[r1 rk1] ok] eqn:Hby.
    assert (processMessageByType (set_rocket r c x) rk msg = (set_rocket r1 c x, rk1, ok))
      as ->.
    { unfold processMessageByType in *.
      repeat case_match; injection Hby as <- <- <-; done. }
    destruct ok; [|done].
    apply (IH (delete_pending (set_processed r1 c _) c _)).
Qed.

(** A processed number was processed before the loop or was pending. *)
Lemma pending_loop_processed fuel c r rk r' rk' :
  pending_loop fuel c r rk = (r', rk') →
  ∀ k, is_processed r' c k = true →
       is_processed r c k = true ∨ is_Some (pending_of r c !! k).
Proof.
  revert fuel c r rk r' rk'.
  refine (pending_loop_ind (λ c r rk r' rk', ∀ k, is_processed r' c k = true →
            is_processed r c k = true ∨ is_Some (pending_of r c !! k)) _ _ _ _).
  - auto.
  - intros c r rk msg r' rk' _ _ IH k Hk. destruct (IH k Hk) as [?|Hs]; [by left|].
    rewrite pending_of_delete_pending, decide_True in Hs by done.
    apply is_Some_delete in Hs as [_ ?]. by right.
  - intros c r rk msg r1 rk1 r' rk' Hnext _ Hby IH k Hk.
    pose proof (processMessageByType_pending _ _ _ _ _ _ c Hby) as Hsub.
    apply processMessageByType_frame in Hby as (_ & Hp1 & _).
    destruct (IH k Hk) as [Hp|Hs].
    + change (is_processed (delete_pending ?a c ?n) c k) with (is_processed a c k) in Hp.
      rewrite is_processed_set_processed in Hp. case_decide as Hd.
      * destruct Hd as [_ <-]. right. eauto.
      * left. unfold is_processed, processed_of in *. by rewrite <- Hp1.
    + rewrite pending_of_delete_pending, decide_True in Hs by done.
      apply is_Some_delete in Hs as [_ [m Hs]].
      change (pending_of (set_processed r1 c ?n) c) with (pending_of r1 c) in Hs.
      right. exists m. by eapply lookup_weaken.
  - auto.
Qed.

(** ** The speed *)

(** C8, as stated, fails: the sum of [RocketSpeedIncreased] is a machine
    addition.  Launched at the largest [int], the rocket gets the smallest
    one as its speed when the speed is increased by 1. *)
Lemma C8_speed_wraps_negative :
  let r := ingest_all NewRocketRepository
             [launch "R" 1 10 "Falcon-9" "ARTEMIS" 9223372036854775807;
              speed_up "R" 2 11 1] in
  ¬ (∀ rk, GetRocket r "R" = Some rk → 0 <= Speed rk).
Proof.
  intros r Hall.
  assert (Speed <$> GetRocket r "R" = Some (-9223372036854775808)) as Hs
    by (vm_compute; reflexivity).
  destruct (GetRocket r "R") as [rk|]; [|done].
  specialize (Hall rk eq_refl). simpl in Hs. injection Hs as Hs. lia.
Qed.

Section speed.
Variables B N : Z.
Hypothesis B_nonneg : 0 <= B.
Hypothesis N_small : 0 <= N < GoInt.max_int.
Hypothesis BN_small : B * N <= GoInt.max_int.

Lemma pending_ok_shrink pend pend' : pend' ⊆ pend → (pending_ok B N) pend → (pending_ok B N) pend'.
Proof. intros Hsub Hok k msg Hk. eapply Hok. by eapply lookup_weaken. Qed.

(** One accepted transition followed by the move of the cursor. *)
Lemma transition_speed_ok r rk msg r1 rk1 t :
  processMessageByType r rk msg = (r1, rk1, true) →
  (bounded B N) msg → (speed_ok B N) rk → LastProcessedMessageNumber rk + 1 <= N →
  (speed_ok B N) (advance rk1 (LastProcessedMessageNumber rk + 1) t).
Proof.
  intros Hby (_ & HB & Hls) ((Hl0 & HlN) & Hs0 & HsB) HN.
  assert (B <= GoInt.max_int) as HBmax by nia.
  assert (B * LastProcessedMessageNumber rk + B <= GoInt.max_int) as Hsum by nia.
  unfold speed_ok. simpl. split; [lia|].
  unfold processMessageByType in Hby. fold (is_launch msg) in Hby.
  assert (Hwrap : ∀ z, - GoInt.max_int <= z <= GoInt.max_int → GoInt.wrap z = z).
  { intros z Hz. apply wrap_id.
    unfold GoInt.in_range, GoInt.min_int, GoInt.max_int in *. simpl in *. lia. }
  repeat case_match; try discriminate; injection Hby as <- <-; simpl in *;
    try match goal with H : is_launch msg = true |- _ => specialize (Hls H) end;
    unfold GoInt.add, GoInt.sub in *;
    try rewrite Hwrap in * by lia; nia.
Qed.

Lemma pending_loop_speed fuel c r rk r' rk' :
  pending_loop fuel c r rk = (r', rk') →
  (speed_ok B N) rk → (pending_ok B N) (pending_of r c) → (speed_ok B N) rk'.
Proof.
  revert fuel c r rk r' rk'.
  refine (pending_loop_ind (λ c r rk r' rk',
            (speed_ok B N) rk → (pending_ok B N) (pending_of r c) → (speed_ok B N) rk') _ _ _ _).
  - done.
  - intros c r rk msg r' rk' _ _ IH Hs Hp. apply IH; [done|].
    rewrite pending_of_delete_pending, decide_True by done.
    eapply pending_ok_shrink; [apply delete_subseteq|done].
  - intros c r rk msg r1 rk1 r' rk' Hnext _ Hby IH Hs Hp.
    pose proof (processMessageByType_pending _ _ _ _ _ _ c Hby) as Hsub.
    assert (GoInt.add (LastProcessedMessageNumber rk) 1
            = LastProcessedMessageNumber rk + 1) as Hadd.
    { apply add_one_exact. destruct Hs as [? _]. lia. }
    rewrite Hadd in *. destruct (Hp _ _ Hnext) as [HkN Hb].
    apply IH.
    + by eapply transition_speed_ok.
    + rewrite pending_of_delete_pending, decide_True by done.
      change (pending_of (set_processed r1 c ?n) c) with (pending_of r1 c).
      eapply pending_ok_shrink; [|exact Hp]. etrans; [apply delete_subseteq|done].
  - done.
Qed.

Lemma process_in_sequence_speed r rk msg :
  let c := GetChannel msg in
  rockets r !! c = Some rk → (bounded B N) msg →
  (speed_ok B N) rk → (pending_ok B N) (pending_of r c) →
  (∀ rk', rockets (process_in_sequence r rk msg).1 !! c = Some rk' → (speed_ok B N) rk') ∧
  (pending_ok B N) (pending_of (process_in_sequence r rk msg).1 c).
Proof.
  intros c Hrk Hb Hs Hp. unfold process_in_sequence. fold c.
  assert (GoInt.add (LastProcessedMessageNumber rk) 1
          = LastProcessedMessageNumber rk + 1) as ->.
  { apply add_one_exact. destruct Hs as [? _]. lia. }
  destruct (Z.eqb_spec (GetMessageNumber msg) (LastProcessedMessageNumber rk + 1))
    as [Hn|Hn].
  - destruct (processMessageByType r rk msg) as [[r1 rk1] ok] eqn:Hby. destruct ok.
    + pose proof (processMessageByType_pending _ _ _ _ _ _ c Hby) as Hsub.
      edestruct (processPendingMessages_unfold
                   (set_rocket (set_processed r1 c (GetMessageNumber msg)) c
                      (advance rk1 (GetMessageNumber msg) (GetMessageTime msg))) c)
        as (r' & rk' & Hloop & ->); [apply lookup_insert_eq|].
      pose proof (pending_loop_pending _ _ _ _ _ _ Hloop c) as Hsub'.
      simpl. rewrite lookup_insert_eq.
      change (pending_of (set_rocket r' c rk') c) with (pending_of r' c).
      split.
      * intros ? [= <-]. eapply pending_loop_speed; [exact Hloop| |].
        -- rewrite Hn. eapply transition_speed_ok; [done..|]. destruct Hb. lia.
        -- by eapply pending_ok_shrink.
      * eapply pending_ok_shrink; [|exact Hp]. by etrans.
    + apply processMessageByType_rejects in Hby as [-> ->].
      rewrite set_rocket_same by done. simpl. split; [|done].
      rewrite Hrk. by intros ? [= <-].
  - destruct (_ >? _); simpl.
    + rewrite Hrk, pending_of_set_pending, decide_True by done. split.
      * by intros ? [= <-].
      * intros k m. destruct (decide (GetMessageNumber msg = k)) as [<-|Hne].
        -- rewrite lookup_insert_eq. intros [= <-]. split; [by destruct Hb|done].
        -- rewrite lookup_insert_ne by done. apply Hp.
    + rewrite Hrk. split; [by intros ? [= <-]|done].
Qed.

Lemma speed_inv_step r msg : (speed_inv B N) r → (bounded B N) msg → (speed_inv B N) (ProcessMessage r msg).1.
Proof.
  intros Hinv Hb d. destruct (Hinv d) as [Hrk Hpend].
  destruct (decide (d = GetChannel msg)) as [->|Hne].
  - unfold ProcessMessage.
    destruct (is_processed _ (GetChannel msg) _); simpl.
    { by rewrite pending_of_init_maps. }
    destruct (rockets r !! GetChannel msg) as [rk|] eqn:Hc.
    + apply process_in_sequence_speed; [done|done|by apply Hrk|].
      by rewrite pending_of_init_maps.
    + destruct (is_launch msg) eqn:Hl; simpl.
      * apply process_in_sequence_speed; [apply lookup_insert_eq|done| |].
        -- unfold speed_ok. simpl. lia.
        -- change (pending_of (set_rocket ?a ?c ?b) ?d) with (pending_of a d).
           by rewrite pending_of_init_maps.
      * rewrite Hc, pending_of_set_pending, decide_True by done. split; [done|].
        rewrite pending_of_init_maps.
        intros k m. destruct (decide (GetMessageNumber msg = k)) as [<-|Hk].
        -- rewrite lookup_insert_eq. intros [= <-]. split; [by destruct Hb|done].
        -- rewrite lookup_insert_ne by done. apply Hpend.
  - destruct (ProcessMessage_other r msg d Hne) as (-> & _ & Hsub).
    split; [done|]. by eapply pending_ok_shrink.
Qed.

Lemma speed_inv_run msgs r :
  (speed_inv B N) r → Forall (bounded B N) msgs → (speed_inv B N) (ingest_all r msgs).
Proof.
  revert r. induction msgs as [|msg msgs IH]; intros r Hinv Hb; [done|].
  apply Forall_cons in Hb as [Hmsg Hb]. simpl. apply IH; [|done].
  by apply speed_inv_step.
Qed.

End speed.

(** A decrease by more than the speed is accepted and leaves the speed 0. *)
Lemma speed_decrease_floor r rk msg :
  is_speed_decrease msg = true → Exploded rk = false →
  0 <= Speed rk < By (Message msg) → By (Message msg) <= GoInt.max_int →
  processMessageByType r rk msg =
    (r, {| ID := ID rk; RType := RType rk; Speed := 0; RMission := RMission rk;
           Exploded := Exploded rk; RReason := RReason rk; CreatedAt := CreatedAt rk;
           UpdatedAt := UpdatedAt rk;
           LastProcessedMessageNumber := LastProcessedMessageNumber rk |}, true).
Proof.
  unfold is_speed_decrease. intros Hty%String.eqb_eq Hexp Hby Hmax.
  unfold processMessageByType, is_launch. rewrite Hty, Hexp. simpl.
  destruct (Z.leb_spec (By (Message msg)) 0); [lia|].
  assert (GoInt.sub (Speed rk) (By (Message msg)) = Speed rk - By (Message msg)) as ->.
  { apply wrap_id.
    unfold GoInt.in_range, GoInt.min_int, GoInt.max_int in *. simpl in *. lia. }
  by destruct (Z.ltb_spec (Speed rk - By (Message msg)) 0); [|lia].
Qed.

(** C8, amended: start from the empty repository and ingest messages whose
    numbers are at most [N], whose [By] is at most [B] and whose launch
    speeds are between 0 and [B], with [B * N] within the range of [int]
    (so that no sum of speeds can wrap around).  Then after every call the
    speed of every rocket is at least 0.  And in such a state a
    [RocketSpeedDecreased] at the expected number (not an already processed
    number) of a rocket that has not exploded, by more than the current
    speed, is accepted: the transition returns true with the speed at 0,
    [ProcessMessage] returns true, and the speed of the rocket after the
    call is 0 when no message is pending at the number that follows. *)
Theorem C8_speed_never_negative B N msgs :
  0 <= B → 0 <= N < GoInt.max_int → B * N <= GoInt.max_int →
  Forall (bounded B N) msgs →
  let r := ingest_all NewRocketRepository msgs in
  (∀ c rk, GetRocket r c = Some rk → 0 <= Speed rk) ∧
  (∀ rk msg,
     is_speed_decrease msg = true →
     GetRocket r (GetChannel msg) = Some rk → Exploded rk = false →
     GetMessageNumber msg = GoInt.add (LastProcessedMessageNumber rk) 1 →
     is_processed r (GetChannel msg) (GetMessageNumber msg) = false →
     Speed rk < By (Message msg) <= GoInt.max_int →
     (processMessageByType r rk msg).2 = true ∧
     Speed (processMessageByType r rk msg).1.2 = 0 ∧
     (ProcessMessage r msg).2 = true ∧
     (pending_of r (GetChannel msg) !! GoInt.add (GetMessageNumber msg) 1 = None →
      Speed <$> GetRocket (ProcessMessage r msg).1 (GetChannel msg) = Some 0)).
Proof.
  intros HB HN HBN Hb r.
  assert (Hinv : speed_inv B N r).
  { apply speed_inv_run; [done..| |done].
    intros c. split.
    - intros rk. simpl. by rewrite lookup_empty.
    - intros k m. unfold pending_of. simpl. by rewrite !lookup_empty. }
  assert (Hpos : ∀ c rk, GetRocket r c = Some rk → 0 <= Speed rk).
  { intros c rk Hrk. destruct (Hinv c) as [Hs _]. destruct (Hs rk Hrk) as (_ & ? & _).
    done. }
  split; [exact Hpos|].
  intros rk msg Hty Hrk Hexp Hn Hdup [Hlt Hmax].
  specialize (Hpos _ _ Hrk).
  rewrite speed_decrease_floor by (done || lia). simpl. split; [done|]. split; [done|].
  unfold ProcessMessage. rewrite is_processed_init_maps, Hdup.
  change (rockets (init_maps r ?c)) with (rockets r).
  unfold GetRocket in Hrk. rewrite Hrk. unfold process_in_sequence.
  rewrite <- Hn, Z.eqb_refl, speed_decrease_floor by (done || lia).
  split; [done|]. intros Hnone. simpl.
  erewrite processPendingMessages_drain by apply lookup_insert_eq.
  rewrite drain_unfold. cbv zeta. simpl LastProcessedMessageNumber.
  change (pending_of (set_rocket (set_processed (init_maps r ?c) ?c ?n) ?c ?x) ?c)
    with (pending_of (init_maps r c) c).
  rewrite pending_of_init_maps, Hnone. unfold GetRocket. simpl.
  by rewrite lookup_insert_eq.
Qed.

Lemma C8_speed_never_negative_witness :
  let r := ingest_all NewRocketRepository slow_rocket in
  (∀ c rk, GetRocket r c = Some rk → 0 <= Speed rk) ∧
  (ProcessMessage r (speed_down "R" 3 12 700)).2 = true.
Proof.
  set (rk := advance (mkRocket "R" "Falcon-9" 200 "ARTEMIS" false "" 10 10 1) 2 11).
  assert (HB : 0 <= 1000) by lia.
  assert (HN : 0 <= 100 < GoInt.max_int) by (vm_compute; split; [discriminate|reflexivity]).
  assert (HBN : 1000 * 100 <= GoInt.max_int) by (vm_compute; discriminate).
  assert (Hb : Forall (bounded 1000 100) slow_rocket).
  { repeat constructor; vm_compute; discriminate. }
  pose proof (C8_speed_never_negative 1000 100 slow_rocket HB HN HBN Hb) as [H1 H2].
  split; [exact H1|].
  assert (Hrk : GetRocket (ingest_all NewRocketRepository slow_rocket) "R" = Some rk)
    by (vm_compute; reflexivity).
  assert (Hdup : is_processed (ingest_all NewRocketRepository slow_rocket) "R" 3 = false)
    by (vm_compute; reflexivity).
  assert (Hby : Speed rk < 700 <= GoInt.max_int)
    by (vm_compute; split; [reflexivity|discriminate]).
  exact (proj1 (proj2 (proj2
           (H2 rk (speed_down "R" 3 12 700) eq_refl Hrk eq_refl eq_refl Hdup Hby)))).
Defined.

(** ** Messages that the rocket accepts *)

(** What an accepted message does, on a rocket that has not exploded or for
    a launch message: only an explosion touches the repository. *)
Lemma accepted_transition r rk msg :
  accepted_intact msg = true → (Exploded rk = true → is_launch msg = true) →
  processMessageByType r rk msg =
    (if is_explosion msg then sweep_pending r (ID rk) else r, transition rk msg, true) ∧
  ID (transition rk msg) = ID rk ∧
  LastProcessedMessageNumber (transition rk msg) = LastProcessedMessageNumber rk ∧
  Exploded (transition rk msg) = is_explosion msg.
Proof.
  unfold is_explosion, accepted_intact, transition, processMessageByType, is_launch.
  intros Hacc Hl. simpl in Hacc.
  destruct (String.eqb_spec (GetMessageType msg) MessageTypeRocketLaunched) as [Hty|Hty].
  - rewrite Hty in *. simpl in *. rewrite andb_false_r.
    destruct (_ || _); [discriminate|done].
  - destruct (Exploded rk) eqn:Hexp; [by specialize (Hl eq_refl)|]. simpl.
    repeat case_match; simpl in *; try discriminate; try done;
      repeat match goal with
             | H : String.eqb _ _ = true |- _ => apply String.eqb_eq in H
             end;
      match goal with
      | H : GetMessageType msg = _, H' : GetMessageType msg = _ |- _ =>
        rewrite H in H'; discriminate H'
      end.
Qed.

(** What [processMessageByType] checks on a rocket that has not exploded,
    kind by kind. *)
Lemma accepted_intact_spec msg :
  accepted_intact msg = true ↔
  (GetMessageType msg = MessageTypeRocketLaunched ∧
   Type_ (Message msg) ≠ "" ∧ Mission (Message msg) ≠ "") ∨
  (GetMessageType msg = MessageTypeRocketSpeedIncreased ∧ 0 < By (Message msg)) ∨
  (GetMessageType msg = MessageTypeRocketSpeedDecreased ∧ 0 < By (Message msg)) ∨
  (GetMessageType msg = MessageTypeRocketExploded ∧ Reason (Message msg) ≠ "") ∨
  (GetMessageType msg = MessageTypeRocketMissionChanged ∧ NewMission (Message msg) ≠ "").
Proof.
  unfold accepted_intact, processMessageByType, is_launch. simpl.
  unfold MessageTypeRocketLaunched, MessageTypeRocketSpeedIncreased,
    MessageTypeRocketSpeedDecreased, MessageTypeRocketExploded,
    MessageTypeRocketMissionChanged.
  destruct (String.eqb_spec (GetMessageType msg) "RocketLaunched") as [->|H1].
  { destruct (String.eqb_spec (Type_ (Message msg)) ""),
      (String.eqb_spec (Mission (Message msg)) ""); simpl;
      split; try done; try (intros [(_ & ? & ?)|[(? & _)|[(? & _)|[(? & _)|(? & _)]]]]; done);
      intros _; left; done. }
  destruct (String.eqb_spec (GetMessageType msg) "RocketSpeedIncreased") as [->|H2].
  { destruct (Z.leb_spec (By (Message msg)) 0); simpl; split; try done;
      try (intros [(? & _)|[(_ & ?)|[(? & _)|[(? & _)|(? & _)]]]]; done || lia);
      intros _; right; left; split; [done|lia]. }
  destruct (String.eqb_spec (GetMessageType msg) "RocketSpeedDecreased") as [->|H3].
  { destruct (Z.leb_spec (By (Message msg)) 0); simpl; split; try done;
      try (intros [(? & _)|[(? & _)|[(_ & ?)|[(? & _)|(? & _)]]]]; done || lia);
      intros _; right; right; left; split; [done|lia]. }
  destruct (String.eqb_spec (GetMessageType msg) "RocketExploded") as [->|H4].
  { destruct (String.eqb_spec (Reason (Message msg)) ""); simpl; split; try done;
      try (intros [(? & _)|[(? & _)|[(? & _)|[(_ & ?)|(? & _)]]]]; done);
      intros _; right; right; right; left; done. }
  destruct (String.eqb_spec (GetMessageType msg) "RocketMissionChanged") as [->|H5].
  { destruct (String.eqb_spec (NewMission (Message msg)) ""); simpl; split; try done;
      try (intros [(? & _)|[(? & _)|[(? & _)|[(? & _)|(_ & ?)]]]]; done);
      intros _; right; right; right; right; done. }
  split; [done|]. intros [(? & _)|[(? & _)|[(? & _)|[(? & _)|(? & _)]]]]; done.
Qed.

Lemma calm_shrink c rk pend pend' : pend' ⊆ pend → calm c rk pend → calm c rk pend'.
Proof.
  intros Hsub (Hid & Hl & Hpend & Hdisc & Hexp).
  split; [done|]. split; [done|]. split; [|split].
  - intros k m Hk. apply Hpend. by eapply lookup_weaken.
  - intros k0 m0 Hk0 He k m Hk. eapply Hdisc; [|done|].
    + by eapply lookup_weaken.
    + by eapply lookup_weaken.
  - intros He k m Hk. eapply Hexp; [done|]. by eapply lookup_weaken.
Qed.

(** The sweep of an explosion that is followed by the deletion of the
    explosion itself removes nothing else. *)
Lemma sweep_then_delete r c k :
  launches_above k (pending_of r c) →
  (∀ k' m, pending_of r c !! k' = Some m → k <= k') →
  delete_pending (set_processed (sweep_pending r c) c k) c k =
  delete_pending (set_processed r c k) c k.
Proof.
  intros Habove Hkeys. unfold delete_pending, set_processed, sweep_pending. simpl.
  f_equal.
  rewrite alter_alter_eq. apply alter_ext. intros p Hp. simpl.
  assert (pending_of r c = p) as Hpc by (unfold pending_of; by rewrite Hp).
  rewrite Hpc in *. apply map_eq. intros i.
  destruct (decide (k = i)) as [->|Hne]; [by rewrite !lookup_delete_eq|].
  rewrite !lookup_delete_ne by done. rewrite map_lookup_filter.
  destruct (p !! i) as [m|] eqn:Hi; [|done]. simpl.
  rewrite option_guard_True; [done|]. simpl.
  apply (Habove i m Hi). specialize (Hkeys i m Hi). lia.
Qed.

Lemma sweep_nothing r c :
  (∀ k m, pending_of r c !! k = Some m → is_launch m = true) → sweep_pending r c = r.
Proof.
  intros Hall. unfold sweep_pending. destruct r as [rs ps qs]. simpl in *. f_equal.
  apply alter_id. intros p Hp. apply map_filter_id. intros k m Hk. simpl.
  apply (Hall k m). unfold pending_of. simpl. by rewrite Hp.
Qed.

(** One turn of the loop in a calm state: the message at the next number is
    applied, and the repository is left as if nothing but the deletion of
    its entry had happened to the pending buffer. *)
Lemma calm_turn c r rk msg :
  calm c rk (pending_of r c) →
  pending_of r c !! (LastProcessedMessageNumber rk + 1) = Some msg →
  let next := LastProcessedMessageNumber rk + 1 in
  Exploded rk && negb (is_launch msg) = false ∧
  (∃ r1, processMessageByType r rk msg = (r1, transition rk msg, true) ∧
         delete_pending (set_processed r1 c next) c next =
         delete_pending (set_processed r c next) c next) ∧
  calm c (advance (transition rk msg) next (GetMessageTime msg))
         (delete next (pending_of r c)).
Proof.
  intros (Hid & Hl & Hpend & Hdisc & Hexp) Hnext next.
  destruct (Hpend _ _ Hnext) as [(_ & _ & Hacc) [_ Hmax]].
  assert (Exploded rk = true → is_launch msg = true) as Hgate.
  { intros He. apply (Hexp He _ _ Hnext). lia. }
  destruct (accepted_transition r rk msg Hacc Hgate) as (Hby & Hid' & Hl' & Hexp').
  split; [|split].
  - destruct (Exploded rk); [|done]. by rewrite Hgate.
  - eexists. split; [exact Hby|]. rewrite Hid.
    destruct (is_explosion msg) eqn:He; [|done].
    apply sweep_then_delete.
    + by apply (Hdisc _ _ Hnext).
    + intros k' m Hk'. destruct (Hpend _ _ Hk') as [_ [? _]]. subst next. lia.
  - split; [simpl; congruence|]. split; [simpl; lia|]. split; [|split].
    + intros k m Hk. apply lookup_delete_Some in Hk as [Hne Hk].
      destruct (Hpend _ _ Hk) as [Hb [? ?]]. split; [done|]. simpl. lia.
    + intros k0 m0 Hk0 He k m Hk.
      apply lookup_delete_Some in Hk0 as [_ Hk0]. apply lookup_delete_Some in Hk as [_ Hk].
      by eapply Hdisc.
    + simpl. rewrite Hexp'. intros He k m Hk Hlt.
      apply lookup_delete_Some in Hk as [_ Hk]. by eapply (Hdisc _ _ Hnext He).
Qed.

Lemma delete_set_pending_ne r c n msg k :
  k ≠ n →
  delete_pending (set_processed (set_pending r c n msg) c k) c k =
  set_pending (delete_pending (set_processed r c k) c k) c n msg.
Proof.
  intros Hne. unfold delete_pending, set_pending. simpl. f_equal.
  rewrite alter_insert_eq, insert_alter_eq. f_equal.
  pose proof (pending_of_delete_pending r c k c) as Hdel.
  rewrite decide_True in Hdel by done. unfold delete_pending in Hdel.
  unfold pending_of at 2. simpl. unfold pending_of at 1 in Hdel. simpl in Hdel.
  rewrite Hdel. by rewrite delete_insert_ne.
Qed.

Lemma delete_set_pending_eq r c n msg :
  pending_of r c !! n = None → is_Some (pendingMessages r !! c) →
  delete_pending (set_processed (set_pending r c n msg) c n) c n = set_processed r c n.
Proof.
  intros Hn [p Hp]. unfold delete_pending, set_pending, set_processed. simpl. f_equal.
  rewrite alter_insert_eq. rewrite delete_insert_id by done.
  apply insert_id. unfold pending_of. by rewrite Hp.
Qed.

(** Buffering one more acceptable message beyond the cursor and then
    draining is draining first and then taking the message: applying it, and
    draining on, if the drain stopped just before its number, and buffering
    it otherwise. *)
Lemma drain_insert c n msg :
  ∀ sz r rk,
    size (pending_of r c) = sz →
    is_Some (pendingMessages r !! c) →
    pending_of r c !! n = None →
    calm c rk (<[n := msg]> (pending_of r c)) →
    is_Some (pendingMessages (drain c r rk).1 !! c) ∧
    pending_of (drain c r rk).1 c !! n = None ∧
    calm c (drain c r rk).2 (<[n := msg]> (pending_of (drain c r rk).1 c)) ∧
    drain c (set_pending r c n msg) rk =
      if decide (n = LastProcessedMessageNumber (drain c r rk).2 + 1)
      then drain c (set_processed (drain c r rk).1 c n)
             (advance (transition (drain c r rk).2 msg) n (GetMessageTime msg))
      else (set_pending (drain c r rk).1 c n msg, (drain c r rk).2).
Proof.
  intros sz. induction sz as [sz IH] using lt_wf_ind.
  intros r rk Hsz Hq Hn Hcalm.
  assert (Hcalm0 : calm c rk (pending_of r c)).
  { eapply calm_shrink; [|exact Hcalm]. by apply insert_subseteq. }
  pose proof Hcalm as (Hid & Hl & Hpend & Hdisc & Hexp).
  rewrite (drain_unfold c (set_pending r c n msg)), (drain_unfold c r rk). cbv zeta.
  rewrite add_one_exact by done.
  rewrite pending_of_set_pending, decide_True by done.
  destruct (pending_of r c !! (LastProcessedMessageNumber rk + 1)) as [m0|] eqn:Hnext.
  - assert (n ≠ LastProcessedMessageNumber rk + 1) as Hneq by (intros ->; congruence).
    rewrite lookup_insert_ne by done. rewrite Hnext.
    destruct (calm_turn c r rk m0 Hcalm0 Hnext) as (Hgate & (r1 & Hby & Heq1) & _).
    destruct (calm_turn c (set_pending r c n msg) rk m0) as (_ & (r2 & Hby2 & Heq2) & Hcalm2).
    { by rewrite pending_of_set_pending, decide_True. }
    { rewrite pending_of_set_pending, decide_True by done.
      by rewrite lookup_insert_ne. }
    rewrite Hgate, Hby, Hby2, Heq1, Heq2.
    rewrite delete_set_pending_ne by done.
    eapply IH; [|reflexivity| | |].
    + rewrite <- Hsz, pending_of_delete_pending, decide_True by done.
      change (pending_of (set_processed r c ?k) c) with (pending_of r c).
      eapply pending_shrinks; [exact Hnext|done].
    + simpl. by rewrite lookup_alter_is_Some.
    + rewrite pending_of_delete_pending, decide_True by done.
      change (pending_of (set_processed r c ?k) c) with (pending_of r c).
      by rewrite lookup_delete_ne.
    + rewrite pending_of_delete_pending, decide_True by done.
      change (pending_of (set_processed r c ?k) c) with (pending_of r c).
      rewrite pending_of_set_pending, decide_True in Hcalm2 by done.
      by rewrite delete_insert_ne in Hcalm2.
  - simpl. split; [done|]. split; [done|]. split; [done|].
    destruct (decide (n = LastProcessedMessageNumber rk + 1)) as [Heq|Hneq].
    + rewrite <- Heq. rewrite lookup_insert_eq.
      destruct (calm_turn c (set_pending r c n msg) rk msg) as (Hgate & (r2 & Hby2 & Heq2) & _).
      { by rewrite pending_of_set_pending, decide_True. }
      { rewrite pending_of_set_pending, decide_True by done.
        rewrite <- Heq. apply lookup_insert_eq. }
      rewrite <- Heq in Heq2. rewrite Hgate, Hby2, Heq2.
      by rewrite delete_set_pending_eq.
    + rewrite lookup_insert_ne by done. by rewrite Hnext.
Qed.

Lemma drain_set_rocket c r rk x :
  drain c (set_rocket r c x) rk = (set_rocket (drain c r rk).1 c x, (drain c r rk).2).
Proof. apply pending_loop_set_rocket. Qed.

Lemma set_rocket_twice r c x y : set_rocket (set_rocket r c x) c y = set_rocket r c y.
Proof. unfold set_rocket. simpl. by rewrite insert_insert_eq. Qed.

(** One more acceptable message after a drain: the outcome is that of the
    drain started with the message already in the pending buffer. *)
Lemma ingest_after_drain c r rk msg :
  rockets r !! c = Some rk →
  is_Some (processedMessages r !! c) → is_Some (pendingMessages r !! c) →
  pending_of r c !! GetMessageNumber msg = None →
  is_processed r c (GetMessageNumber msg) = false →
  calm c rk (<[GetMessageNumber msg := msg]> (pending_of r c)) →
  ProcessMessage (processPendingMessages r c) msg =
    (processPendingMessages (set_pending r c (GetMessageNumber msg) msg) c, true).
Proof.
  intros Hrk Hp Hq Hn Hdup Hcalm.
  rewrite (processPendingMessages_drain r c rk) by done.
  rewrite (processPendingMessages_drain (set_pending r c _ msg) c rk) by done.
  destruct (drain_insert c _ msg _ r rk eq_refl Hq Hn Hcalm) as (Hq' & Hn' & Hcalm' & ->).
  destruct (drain c r rk) as [r' rk'] eqn:Hdrain. simpl in *.
  pose proof (pending_loop_processed _ _ _ _ _ _ Hdrain (GetMessageNumber msg)) as Hproc.
  apply pending_loop_frame in Hdrain as (_ & _ & Hp' & _).
  destruct Hcalm' as (Hid' & Hl' & Hpend' & Hdisc' & Hexp').
  destruct (Hpend' (GetMessageNumber msg) msg) as [(Hc & _ & Hacc) [Hlt' _]];
    [apply lookup_insert_eq|].
  assert (is_processed r' c (GetMessageNumber msg) = false) as Hdup'.
  { destruct (is_processed r' c _) eqn:Hk; [|done].
    destruct (Hproc eq_refl) as [?|[? ?]]; congruence. }
  unfold ProcessMessage. rewrite Hc.
  rewrite init_maps_done by (simpl; auto).
  change (is_processed (set_rocket r' c rk') c ?k) with (is_processed r' c k).
  rewrite Hdup'. simpl. rewrite lookup_insert_eq.
  unfold process_in_sequence. rewrite Hc, add_one_exact by done.
  destruct (decide (GetMessageNumber msg = LastProcessedMessageNumber rk' + 1))
    as [Heq|Hneq].
  - rewrite (proj2 (Z.eqb_eq _ _) Heq).
    assert (processMessageByType (set_rocket r' c rk') rk' msg =
              (set_rocket r' c rk', transition rk' msg, true)) as ->.
    { destruct (accepted_transition (set_rocket r' c rk') rk' msg Hacc) as (-> & _).
      { intros He. apply (Hexp' He (GetMessageNumber msg) msg); [|lia].
        apply lookup_insert_eq. }
      destruct (is_explosion msg) eqn:He; [|done].
      rewrite Hid', sweep_nothing; [done|].
      intros k m Hk. change (pending_of (set_rocket r' c rk') c) with (pending_of r' c) in Hk.
      assert (k ≠ GetMessageNumber msg) as Hne by (intros ->; congruence).
      destruct (Hpend' k m) as [_ [Hkl _]]; [by rewrite lookup_insert_ne|].
      apply (Hdisc' (GetMessageNumber msg) msg (lookup_insert_eq _ _ _) He k m);
        [by rewrite lookup_insert_ne|lia]. }
    f_equal.
    rewrite (processPendingMessages_drain _ c
               (advance (transition rk' msg) (GetMessageNumber msg) (GetMessageTime msg)))
      by apply lookup_insert_eq.
    change (set_processed (set_rocket r' c rk') c ?k)
      with (set_rocket (set_processed r' c k) c rk').
    rewrite set_rocket_twice, drain_set_rocket. simpl.
    by rewrite set_rocket_twice.
  - rewrite (proj2 (Z.eqb_neq _ _) Hneq).
    rewrite (proj2 (Z.gtb_gt _ _)) by lia. done.
Qed.

(** ** The state after a set of acceptable messages *)

Lemma tidy_shrink c S S' : S' ⊆ S → tidy c S → tidy c S'.
Proof.
  intros Hsub [Hall Hdisc]. split.
  - intros k m Hk. apply Hall. by eapply lookup_weaken.
  - intros k0 m0 Hk0 He k m Hk. eapply Hdisc; [|done|].
    + by eapply lookup_weaken.
    + by eapply lookup_weaken.
Qed.

Lemma calm_seed c S : tidy c S → calm c (new_rocket c) S.
Proof.
  intros [Hall Hdisc]. split; [done|]. split; [vm_compute; split; [discriminate|done]|].
  split; [|split; [done|discriminate]].
  intros k msg Hk. destruct (Hall _ _ Hk) as (Hb & <- & _). split; [done|].
  destruct Hb as (_ & [? ?] & _). simpl. lia.
Qed.

Lemma settled_step c S msg :
  S !! GetMessageNumber msg = None →
  tidy c (<[GetMessageNumber msg := msg]> S) →
  ProcessMessage (settled c S) msg = (settled c (<[GetMessageNumber msg := msg]> S), true).
Proof.
  intros Hn Ht'.
  assert (Ht : tidy c S) by (eapply tidy_shrink; [by apply insert_subseteq|done]).
  destruct (proj1 Ht' _ _ (lookup_insert_eq _ _ _)) as ((Hc & Hrange & _) & _ & H1).
  assert (Hseed : ProcessMessage (processPendingMessages (seed c S) c) msg =
            (processPendingMessages (seed c (<[GetMessageNumber msg := msg]> S)) c, true)).
  { rewrite (ingest_after_drain c (seed c S) (new_rocket c) msg).
    - f_equal. f_equal. unfold set_pending, seed, pending_of. simpl.
      rewrite lookup_singleton_eq. simpl. by rewrite insert_singleton_eq.
    - apply lookup_singleton_eq.
    - simpl. rewrite lookup_singleton_eq. eauto.
    - simpl. rewrite lookup_singleton_eq. eauto.
    - unfold pending_of. simpl. by rewrite lookup_singleton_eq.
    - unfold is_processed, processed_of. simpl. by rewrite lookup_singleton_eq.
    - unfold pending_of. simpl. rewrite lookup_singleton_eq. simpl. by apply calm_seed. }
  unfold settled.
  destruct (decide (map_Forall (λ _ m, is_launch m = false) S)) as [Hno|Hsome].
  - destruct (is_launch msg) eqn:Hl.
    + rewrite decide_False.
      2:{ intros Hall. apply map_Forall_insert_1_1 in Hall. congruence. }
      rewrite <- Hseed.
      assert (pending_of (seed c S) c !! GoInt.add 0 1 = None) as Hstuck.
      { unfold pending_of. simpl. rewrite lookup_singleton_eq. simpl.
        change (GoInt.add 0 1) with 1.
        destruct (S !! 1) as [m1|] eqn:Hm1; [|done].
        destruct (proj1 Ht _ _ Hm1) as (_ & _ & Hl1). specialize (Hno _ _ Hm1).
        simpl in Hno. rewrite Hl1 in Hno; done. }
      rewrite (processPendingMessages_drain (seed c S) c (new_rocket c))
        by apply lookup_singleton_eq.
      rewrite drain_unfold. cbv zeta. simpl LastProcessedMessageNumber.
      rewrite Hstuck. simpl.
      assert (set_rocket (seed c S) c (new_rocket c) = seed c S) as ->.
      { apply set_rocket_same. apply lookup_singleton_eq. }
      unfold ProcessMessage. rewrite Hc.
      assert (init_maps (boot c S) c = boot c S) as ->.
      { apply init_maps_done; simpl; rewrite lookup_singleton_eq; eauto. }
      assert (init_maps (seed c S) c = seed c S) as ->.
      { apply init_maps_done; simpl; rewrite lookup_singleton_eq; eauto. }
      assert (is_processed (boot c S) c (GetMessageNumber msg) = false) as ->.
      { unfold is_processed, processed_of. simpl. by rewrite lookup_singleton_eq. }
      assert (is_processed (seed c S) c (GetMessageNumber msg) = false) as ->.
      { unfold is_processed, processed_of. simpl. by rewrite lookup_singleton_eq. }
      simpl. rewrite lookup_empty, lookup_singleton_eq, Hl. simpl.
      reflexivity.
    + rewrite decide_True.
      2:{ apply map_Forall_insert_2; done. }
      unfold ProcessMessage. rewrite Hc.
      assert (init_maps (boot c S) c = boot c S) as ->.
      { apply init_maps_done; simpl; rewrite lookup_singleton_eq; eauto. }
      assert (is_processed (boot c S) c (GetMessageNumber msg) = false) as ->.
      { unfold is_processed, processed_of. simpl. by rewrite lookup_singleton_eq. }
      simpl. rewrite lookup_empty, Hl. simpl. f_equal.
      unfold set_pending, boot, pending_of. simpl.
      rewrite lookup_singleton_eq. simpl. by rewrite insert_singleton_eq.
  - rewrite decide_False; [exact Hseed|].
    intros Hall. apply Hsome. intros k m Hk. apply (Hall k m).
    rewrite lookup_insert_ne; [done|]. intros <-. congruence.
Qed.

Lemma numbered_lookup msgs k msg :
  (list_to_map (numbered msgs) : gmap Z RocketMessage) !! k = Some msg →
  msg ∈ msgs ∧ GetMessageNumber msg = k.
Proof.
  intros Hk. apply elem_of_list_to_map_2 in Hk.
  apply list_elem_of_fmap in Hk as (m & [= -> ->] & Hin). done.
Qed.

Lemma ingest_all_settled c msgs :
  ∀ S, NoDup (GetMessageNumber <$> msgs) →
    (∀ msg, msg ∈ msgs → S !! GetMessageNumber msg = None) →
    tidy c (list_to_map (numbered msgs) ∪ S) →
    ingest_all (settled c S) msgs = settled c (list_to_map (numbered msgs) ∪ S) ∧
    Forall (λ ok, ok = true) (ingest_results (settled c S) msgs).
Proof.
  induction msgs as [|msg msgs IH]; intros S Hnd Hfresh Ht.
  - simpl. by rewrite (left_id_L ∅ (∪)).
  - apply NoDup_cons in Hnd as [Hnew Hnd].
    assert (Hn : (list_to_map (numbered msgs) : gmap Z RocketMessage)
                   !! GetMessageNumber msg = None).
    { apply not_elem_of_list_to_map_1. unfold numbered.
      by rewrite <- list_fmap_compose. }
    assert (Hset : list_to_map (numbered (msg :: msgs)) ∪ S =@{gmap Z RocketMessage}
                   list_to_map (numbered msgs) ∪ <[GetMessageNumber msg := msg]> S).
    { simpl. by rewrite <- insert_union_l, insert_union_r. }
    rewrite Hset in *.
    simpl. rewrite (settled_step c S msg).
    + simpl. destruct (IH (<[GetMessageNumber msg := msg]> S)) as [-> Hres].
      * done.
      * intros m Hin. rewrite lookup_insert_ne.
        -- apply Hfresh. by apply list_elem_of_further.
        -- intros Heq. apply Hnew. rewrite Heq. apply list_elem_of_fmap. eauto.
      * done.
      * split; [done|by constructor].
    + apply Hfresh, list_elem_of_here.
    + eapply tidy_shrink; [|exact Ht]. apply map_union_subseteq_r.
      apply map_disjoint_spec. intros k x y Hx Hy.
      apply numbered_lookup in Hx as [Hin <-].
      destruct (decide (GetMessageNumber msg = GetMessageNumber x)) as [Heq|Hne].
      * apply Hnew. rewrite Heq. apply list_elem_of_fmap. eauto.
      * rewrite lookup_insert_ne in Hy by done.
        rewrite Hfresh in Hy; [done|]. by apply list_elem_of_further.
Qed.

Lemma ProcessMessage_init_maps r msg :
  ProcessMessage (init_maps r (GetChannel msg)) msg = ProcessMessage r msg.
Proof. unfold ProcessMessage. by rewrite init_maps_idemp. Qed.

Lemma settled_empty c : settled c ∅ = init_maps NewRocketRepository c.
Proof.
  unfold settled. rewrite decide_True by apply map_Forall_empty.
  unfold boot, init_maps. simpl. by rewrite !lookup_empty, !insert_empty.
Qed.

(** The conditions on a list of messages, as conditions on its set. *)
Lemma tidy_numbered c msgs :
  Forall (benign c) msgs →
  Forall (λ msg, GetMessageNumber msg = 1 → is_launch msg = true) msgs →
  (∀ e msg, e ∈ msgs → msg ∈ msgs → is_explosion e = true →
            GetMessageNumber e < GetMessageNumber msg → is_launch msg = true) →
  tidy c (list_to_map (numbered msgs)).
Proof.
  rewrite !Forall_forall. intros Hb H1 Hdisc. split.
  - intros k m [Hin <-]%numbered_lookup. auto.
  - intros k0 m0 [Hin0 <-]%numbered_lookup He k m [Hin <-]%numbered_lookup Hlt.
    exact (Hdisc m0 m Hin0 Hin He Hlt).
Qed.

(** From the empty repository, a sequence of messages whose set is tidy and
    whose numbers are distinct ends in the state of the set, and every call
    returns true. *)
Lemma ingest_all_from_new c msgs :
  msgs ≠ [] →
  NoDup (GetMessageNumber <$> msgs) →
  tidy c (list_to_map (numbered msgs)) →
  ingest_all NewRocketRepository msgs = settled c (list_to_map (numbered msgs)) ∧
  Forall (λ ok, ok = true) (ingest_results NewRocketRepository msgs).
Proof.
  intros Hne Hnd Ht.
  destruct (ingest_all_settled c msgs ∅) as [Hrun Hres].
  - done.
  - intros m _. apply lookup_empty.
  - by rewrite (right_id_L ∅ (∪)).
  - rewrite (right_id_L ∅ (∪)) in Hrun.
    destruct msgs as [|msg msgs]; [done|].
    destruct (proj1 Ht (GetMessageNumber msg) msg) as ((Hc & _) & _).
    { simpl. apply lookup_insert_eq. }
    rewrite settled_empty in Hrun, Hres. simpl in Hrun, Hres. subst c.
    rewrite ProcessMessage_init_maps in Hrun, Hres. by split.
Qed.

(** ** Arrival order *)

(** C5, as stated, fails: launch, explosion, relaunch and a speed increase
    are all accepted in the order of their numbers, and the rocket ends at
    speed 850 with the cursor at 4.  When the speed increase arrives before
    the explosion it is buffered, the explosion sweeps it away, and the
    rocket ends at speed 800 with the cursor at 3; every call still returned
    true. *)
Lemma C5_order_matters_after_explosion :
  relaunch_shuffled ≡ₚ relaunch_in_order ∧
  ingest_results NewRocketRepository relaunch_in_order = [true; true; true; true] ∧
  ingest_results NewRocketRepository relaunch_shuffled = [true; true; true; true] ∧
  GetRocket (ingest_all NewRocketRepository relaunch_shuffled) "R"
    ≠ GetRocket (ingest_all NewRocketRepository relaunch_in_order) "R".
Proof.
  split; [|split; [|split]].
  - unfold relaunch_shuffled, relaunch_in_order. apply perm_skip.
    apply (Permutation_cons_append [_; _]).
  - vm_compute. reflexivity.
  - vm_compute. reflexivity.
  - vm_compute. intros [=].
Qed.

(** The arrival order also matters before the first launch: a message
    numbered 1 that is not a launch is buffered for good if it comes first,
    and applied to the empty rocket if a later launch has come before it. *)
Lemma order_matters_before_first_launch :
  let a := speed_up "R" 1 10 50 in
  let b := launch "R" 2 11 "Falcon-9" "ARTEMIS" 500 in
  ingest_results NewRocketRepository [a; b] = [true; true] ∧
  LastProcessedMessageNumber <$> GetRocket (ingest_all NewRocketRepository [a; b]) "R"
    = Some 0 ∧
  LastProcessedMessageNumber <$> GetRocket (ingest_all NewRocketRepository [b; a]) "R"
    = Some 2.
Proof. vm_compute. auto. Qed.

(** C5, amended: take finitely many messages of one channel with pairwise
    distinct numbers, between 1 and the largest [int], each passing the
    checks of its kind, the one numbered 1, if there is one, a launch, and
    every message numbered above an explosion a launch.  Ingested into the
    empty repository in any two orders, they leave the same repository, and
    every call returns true. *)
Theorem C5_permutation_equivalence c msgs msgs' :
  msgs' ≡ₚ msgs →
  Forall (benign c) msgs →
  NoDup (GetMessageNumber <$> msgs) →
  Forall (λ msg, GetMessageNumber msg = 1 → is_launch msg = true) msgs →
  (∀ e msg, e ∈ msgs → msg ∈ msgs → is_explosion e = true →
            GetMessageNumber e < GetMessageNumber msg → is_launch msg = true) →
  ingest_all NewRocketRepository msgs' = ingest_all NewRocketRepository msgs ∧
  Forall (λ ok, ok = true) (ingest_results NewRocketRepository msgs') ∧
  Forall (λ ok, ok = true) (ingest_results NewRocketRepository msgs).
Proof.
  intros Hperm Hb Hnd H1 Hdisc.
  destruct msgs as [|msg msgs].
  { apply Permutation_nil_r in Hperm as ->. simpl. auto. }
  assert (msgs' ≠ []) as Hne'.
  { intros ->. symmetry in Hperm. by apply Permutation_nil_r in Hperm. }
  pose proof (tidy_numbered c _ Hb H1 Hdisc) as Ht.
  assert (Hmap : list_to_map (numbered msgs')
                 =@{gmap Z RocketMessage} list_to_map (numbered (msg :: msgs))).
  { apply list_to_map_proper.
    - unfold numbered. rewrite <- list_fmap_compose. by rewrite Hperm.
    - unfold numbered. by rewrite Hperm. }
  destruct (ingest_all_from_new c (msg :: msgs)) as [-> Hres]; [done..|].
  destruct (ingest_all_from_new c msgs') as [-> Hres']; [done| |by rewrite Hmap|].
  - by rewrite Hperm.
  - by rewrite Hmap.
Qed.

Lemma C5_permutation_equivalence_witness :
  ingest_all NewRocketRepository (reverse eventful_flight)
    = ingest_all NewRocketRepository eventful_flight.
Proof.
  assert (Hperm : reverse eventful_flight ≡ₚ eventful_flight) by apply reverse_Permutation.
  assert (Hb : Forall (benign "R") eventful_flight).
  { repeat constructor; vm_compute; congruence. }
  assert (Hnd : NoDup (GetMessageNumber <$> eventful_flight)).
  { apply (bool_decide_unpack _). vm_compute. exact I. }
  assert (H1 : Forall (λ msg, GetMessageNumber msg = 1 → is_launch msg = true)
                 eventful_flight).
  { repeat constructor; vm_compute; congruence. }
  assert (Hdisc : ∀ e msg, e ∈ eventful_flight → msg ∈ eventful_flight →
            is_explosion e = true →
            GetMessageNumber e < GetMessageNumber msg → is_launch msg = true).
  { intros e msg He Hmsg. unfold eventful_flight in He, Hmsg.
    repeat (apply elem_of_cons in He as [->|He]);
      try (by apply elem_of_nil in He); try (intros [=]);
      repeat (apply elem_of_cons in Hmsg as [->|Hmsg]);
      try (by apply elem_of_nil in Hmsg); vm_compute; congruence. }
  exact (proj1 (C5_permutation_equivalence "R" eventful_flight (reverse eventful_flight)
                  Hperm Hb Hnd H1 Hdisc)).
Defined.

(** * Further properties of the packages *)

(** ** Validation and the transition function *)

Lemma isValidMessageType_recognized msg :
  isValidMessageType (GetMessageType msg) = recognized msg.
Proof.
  unfold isValidMessageType, recognized. simpl. rewrite orb_false_r.
  by rewrite !orb_assoc.
Qed.

(** What a message that passes [ValidateRocketMessage] is known to hold. *)
Lemma ValidateRocketMessage_passes msg :
  ValidateRocketMessage msg = None →
  GetChannel msg ≠ "" ∧ 1 <= GetMessageNumber msg ∧ IsZero (GetMessageTime msg) = false ∧
  recognized msg = true ∧ accepted_intact msg = true ∧
  (is_launch msg = true → 0 <= LaunchSpeed (Message msg)).
Proof.
  unfold ValidateRocketMessage, accepted_intact, processMessageByType, is_launch,
    GetChannel, GetMessageNumber, GetMessageTime, GetMessageType.
  rewrite <- isValidMessageType_recognized.
  unfold isValidMessageType, GetMessageType. simpl.
  destruct (String.eqb_spec (Channel msg) "") as [|Hc]; [done|].
  destruct (Z.leb_spec (MessageNumber msg) 0); [done|].
  destruct (IsZero (MessageTime msg)); [done|].
  destruct (String.eqb (MessageType msg) MessageTypeRocketLaunched); simpl.
  { destruct (String.eqb (Type_ (Message msg)) ""); [done|].
    destruct (String.eqb (Mission (Message msg)) ""); [done|].
    destruct (Z.ltb_spec (LaunchSpeed (Message msg)) 0); [done|].
    intros _. repeat split; auto with lia. }
  destruct (String.eqb (MessageType msg) MessageTypeRocketSpeedIncreased); simpl.
  { destruct (By (Message msg) <=? 0); [done|].
    intros _. repeat split; auto with lia; by intros [=]. }
  destruct (String.eqb (MessageType msg) MessageTypeRocketSpeedDecreased); simpl.
  { destruct (By (Message msg) <=? 0); [done|].
    intros _. repeat split; auto with lia; by intros [=]. }
  destruct (String.eqb (MessageType msg) MessageTypeRocketExploded); simpl.
  { destruct (String.eqb (Reason (Message msg)) ""); [done|].
    intros _. repeat split; auto with lia; by intros [=]. }
  destruct (String.eqb (MessageType msg) MessageTypeRocketMissionChanged); simpl.
  { destruct (String.eqb (NewMission (Message msg)) ""); [done|].
    intros _. repeat split; auto with lia; by intros [=]. }
  done.
Qed.

(** The answer of [processMessageByType] to a message that passes its
    checks on a rocket that has not exploded. *)
Lemma accepted_answer r rk msg :
  accepted_intact msg = true →
  (processMessageByType r rk msg).2 = negb (Exploded rk) || is_launch msg.
Proof.
  unfold accepted_intact, processMessageByType, is_launch. simpl.
  destruct (Exploded rk); simpl.
  - destruct (String.eqb (GetMessageType msg) MessageTypeRocketLaunched); simpl; [|done].
    by destruct (_ || _).
  - repeat case_match; simpl; try done.
Qed.

(** ** The ways through [ProcessMessage] *)

Lemma process_in_sequence_case r ra rk msg :
  is_processed r (GetChannel msg) (GetMessageNumber msg) = false →
  working r msg ra rk →
  ingest_case r msg (process_in_sequence ra rk msg).1 (process_in_sequence ra rk msg).2.
Proof.
  intros Hdup Hw.
  assert (Hrk : rockets ra !! GetChannel msg = Some rk).
  { destruct Hw; [done|]. apply lookup_insert_eq. }
  unfold process_in_sequence.
  destruct (Z.eqb_spec (GetMessageNumber msg) (GoInt.add (LastProcessedMessageNumber rk) 1))
    as [Hn|Hn].
  - destruct (processMessageByType ra rk msg) as [[r1 rk1] ok] eqn:Hby. destruct ok.
    + rewrite (processPendingMessages_drain _ _
                 (advance rk1 (GetMessageNumber msg) (GetMessageTime msg)))
        by apply lookup_insert_eq.
      simpl. eapply ingest_applied; eauto. apply surjective_pairing.
    + apply processMessageByType_rejects in Hby as Hrej. destruct Hrej as [-> ->].
      simpl. by eapply ingest_rejected.
  - destruct (Z.gtb_spec (GetMessageNumber msg) (GoInt.add (LastProcessedMessageNumber rk) 1));
      simpl.
    + eapply ingest_buffered; eauto.
    + eapply ingest_stale; eauto. lia.
Qed.

Lemma ProcessMessage_case r msg :
  ingest_case r msg (ProcessMessage r msg).1 (ProcessMessage r msg).2.
Proof.
  unfold ProcessMessage. rewrite is_processed_init_maps.
  destruct (is_processed r _ _) eqn:Hdup; simpl.
  { by apply ingest_duplicate. }
  change (rockets (init_maps r (GetChannel msg))) with (rockets r).
  destruct (rockets r !! GetChannel msg) as [rk|] eqn:Hc.
  - apply process_in_sequence_case; [done|]. by apply working_found.
  - destruct (is_launch msg) eqn:Hl; simpl.
    + apply process_in_sequence_case; [done|]. by apply working_created.
    + by apply ingest_unborn.
Qed.

(** The repository in which the call works differs from the one it was
    given by the two inner maps of the channel, made if missing, and by the
    new record. *)
Lemma working_reads r msg ra rk :
  working r msg ra rk →
  rockets ra !! GetChannel msg = Some rk ∧
  (∀ d, d ≠ GetChannel msg → rockets ra !! d = rockets r !! d) ∧
  (∀ d, processed_of ra d = processed_of r d) ∧
  (∀ d, pending_of ra d = pending_of r d).
Proof.
  intros [rk' Hrk|Hnone Hl].
  - split; [done|]. split; [done|].
    split; intros d; [apply processed_of_init_maps|apply pending_of_init_maps].
  - split; [apply lookup_insert_eq|]. split.
    + intros d Hd. simpl. by rewrite lookup_insert_ne.
    + split; intros d.
      * change (processed_of (set_rocket ?a ?c ?b) d) with (processed_of a d).
        apply processed_of_init_maps.
      * change (pending_of (set_rocket ?a ?c ?b) d) with (pending_of a d).
        apply pending_of_init_maps.
Qed.

(** ** The first launch of a channel *)

(** A launch message numbered 1 with a type and a mission, ingested into the
    empty repository, is applied at once: whatever its launch speed. *)
Lemma first_launch msg :
  is_launch msg = true → GetMessageNumber msg = 1 →
  Type_ (Message msg) ≠ "" → Mission (Message msg) ≠ "" →
  (ProcessMessage NewRocketRepository msg).2 = true ∧
  GetRocket (ProcessMessage NewRocketRepository msg).1 (GetChannel msg) =
    Some {| ID := GetChannel msg;
            RType := Type_ (Message msg);
            Speed := LaunchSpeed (Message msg);
            RMission := Mission (Message msg);
            Exploded := false;
            RReason := "";
            CreatedAt := GetMessageTime msg;
            UpdatedAt := GetMessageTime msg;
            LastProcessedMessageNumber := 1 |}.
Proof.
  intros Hl Hn Hty Hmi. set (c := GetChannel msg).
  assert (Hpend : ∀ x, pending_of (init_maps NewRocketRepository c) x = ∅).
  { intros x. by rewrite pending_of_init_maps. }
  unfold ProcessMessage, GetRocket. fold c. rewrite is_processed_init_maps.
  change (is_processed NewRocketRepository c (GetMessageNumber msg)) with false.
  change (rockets (init_maps NewRocketRepository c)) with (∅ : gmap string RocketState).
  rewrite lookup_empty, Hl. simpl.
  unfold process_in_sequence. fold c. rewrite Hn.
  change (1 =? GoInt.add (LastProcessedMessageNumber (new_rocket c)) 1) with true.
  unfold processMessageByType. fold (is_launch msg). rewrite Hl.
  apply String.eqb_neq in Hty, Hmi. rewrite Hty, Hmi. simpl.
  rewrite (processPendingMessages_drain _ c _) by apply lookup_insert_eq.
  rewrite drain_unfold. cbv zeta.
  change (pending_of (set_rocket (set_processed (set_rocket ?a c ?x) c 1) c ?b) c)
    with (pending_of a c).
  rewrite Hpend, lookup_empty. simpl. rewrite lookup_insert_eq. done.
Qed.

(** The converse: what [ValidateRocketMessage] asks is no more than that. *)
Lemma ValidateRocketMessage_accepts msg :
  GetChannel msg ≠ "" → 1 <= GetMessageNumber msg → IsZero (GetMessageTime msg) = false →
  accepted_intact msg = true →
  (is_launch msg = true → 0 <= LaunchSpeed (Message msg)) →
  ValidateRocketMessage msg = None.
Proof.
  unfold ValidateRocketMessage, accepted_intact, processMessageByType, is_launch,
    isValidMessageType, GetChannel, GetMessageNumber, GetMessageTime, GetMessageType.
  simpl. intros Hc Hn Ht Hacc Hsp.
  apply String.eqb_neq in Hc. rewrite Hc, Ht.
  destruct (Z.leb_spec (MessageNumber msg) 0); [lia|].
  destruct (String.eqb (MessageType msg) MessageTypeRocketLaunched); simpl in *.
  { destruct (String.eqb (Type_ (Message msg)) ""); [done|].
    destruct (String.eqb (Mission (Message msg)) ""); [done|].
    destruct (Z.ltb_spec (LaunchSpeed (Message msg)) 0); [|done].
    specialize (Hsp eq_refl). lia. }
  destruct (String.eqb (MessageType msg) MessageTypeRocketSpeedIncreased); simpl in *.
  { by destruct (By (Message msg) <=? 0). }
  destruct (String.eqb (MessageType msg) MessageTypeRocketSpeedDecreased); simpl in *.
  { by destruct (By (Message msg) <=? 0). }
  destruct (String.eqb (MessageType msg) MessageTypeRocketExploded); simpl in *.
  { by destruct (String.eqb (Reason (Message msg)) ""). }
  destruct (String.eqb (MessageType msg) MessageTypeRocketMissionChanged); simpl in *.
  { by destruct (String.eqb (NewMission (Message msg)) ""). }
  done.
Qed.

(** X1: [ValidateRocketMessage] asks what [processMessageByType] asks of
    the content of a message for a rocket that has not exploded, and four
    things more: a channel, a positive number, a time that is not the zero
    time, and a launch speed that is not negative.  So the transition
    refuses a message that passes the validation only when the rocket has
    exploded and the message is not a launch. *)
Theorem validated_message_passes_transition r rk msg :
  (ValidateRocketMessage msg = None ↔
   GetChannel msg ≠ "" ∧ 1 <= GetMessageNumber msg ∧
   IsZero (GetMessageTime msg) = false ∧
   (processMessageByType NewRocketRepository (new_rocket "") msg).2 = true ∧
   (is_launch msg = true → 0 <= LaunchSpeed (Message msg))) ∧
  (ValidateRocketMessage msg = None →
   (processMessageByType r rk msg).2 = negb (Exploded rk) || is_launch msg).
Proof.
  split; [split|].
  - intros Hv. by apply ValidateRocketMessage_passes in Hv as (? & ? & ? & _ & ? & ?).
  - intros (? & ? & ? & ? & ?). by apply ValidateRocketMessage_accepts.
  - intros Hv. apply accepted_answer.
    by apply ValidateRocketMessage_passes in Hv as (_ & _ & _ & _ & ? & _).
Qed.

Lemma validated_message_passes_transition_witness :
  (processMessageByType NewRocketRepository exploded_rocket
     (launch "R" 3 12 "Atlas" "LUNA" 800)).2 = true.
Proof.
  apply (validated_message_passes_transition NewRocketRepository exploded_rocket
           (launch "R" 3 12 "Atlas" "LUNA" 800)).
  vm_compute. reflexivity.
Defined.

(** X2: the launch speed is checked by [ValidateRocketMessage] only.  A
    launch message with a negative launch speed and nothing else wrong is
    refused by the validation for the field [launchSpeed], and
    [HandleMessage] answers 400 and leaves the repository as it is; given
    to [ProcessMessage] directly, as message 1 of a new channel, it is
    applied and the rocket has the negative speed. *)
Theorem negative_launch_speed_is_refused_by_validation_only r msg :
  is_launch msg = true → GetChannel msg ≠ "" → GetMessageNumber msg = 1 →
  IsZero (GetMessageTime msg) = false →
  Type_ (Message msg) ≠ "" → Mission (Message msg) ≠ "" →
  LaunchSpeed (Message msg) < 0 →
  ValidateRocketMessage msg =
    Some (NewValidationError "launchSpeed" "launch speed cannot be negative" []) ∧
  (HandleMessage r (decoded msg)).1 = r ∧
  StatusCode (HandleMessage r (decoded msg)).2 = StatusBadRequest ∧
  (ProcessMessage NewRocketRepository msg).2 = true ∧
  ∃ rocket, GetRocket (ProcessMessage NewRocketRepository msg).1 (GetChannel msg)
              = Some rocket ∧
            Speed rocket = LaunchSpeed (Message msg).
Proof.
  intros Hl Hc Hn Ht Hty Hmi Hsp.
  assert (Hv : ValidateRocketMessage msg =
    Some (NewValidationError "launchSpeed" "launch speed cannot be negative" [])).
  { pose proof Hl as Hl'. pose proof Hc as Hc'. pose proof Hty as Hty'.
    pose proof Hmi as Hmi'. pose proof Hn as Hn'. pose proof Ht as Ht'.
    unfold ValidateRocketMessage, isValidMessageType.
    unfold is_launch, GetChannel, GetMessageNumber, GetMessageTime, GetMessageType
      in Hl', Hc', Hn', Ht'.
    apply String.eqb_neq in Hc', Hty', Hmi'. simpl.
    rewrite Hc', Hn', Ht', !Hl', Hty', Hmi'. simpl.
    destruct (Z.ltb_spec (LaunchSpeed (Message msg)) 0); [done|lia]. }
  split; [done|]. unfold HandleMessage. rewrite Hv. simpl.
  split; [done|]. split; [done|].
  destruct (first_launch msg Hl Hn Hty Hmi) as [Hok Hrk].
  split; [done|]. eexists. split; [exact Hrk|done].
Qed.

Lemma negative_launch_speed_is_refused_by_validation_only_witness :
  ∃ rocket,
    GetRocket (ProcessMessage NewRocketRepository
                 (launch "R" 1 10 "Falcon-9" "ARTEMIS" (-500))).1 "R" = Some rocket ∧
    Speed rocket = -500.
Proof.
  apply (negative_launch_speed_is_refused_by_validation_only NewRocketRepository
           (launch "R" 1 10 "Falcon-9" "ARTEMIS" (-500))); vm_compute; congruence.
Defined.

(** ** Rocket ids on the query paths *)

Lemma accepted_launch msg :
  is_launch msg = true → accepted_intact msg = true →
  Type_ (Message msg) ≠ "" ∧ Mission (Message msg) ≠ "".
Proof.
  unfold accepted_intact, processMessageByType, is_launch. simpl. intros ->.
  destruct (String.eqb_spec (Type_ (Message msg)) ""),
    (String.eqb_spec (Mission (Message msg)) ""); simpl; done.
Qed.

(** [ValidateRocketID] accepts the ids of three bytes and more. *)
Lemma ValidateRocketID_passes rocketID :
  ValidateRocketID rocketID = None ↔ (3 <= String.length rocketID)%nat.
Proof.
  unfold ValidateRocketID.
  destruct (String.eqb_spec rocketID "") as [->|Hne]; simpl.
  { split; [done|lia]. }
  destruct (Nat.ltb_spec (String.length rocketID) 3); split; (done || lia).
Qed.

(** X3: a channel name of one or two bytes is accepted by [HandleMessage],
    which launches the rocket, and the rocket is stored and listed; but
    [HandleGetRocket] and [HandleDebugRocket] answer 400 for that id in
    every state of the repository, since [ValidateRocketID] refuses ids
    shorter than three bytes. *)
Theorem short_rocket_id_is_never_served o msg :
  ValidateRocketMessage msg = None → is_launch msg = true →
  GetMessageNumber msg = 1 → (String.length (GetChannel msg) < 3)%nat →
  StatusCode (HandleMessage NewRocketRepository (decoded msg)).2 = StatusOK ∧
  is_Some (GetRocket (HandleMessage NewRocketRepository (decoded msg)).1 (GetChannel msg)) ∧
  GetChannel msg
    ∈ SID <$> GetAllRockets o (HandleMessage NewRocketRepository (decoded msg)).1 ∧
  ∀ r r', StatusCode (HandleGetRocket r (GetChannel msg)) = StatusBadRequest ∧
          StatusCode (HandleDebugRocket o r r' (GetChannel msg)) = StatusBadRequest.
Proof.
  intros Hv Hl Hn Hlen.
  pose proof (ValidateRocketMessage_passes msg Hv) as (_ & _ & _ & _ & Hacc & _).
  destruct (accepted_launch msg Hl Hacc) as [Hty Hmi].
  destruct (first_launch msg Hl Hn Hty Hmi) as [Hok Hrk].
  unfold HandleMessage. rewrite Hv.
  destruct (ProcessMessage NewRocketRepository msg) as [r' ok]. simpl in *. subst ok.
  simpl. split; [done|]. split; [by rewrite Hrk|]. split.
  - apply list_elem_of_fmap. eexists. split; [|by eapply GetAllRockets_lists]. done.
  - intros r r2. unfold HandleGetRocket, HandleDebugRocket.
    destruct (ValidateRocketID (GetChannel msg)) eqn:Hid; [done|].
    apply ValidateRocketID_passes in Hid. lia.
Qed.

Lemma short_rocket_id_is_never_served_witness :
  is_Some (GetRocket launched_sample "R") ∧
  StatusCode (HandleGetRocket launched_sample "R") = StatusBadRequest.
Proof.
  assert (Hv : ValidateRocketMessage (launch "R" 1 10 "Falcon-9" "ARTEMIS" 500) = None)
    by (vm_compute; reflexivity).
  assert (Hl : is_launch (launch "R" 1 10 "Falcon-9" "ARTEMIS" 500) = true)
    by (vm_compute; reflexivity).
  assert (Hn : GetMessageNumber (launch "R" 1 10 "Falcon-9" "ARTEMIS" 500) = 1)
    by reflexivity.
  assert (Hlen : Nat.lt (String.length (GetChannel (launch "R" 1 10 "Falcon-9" "ARTEMIS" 500))) 3)
    by (vm_compute; lia).
  pose proof (short_rocket_id_is_never_served order_as_stored
                (launch "R" 1 10 "Falcon-9" "ARTEMIS" 500) Hv Hl Hn Hlen)
    as (_ & Hrk & _ & Hget).
  split; [exact Hrk|exact (proj1 (Hget launched_sample launched_sample))].
Defined.

(** ** The comparison of [SortRockets] *)

Lemma ascii_lt_trans a b c :
  Ascii.compare a b = Lt → Ascii.compare b c = Lt → Ascii.compare a c = Lt.
Proof. unfold Ascii.compare. rewrite !N.compare_lt_iff. lia. Qed.

Lemma string_compare_refl s : String.compare s s = Eq.
Proof.
  pose proof (String.compare_antisym s s) as H.
  destruct (String.compare s s); simpl in H; congruence.
Qed.

Lemma string_lt_trans s1 : ∀ s2 s3,
  String.compare s1 s2 = Lt → String.compare s2 s3 = Lt → String.compare s1 s3 = Lt.
Proof.
  induction s1 as [|a s1 IH]; intros [|b s2] [|c s3]; simpl; try done.
  destruct (Ascii.compare a b) eqn:Hab; try done;
    destruct (Ascii.compare b c) eqn:Hbc; try done.
  - apply Ascii.compare_eq_iff in Hab as ->. apply Ascii.compare_eq_iff in Hbc as ->.
    pose proof (Ascii.compare_antisym c c) as H.
    destruct (Ascii.compare c c); simpl in H; try congruence. apply IH.
  - apply Ascii.compare_eq_iff in Hab as ->. by rewrite Hbc.
  - apply Ascii.compare_eq_iff in Hbc as ->. by rewrite Hab.
  - by rewrite (ascii_lt_trans _ _ _ Hab Hbc).
Qed.

(** The order of Go strings, after any key function. *)
Lemma strict_weak_string {A : Type} (key : A → string) :
  strict_weak (λ a b, String.ltb (key a) (key b)).
Proof.
  unfold strict_weak, String.ltb. split; [|split].
  - intros a. by rewrite string_compare_refl.
  - intros a b c.
    destruct (String.compare (key a) (key b)) eqn:Hab; try done.
    destruct (String.compare (key b) (key c)) eqn:Hbc; try done.
    by rewrite (string_lt_trans _ _ _ Hab Hbc).
  - intros a b c Hab Hbc.
    destruct (String.compare (key a) (key c)) eqn:Hac; try done.
    destruct (String.compare (key a) (key b)) eqn:Hab'; try done.
    + apply String.compare_eq_iff in Hab'. rewrite <- Hab', Hac in Hbc. done.
    + assert (String.compare (key b) (key a) = Lt) as Hba.
      { rewrite String.compare_antisym, Hab'. done. }
      by rewrite (string_lt_trans _ _ _ Hba Hac) in Hbc.
Qed.

Lemma strict_weak_Z {A : Type} (key : A → Z) : strict_weak (λ a b, key a <? key b).
Proof.
  unfold strict_weak. split; [|split]; intros *; rewrite ?Z.ltb_lt, ?Z.ltb_ge; lia.
Qed.

(** Rockets that have not exploded first, then by the order [R]. *)
Lemma strict_weak_exploded (R : RocketSummary → RocketSummary → bool) :
  strict_weak R →
  strict_weak (λ a b, if negb (Bool.eqb (SExploded a) (SExploded b))
                      then negb (SExploded a) && SExploded b else R a b).
Proof.
  intros (Hirr & Htr & Hntr). split; [|split].
  - intros a. rewrite Bool.eqb_reflx. simpl. apply Hirr.
  - intros a b c.
    destruct (SExploded a), (SExploded b), (SExploded c); simpl; try done; apply Htr.
  - intros a b c.
    destruct (SExploded a), (SExploded b), (SExploded c); simpl; try done; apply Hntr.
Qed.

Lemma less_ascending ToLower sortBy sortOrder :
  sortOrder ≠ "desc" → strict_weak (less ToLower sortBy sortOrder).
Proof.
  intros Hasc. unfold less. apply String.eqb_neq in Hasc. rewrite Hasc.
  repeat case_match;
    first [apply (strict_weak_string (λ a, ToLower (SID a)))
          |apply (strict_weak_string (λ a, ToLower (SType a)))
          |apply (strict_weak_string (λ a, ToLower (SMission a)))
          |apply (strict_weak_Z SSpeed)
          |apply (strict_weak_Z SUpdatedAt)
          |apply strict_weak_exploded, (strict_weak_string (λ a, ToLower (SID a)))].
Qed.

(** X4: for every sort field, known or not, and every sort order other than
    [desc], the function that [SortRockets] hands to [sort.Slice] is a
    strict weak order on the summaries: no rocket is before itself, being
    before is transitive, and so is not being before.  This holds whatever
    [strings.ToLower] does to the strings. *)
Theorem less_is_strict_weak_when_ascending ToLower sortBy sortOrder :
  sortOrder ≠ "desc" →
  strict_weak (less ToLower (default_sortBy sortBy) (default_sortOrder sortOrder)).
Proof.
  intros Hasc. apply less_ascending. unfold default_sortOrder.
  by destruct (String.eqb sortOrder "").
Qed.

Lemma less_is_strict_weak_when_ascending_witness :
  strict_weak (less (λ s, s) "exploded" "asc").
Proof.
  apply (less_is_strict_weak_when_ascending (λ s, s) "exploded" "asc"). discriminate.
Defined.

(** X5: for the sort order [desc] the function handed to [sort.Slice] is
    the negation of the ascending one.  It is not a strict order: every
    rocket is before itself, and of any two rockets at least one is before
    the other, both when their keys are equal. *)
Theorem less_descending_is_reflexive ToLower sortBy a b :
  less ToLower sortBy "desc" a b = negb (less ToLower sortBy "asc" a b) ∧
  less ToLower sortBy "desc" a a = true ∧
  (less ToLower sortBy "desc" a b = true ∨ less ToLower sortBy "desc" b a = true).
Proof.
  destruct (less_ascending ToLower sortBy "asc" ltac:(discriminate)) as (Hirr & Htr & _).
  assert (Hneg : ∀ x y, less ToLower sortBy "desc" x y
                        = negb (less ToLower sortBy "asc" x y)) by done.
  split; [apply Hneg|]. split.
  - by rewrite Hneg, Hirr.
  - rewrite !Hneg.
    destruct (less ToLower sortBy "asc" a b) eqn:Hab; [|by left].
    destruct (less ToLower sortBy "asc" b a) eqn:Hba; [|by right].
    pose proof (Hirr a) as Ha. by rewrite (Htr a b a Hab Hba) in Ha.
Qed.

(** X6: [ValidateSortBy] accepts the empty string and the six field names,
    [ValidateSortOrder] the empty string, [asc] and [desc], in this spelling
    (a key that is not in the map reads as [false]), and nothing else.  What
    they refuse, [SortRockets] would not refuse: with a field that is not
    valid it compares by id, and with an order that is not valid it sorts
    ascending. *)
Theorem sort_parameters_accepted field order :
  (ValidateSortBy field = true ↔
   field ∈ [""; "id"; "type"; "speed"; "mission"; "exploded"; "updatedAt"]) ∧
  (ValidateSortOrder order = true ↔ order ∈ [""; "asc"; "desc"]) ∧
  (ValidateSortBy field = false →
   ∀ ToLower sortOrder a b,
     less ToLower (default_sortBy field) sortOrder a b = less ToLower "id" sortOrder a b) ∧
  (ValidateSortOrder order = false →
   ∀ ToLower sortBy a b,
     less ToLower sortBy (default_sortOrder order) a b = less ToLower sortBy "asc" a b).
Proof.
  assert (Hby : ValidateSortBy field = true ↔
    field ∈ [""; "id"; "type"; "speed"; "mission"; "exploded"; "updatedAt"]).
  { unfold ValidateSortBy, ValidSortOptions. rewrite !elem_of_cons, !elem_of_nil. simpl.
    destruct (String.eqb_spec field "") as [->|Hne]; [by split; auto|].
    rewrite !lookup_insert, lookup_empty.
    repeat case_decide; subst; simpl; split; auto 10; naive_solver. }
  assert (Hord : ValidateSortOrder order = true ↔ order ∈ [""; "asc"; "desc"]).
  { unfold ValidateSortOrder, ValidSortOrders. rewrite !elem_of_cons, !elem_of_nil. simpl.
    destruct (String.eqb_spec order "") as [->|Hne]; [by split; auto|].
    rewrite !lookup_insert, lookup_empty.
    repeat case_decide; subst; simpl; split; auto 10; naive_solver. }
  split; [done|]. split; [done|]. split.
  - intros Hno ToLower sortOrder a b.
    assert (Hnot : field ∉ [""; "id"; "type"; "speed"; "mission"; "exploded"; "updatedAt"]).
    { intros Hin. apply Hby in Hin. congruence. }
    rewrite !not_elem_of_cons in Hnot.
    destruct Hnot as (H0 & H1 & H2 & H3 & H4 & H5 & H6 & _).
    unfold default_sortBy, less.
    apply String.eqb_neq in H0, H1, H2, H3, H4, H5, H6.
    by rewrite H0, H1, H2, H3, H4, H5, H6.
  - intros Hno ToLower sortBy a b.
    assert (Hnot : order ∉ [""; "asc"; "desc"]).
    { intros Hin. apply Hord in Hin. congruence. }
    rewrite !not_elem_of_cons in Hnot. destruct Hnot as (H0 & H1 & H2 & _).
    unfold default_sortOrder, less.
    apply String.eqb_neq in H0, H2. by rewrite H0, H2.
Qed.

(** ** The chain of middlewares *)

Lemma chain_from_app {H : Type} (ms1 ms2 : list (H → H)) (h : H) :
  chain_from (ms1 ++ ms2) (length ms1) h = chain_from ms1 (length ms1) h.
Proof.
  assert (Hgen : ∀ n, (n <= length ms1)%nat →
            ∀ h, chain_from (ms1 ++ ms2) n h = chain_from ms1 n h).
  { induction n as [|n IH]; intros Hn h'; [done|]. simpl.
    rewrite lookup_app_l by lia. destruct (ms1 !! n); [|done]. apply IH. lia. }
  by apply Hgen.
Qed.

(** X7: [ChainMiddleware] never reads outside of its list, and wraps the
    handler from the last middleware to the first: the first one listed is
    the outermost. *)
Theorem ChainMiddleware_first_is_outermost {H : Type} (h : H) (middlewares : list (H → H)) :
  ChainMiddleware h middlewares = Some (foldr (λ m acc, m acc) h middlewares).
Proof.
  unfold ChainMiddleware. revert h.
  induction middlewares as [|m ms IH] using rev_ind; intros h; [done|].
  rewrite length_app, Nat.add_1_r. simpl.
  rewrite lookup_app_r, Nat.sub_diag by lia. simpl.
  rewrite chain_from_app, IH, foldr_app. done.
Qed.

(** ** Records and their ids *)

Lemma working_named r msg ra rk : named r → working r msg ra rk → ID rk = GetChannel msg.
Proof. intros Hn [rk' Hrk|_ _]; [by apply Hn|done]. Qed.

(** The rocket that a call leaves on the channel of its message is the one
    it worked on, or the one that the drain left. *)
Lemma ProcessMessage_rocket r msg rk' :
  rockets (ProcessMessage r msg).1 !! GetChannel msg = Some rk' →
  rockets r !! GetChannel msg = Some rk' ∨
  ∃ ra rk, working r msg ra rk ∧
    (rk' = rk ∨
     ∃ r1 rk1 r',
       GetMessageNumber msg = GoInt.add (LastProcessedMessageNumber rk) 1 ∧
       processMessageByType ra rk msg = (r1, rk1, true) ∧
       drain (GetChannel msg)
         (set_rocket (set_processed r1 (GetChannel msg) (GetMessageNumber msg))
            (GetChannel msg) (advance rk1 (GetMessageNumber msg) (GetMessageTime msg)))
         (advance rk1 (GetMessageNumber msg) (GetMessageTime msg)) = (r', rk')).
Proof.
  pose proof (ProcessMessage_case r msg) as Hcase.
  destruct (ProcessMessage r msg) as [r2 ok]. simpl in *.
  destruct Hcase as [Hdup|Hdup Hnone Hl|ra rk r1 rk1 r' rk2 Hdup Hw Hn Hby Hdrain
                    |ra rk Hdup Hw Hn Hby|ra rk Hdup Hw Hn|ra rk Hdup Hw Hn]; simpl.
  - auto.
  - auto.
  - rewrite lookup_insert_eq. intros [= <-]. right. exists ra, rk. split; [done|].
    right. eauto 10.
  - rewrite lookup_insert_eq. intros [= <-]. right. exists ra, rk. auto.
  - destruct (working_reads _ _ _ _ Hw) as (Hrk & _). rewrite Hrk. intros [= <-].
    right. exists ra, rk. auto.
  - destruct (working_reads _ _ _ _ Hw) as (Hrk & _). rewrite Hrk. intros [= <-].
    right. exists ra, rk. auto.
Qed.

Lemma named_step r msg : named r → named (ProcessMessage r msg).1.
Proof.
  intros Hn d rk' Hd. destruct (decide (d = GetChannel msg)) as [->|Hne].
  - apply ProcessMessage_rocket in Hd
      as [Hd|(ra & rk & Hw & [->|(r1 & rk1 & r' & _ & Hby & Hdrain)])].
    + by apply Hn.
    + by eapply working_named.
    + apply pending_loop_frame in Hdrain as (_ & -> & _). simpl.
      apply processMessageByType_frame in Hby as (_ & _ & _ & -> & _).
      by eapply working_named.
  - destruct (ProcessMessage_other r msg d Hne) as (Hr & _). rewrite Hr in Hd.
    by apply Hn.
Qed.

Lemma named_run msgs r : named r → named (ingest_all r msgs).
Proof.
  revert r. induction msgs as [|msg msgs IH]; intros r Hr; [done|].
  simpl. apply IH. by apply named_step.
Qed.

Lemma named_new : named NewRocketRepository.
Proof. intros c rk. simpl. by rewrite lookup_empty. Qed.

(** X8: in every state reached from the empty repository, by any messages
    at all, the record stored for a channel carries the name of the channel
    as its [ID]: the key under which the [RocketExploded] case looks up the
    pending buffer to sweep is the channel of the rocket. *)
Theorem rocket_is_stored_under_its_id msgs c rocket :
  GetRocket (ingest_all NewRocketRepository msgs) c = Some rocket → ID rocket = c.
Proof. apply named_run, named_new. Qed.

Lemma rocket_is_stored_under_its_id_witness : ID exploded_rocket = "R".
Proof.
  apply (rocket_is_stored_under_its_id
           [launch "R" 1 10 "Falcon-9" "ARTEMIS" 500; explode "R" 2 11 "X"] "R").
  vm_compute. reflexivity.
Defined.

(** ** A call and the other channels *)





(** ** The listing of the rockets *)

Lemma named_ids r :
  named r → ID <$> (map_to_list (rockets r)).*2 = (map_to_list (rockets r)).*1.
Proof.
  intros Hn.
  assert (Hall : Forall (λ kv : string * RocketState, ID kv.2 = kv.1)
                   (map_to_list (rockets r))).
  { apply Forall_forall. intros [c rk] Hin. apply elem_of_map_to_list in Hin.
    by apply Hn. }
  induction Hall as [|[c rk] l Hkv _ IH]; [done|].
  rewrite !fmap_cons, IH. simpl in *. by rewrite Hkv.
Qed.

Lemma GetAllRockets_ids o r :
  named r → SID <$> GetAllRockets o r ≡ₚ (map_to_list (rockets r)).*1.
Proof.
  intros Hn. unfold GetAllRockets. rewrite <- list_fmap_compose.
  rewrite (visit_perm o). by rewrite <- (named_ids r Hn).
Qed.

(** X10: in a state reached from the empty repository, [GetAllRockets]
    returns one summary for each stored rocket, no two of them with the same
    id, and the ids are the channels on which a launch message has been
    ingested, whatever the order in which the map is visited. *)
Theorem listing_has_one_summary_per_launched_channel o msgs :
  NoDup (SID <$> GetAllRockets o (ingest_all NewRocketRepository msgs)) ∧
  length (GetAllRockets o (ingest_all NewRocketRepository msgs))
    = size (rockets (ingest_all NewRocketRepository msgs)) ∧
  ∀ c, c ∈ SID <$> GetAllRockets o (ingest_all NewRocketRepository msgs) ↔
       ∃ msg, msg ∈ msgs ∧ GetChannel msg = c ∧ is_launch msg = true.
Proof.
  set (r := ingest_all NewRocketRepository msgs).
  pose proof (GetAllRockets_ids o r (named_run msgs _ named_new)) as Hids.
  split; [|split].
  - rewrite Hids. apply NoDup_fst_map_to_list.
  - unfold GetAllRockets. rewrite length_fmap, (visit_perm o), length_fmap.
    apply length_map_to_list.
  - intros c. rewrite Hids.
    pose proof (ingest_all_rockets msgs NewRocketRepository c unborn_clean_new) as Hiff.
    fold r in Hiff. rewrite list_elem_of_fmap. split.
    + intros ([c' rk] & -> & Hin). apply elem_of_map_to_list in Hin.
      destruct (proj1 Hiff) as [[rk' Hrk']|Hex]; [simpl; eauto| |done].
      simpl in Hrk'. by rewrite lookup_empty in Hrk'.
    + intros Hex. destruct (proj2 Hiff (or_intror Hex)) as [rk Hrk].
      exists (c, rk). split; [done|]. by apply elem_of_map_to_list.
Qed.

(** ** The debug listing *)



(** ** The processed numbers and the cursor *)

Lemma logged_new c : logged (new_rocket c) ∅.
Proof. split; [simpl; lia|done]. Qed.

Lemma logged_apply rk rk1 proc t :
  0 <= LastProcessedMessageNumber rk →
  (∀ k, is_Some (proc !! k) → 1 <= k <= LastProcessedMessageNumber rk) →
  logged rk proc →
  logged (advance rk1 (LastProcessedMessageNumber rk + 1) t)
         (<[LastProcessedMessageNumber rk + 1 := true]> proc).
Proof.
  intros Hl Hkeys [Hall Hsize]. split; simpl.
  - intros k Hk. destruct (decide (k = LastProcessedMessageNumber rk + 1)) as [->|Hne].
    + apply lookup_insert_eq.
    + rewrite lookup_insert_ne by done. apply Hall. lia.
  - rewrite map_size_insert_None; [lia|].
    apply eq_None_not_Some. intros Hk. apply Hkeys in Hk. lia.
Qed.

(** The loop keeps the processed numbers in step with the cursor, which it
    never moves back. *)
Lemma pending_loop_logged fuel c r rk r' rk' :
  pending_loop fuel c r rk = (r', rk') →
  behind false 0 rk (processed_of r c) (pending_of r c) →
  logged rk (processed_of r c) →
  logged rk' (processed_of r' c) ∧
  LastProcessedMessageNumber rk <= LastProcessedMessageNumber rk'.
Proof.
  revert fuel c r rk r' rk'.
  refine (pending_loop_ind (λ c r rk r' rk',
            behind false 0 rk (processed_of r c) (pending_of r c) →
            logged rk (processed_of r c) →
            logged rk' (processed_of r' c) ∧
            LastProcessedMessageNumber rk <= LastProcessedMessageNumber rk') _ _ _ _).
  - intros c r rk _ Hlog. split; [done|lia].
  - intros c r rk msg r' rk' _ _ IH Hb Hlog. apply IH; [|done].
    rewrite pending_of_delete_pending, decide_True by done.
    eapply behind_shrink; [apply delete_subseteq|done].
  - intros c r rk msg r1 rk1 r' rk' Hnext Hgate Hby IH Hb Hlog.
    assert (Hone : pending_loop 1 c r rk =
              (delete_pending
                 (set_processed r1 c (GoInt.add (LastProcessedMessageNumber rk) 1)) c
                 (GoInt.add (LastProcessedMessageNumber rk) 1),
               advance rk1 (GoInt.add (LastProcessedMessageNumber rk) 1)
                 (GetMessageTime msg))).
    { rewrite pending_loop_S, Hnext, Hgate, Hby. reflexivity. }
    pose proof (pending_loop_behind false _ _ _ _ _ _ Hone Hb) as Hb'.
    destruct Hb as (Hl & _ & Hkeys).
    apply processMessageByType_frame in Hby as (_ & Hp1 & _).
    rewrite add_one_exact in * by done.
    destruct IH as [Hlog' Hle]; [done| |].
    + change (processed_of (delete_pending ?a c ?n) c) with (processed_of a c).
      rewrite processed_of_set_processed, decide_True by done.
      unfold processed_of at 1. rewrite Hp1. fold (processed_of r c).
      apply logged_apply; [lia|done|done].
    + split; [done|]. simpl in Hle. lia.
  - intros c r rk msg _ _ _ _ Hlog. split; [done|lia].
Qed.

(** The rocket a call works on, in a repository that keeps the invariant. *)
Lemma working_logged r msg ra rk :
  log_inv r → working r msg ra rk →
  behind false 1 rk (processed_of r (GetChannel msg)) (pending_of r (GetChannel msg)) ∧
  logged rk (processed_of r (GetChannel msg)).
Proof.
  intros [Hinv Hlog] [rk' Hrk|Hnone _].
  - specialize (Hinv (GetChannel msg)). rewrite Hrk in Hinv. split; [done|].
    by apply Hlog.
  - specialize (Hinv (GetChannel msg)). rewrite Hnone in Hinv.
    destruct Hinv as (_ & Hkeys & ->). split; [|apply logged_new].
    split; [vm_compute; split; [discriminate|done]|]. split.
    + intros k Hk. split; [done|by apply Hkeys].
    + intros k. rewrite lookup_empty. by intros [? [=]].
Qed.

(** A call on a message numbered below the largest [int] keeps the
    invariant, removes no rocket and moves no cursor back. *)
Lemma log_inv_step r msg :
  log_inv r → GetMessageNumber msg < GoInt.max_int →
  log_inv (ProcessMessage r msg).1 ∧
  ∀ d rk, rockets r !! d = Some rk →
    ∃ rk', rockets (ProcessMessage r msg).1 !! d = Some rk' ∧
           LastProcessedMessageNumber rk <= LastProcessedMessageNumber rk'.
Proof.
  intros Hinv Hmax.
  assert (Hcur : cursor_inv false (ProcessMessage r msg).1).
  { apply cursor_inv_step; [apply Hinv|done|done]. }
  assert (Hsame : ∀ rk2,
    rockets (ProcessMessage r msg).1 !! GetChannel msg = Some rk2 →
    logged rk2 (processed_of (ProcessMessage r msg).1 (GetChannel msg)) ∧
    ∀ rk, rockets r !! GetChannel msg = Some rk →
          LastProcessedMessageNumber rk <= LastProcessedMessageNumber rk2).
  { pose proof (ProcessMessage_case r msg) as Hcase.
    destruct (ProcessMessage r msg) as [r2 ok]. simpl in *. clear Hcur.
    destruct Hcase as [Hdup|Hdup Hnone Hl|ra rk r1 rk1 r' rk2 Hdup Hw Hn Hby Hdrain
                      |ra rk Hdup Hw Hn Hby|ra rk Hdup Hw Hn|ra rk Hdup Hw Hn];
      intros rk3 Hrk3.
    - rewrite processed_of_init_maps. simpl in Hrk3. split.
      + by apply Hinv.
      + intros rk Hrk. rewrite Hrk in Hrk3. injection Hrk3 as <-. lia.
    - simpl in Hrk3. by rewrite Hnone in Hrk3.
    - destruct (working_logged _ _ _ _ Hinv Hw) as [(Hl & Hpend & Hkeys) Hlog].
      destruct (working_reads _ _ _ _ Hw) as (Hrk & _ & Hproc & Hpd).
      simpl in Hrk3. rewrite lookup_insert_eq in Hrk3. injection Hrk3 as <-.
      change (processed_of (set_rocket r' ?c rk2) ?d) with (processed_of r' d).
      pose proof (processMessageByType_pending _ _ _ _ _ _ (GetChannel msg) Hby) as Hsub.
      apply processMessageByType_frame in Hby as (_ & Hp1 & _).
      rewrite add_one_exact in Hn by done.
      apply pending_loop_logged in Hdrain as [Hlog' Hle].
      + split; [done|]. intros rk0 Hrk0. simpl in Hle.
        destruct Hw as [rk' Hrk'|Hnone _]; [|by rewrite Hnone in Hrk0].
        rewrite Hrk' in Hrk0. injection Hrk0 as <-. lia.
      + change (processed_of (set_rocket ?a ?c ?b) ?d) with (processed_of a d).
        change (pending_of (set_rocket (set_processed r1 ?c ?n) ?c ?b) ?d)
          with (pending_of r1 d).
        rewrite processed_of_set_processed, decide_True by done.
        unfold processed_of at 1. rewrite Hp1. fold (processed_of ra (GetChannel msg)).
        rewrite Hproc. split; [simpl; lia|]. split.
        * intros k [m Hk]. eapply lookup_weaken in Hk; [|apply Hsub].
          rewrite Hpd in Hk. split; [done|]. apply Hpend. eauto.
        * intros k. rewrite lookup_insert_is_Some'. simpl. intros [<-|Hk]; [lia|].
          apply Hkeys in Hk. lia.
      + change (processed_of (set_rocket ?a ?c ?b) ?d) with (processed_of a d).
        rewrite processed_of_set_processed, decide_True by done.
        unfold processed_of at 1. rewrite Hp1. fold (processed_of ra (GetChannel msg)).
        rewrite Hproc, Hn. apply logged_apply; [lia|done|done].
    - destruct (working_logged _ _ _ _ Hinv Hw) as [_ Hlog].
      destruct (working_reads _ _ _ _ Hw) as (Hrk & _ & Hproc & _).
      simpl in Hrk3. rewrite lookup_insert_eq in Hrk3. injection Hrk3 as <-.
      change (processed_of (set_rocket ra ?c rk) ?d) with (processed_of ra d).
      rewrite Hproc. split; [done|]. intros rk0 Hrk0.
      destruct Hw as [rk' Hrk'|Hnone _]; [|by rewrite Hnone in Hrk0].
      rewrite Hrk' in Hrk0. injection Hrk0 as <-. lia.
    - destruct (working_logged _ _ _ _ Hinv Hw) as [_ Hlog].
      destruct (working_reads _ _ _ _ Hw) as (Hrk & _ & Hproc & _).
      simpl in Hrk3. rewrite Hrk in Hrk3. injection Hrk3 as <-.
      change (processed_of (set_pending ra ?c ?n ?m) ?d) with (processed_of ra d).
      rewrite Hproc. split; [done|]. intros rk0 Hrk0.
      destruct Hw as [rk' Hrk'|Hnone _]; [|by rewrite Hnone in Hrk0].
      rewrite Hrk' in Hrk0. injection Hrk0 as <-. lia.
    - destruct (working_logged _ _ _ _ Hinv Hw) as [_ Hlog].
      destruct (working_reads _ _ _ _ Hw) as (Hrk & _ & Hproc & _).
      rewrite Hrk in Hrk3. injection Hrk3 as <-.
      rewrite Hproc. split; [done|]. intros rk0 Hrk0.
      destruct Hw as [rk' Hrk'|Hnone _]; [|by rewrite Hnone in Hrk0].
      rewrite Hrk' in Hrk0. injection Hrk0 as <-. lia. }
  split; [split; [done|]|].
  - intros d rk2 Hd. destruct (decide (d = GetChannel msg)) as [->|Hne].
    + by apply Hsame.
    + destruct (ProcessMessage_other r msg d Hne) as (Hr & -> & _).
      rewrite Hr in Hd. by apply Hinv.
  - intros d rk Hd. destruct (decide (d = GetChannel msg)) as [->|Hne].
    + assert (is_Some (rockets (ProcessMessage r msg).1 !! GetChannel msg)) as [rk2 Hrk2].
      { apply ProcessMessage_rockets. left. eauto. }
      exists rk2. split; [done|]. by apply (Hsame rk2 Hrk2).
    + destruct (ProcessMessage_other r msg d Hne) as (Hr & _).
      exists rk. rewrite Hr. split; [done|lia].
Qed.

Lemma log_inv_new : log_inv NewRocketRepository.
Proof.
  split; [apply cursor_inv_new|]. intros c rk. simpl. by rewrite lookup_empty.
Qed.

Lemma log_inv_run msgs r :
  log_inv r → Forall (λ msg, GetMessageNumber msg < GoInt.max_int) msgs →
  log_inv (ingest_all r msgs) ∧
  ∀ d rk, rockets r !! d = Some rk →
    ∃ rk', rockets (ingest_all r msgs) !! d = Some rk' ∧
           LastProcessedMessageNumber rk <= LastProcessedMessageNumber rk'.
Proof.
  revert r. induction msgs as [|msg msgs IH]; intros r Hinv Hmax.
  - split; [done|]. intros d rk Hd. exists rk. split; [done|lia].
  - apply Forall_cons in Hmax as [Hmsg Hmax].
    destruct (log_inv_step r msg Hinv Hmsg) as [Hinv1 Hmono1].
    destruct (IH _ Hinv1 Hmax) as [Hinv2 Hmono2]. split; [done|].
    intros d rk Hd. destruct (Hmono1 d rk Hd) as (rk1 & Hd1 & Hle1).
    destruct (Hmono2 d rk1 Hd1) as (rk2 & Hd2 & Hle2).
    exists rk2. split; [done|lia].
Qed.

(** In a repository that keeps the invariant, the processed numbers of a
    rocket are the numbers from 1 to its cursor. *)
Lemma log_inv_processed r c rk k :
  log_inv r → rockets r !! c = Some rk →
  is_processed r c k = true ↔ 1 <= k <= LastProcessedMessageNumber rk.
Proof.
  intros [Hinv Hlog] Hrk. specialize (Hinv c). rewrite Hrk in Hinv.
  destruct Hinv as (_ & _ & Hkeys). destruct (Hlog c rk Hrk) as [Hall _].
  unfold is_processed. split.
  - intros Hk. apply Hkeys. by destruct (processed_of r c !! k).
  - intros Hk. by rewrite (Hall k Hk).
Qed.

(** X12: in a state reached from the empty repository by messages numbered
    below the largest [int], the processed numbers of a rocket are exactly
    the numbers from 1 to its cursor: no number is skipped, and the count
    that [GetDebugInfo] returns is the cursor.  [HandleDebugRocket] reads
    the cursor first and the count in a second read, after the messages
    [between] that other requests had processed meanwhile: the last
    processed number it reports is the cursor at its first read, the
    processed count is the cursor at its second read, so the first is at
    most the second, and they are the same when no message came between
    the two reads. *)
Theorem processed_numbers_are_one_to_cursor o msgs between c rocket :
  Forall (λ msg, GetMessageNumber msg < GoInt.max_int) msgs →
  Forall (λ msg, GetMessageNumber msg < GoInt.max_int) between →
  GetRocket (ingest_all NewRocketRepository msgs) c = Some rocket →
  (∀ k, is_processed (ingest_all NewRocketRepository msgs) c k = true ↔
        1 <= k <= LastProcessedMessageNumber rocket) ∧
  (GetDebugInfo o (ingest_all NewRocketRepository msgs) c).1
    = LastProcessedMessageNumber rocket ∧
  ∃ info rocket',
    debug_rocket o (ingest_all NewRocketRepository msgs)
      (ingest_all (ingest_all NewRocketRepository msgs) between) c = Some info ∧
    GetRocket (ingest_all (ingest_all NewRocketRepository msgs) between) c
      = Some rocket' ∧
    LastProcessedMessage info = LastProcessedMessageNumber rocket ∧
    ProcessedMessageCount info = LastProcessedMessageNumber rocket' ∧
    LastProcessedMessage info <= ProcessedMessageCount info ∧
    (between = [] → ProcessedMessageCount info = LastProcessedMessage info).
Proof.
  intros Hmax Hbetween Hrk. set (r := ingest_all NewRocketRepository msgs) in *.
  destruct (log_inv_run msgs _ log_inv_new Hmax) as [Hinv _]. fold r in Hinv.
  destruct (log_inv_run between r Hinv Hbetween) as [Hinv' Hmono].
  destruct (Hmono c rocket Hrk) as (rocket' & Hrk' & Hle).
  assert (Hcount : ∀ r0 rk, log_inv r0 → rockets r0 !! c = Some rk →
            (GetDebugInfo o r0 c).1 = LastProcessedMessageNumber rk).
  { intros r0 rk Hr0 Hrk0. simpl. by apply Hr0. }
  split; [|split].
  - intros k. by apply log_inv_processed.
  - by apply Hcount.
  - unfold debug_rocket. rewrite Hrk.
    pose proof (Hcount _ _ Hinv' Hrk') as Hc'.
    destruct (GetDebugInfo o (ingest_all r between) c) as [count pending] eqn:Hinfo.
    simpl in Hc'. subst count.
    eexists. exists rocket'. split; [done|]. simpl.
    split; [done|]. split; [done|]. split; [done|]. split; [done|].
    intros ->. simpl in Hrk'. unfold GetRocket in Hrk. congruence.
Qed.

Lemma processed_numbers_are_one_to_cursor_witness :
  ∃ info rocket',
    debug_rocket order_as_stored launched_sample
      (ingest_all launched_sample [explode "R" 2 11 "X"]) "R" = Some info ∧
    GetRocket (ingest_all launched_sample [explode "R" 2 11 "X"]) "R" = Some rocket' ∧
    LastProcessedMessage info = 1 ∧
    ProcessedMessageCount info = LastProcessedMessageNumber rocket' ∧
    LastProcessedMessage info <= ProcessedMessageCount info ∧
    ([explode "R" 2 11 "X"] = [] → ProcessedMessageCount info = LastProcessedMessage info).
Proof.
  assert (H1 : Forall (λ msg, GetMessageNumber msg < GoInt.max_int)
                 [launch "R" 1 10 "Falcon-9" "ARTEMIS" 500]) by repeat constructor.
  assert (H2 : Forall (λ msg, GetMessageNumber msg < GoInt.max_int)
                 [explode "R" 2 11 "X"]) by repeat constructor.
  assert (H3 : GetRocket (ingest_all NewRocketRepository
                            [launch "R" 1 10 "Falcon-9" "ARTEMIS" 500]) "R"
               = Some (mkRocket "R" "Falcon-9" 500 "ARTEMIS" false "" 10 10 1))
    by (vm_compute; reflexivity).
  exact (proj2 (proj2 (processed_numbers_are_one_to_cursor order_as_stored _ _ "R" _
                         H1 H2 H3))).
Defined.

(** X13: from a state reached from the empty repository, further messages
    (all numbers below the largest [int]) remove no rocket, move no cursor
    back and forget no processed number. *)
Theorem cursor_never_goes_back msgs more c rocket :
  Forall (λ msg, GetMessageNumber msg < GoInt.max_int) msgs →
  Forall (λ msg, GetMessageNumber msg < GoInt.max_int) more →
  GetRocket (ingest_all NewRocketRepository msgs) c = Some rocket →
  ∃ rocket',
    GetRocket (ingest_all (ingest_all NewRocketRepository msgs) more) c = Some rocket' ∧
    LastProcessedMessageNumber rocket <= LastProcessedMessageNumber rocket' ∧
    ∀ k, is_processed (ingest_all NewRocketRepository msgs) c k = true →
         is_processed (ingest_all (ingest_all NewRocketRepository msgs) more) c k = true.
Proof.
  intros Hmax Hmore Hrk. set (r := ingest_all NewRocketRepository msgs) in *.
  destruct (log_inv_run msgs _ log_inv_new Hmax) as [Hinv _]. fold r in Hinv.
  destruct (log_inv_run more r Hinv Hmore) as [Hinv' Hmono].
  destruct (Hmono c rocket Hrk) as (rocket' & Hrk' & Hle).
  exists rocket'. split; [done|]. split; [done|].
  intros k. rewrite (log_inv_processed r c rocket k Hinv Hrk).
  rewrite (log_inv_processed _ c rocket' k Hinv' Hrk'). lia.
Qed.

Lemma cursor_never_goes_back_witness :
  ∃ rocket',
    GetRocket (ingest_all launched_sample [speed_up "R" 3 12 50; speed_up "R" 2 11 50]) "R"
      = Some rocket' ∧
    1 <= LastProcessedMessageNumber rocket'.
Proof.
  assert (H1 : Forall (λ msg, GetMessageNumber msg < GoInt.max_int)
                 [launch "R" 1 10 "Falcon-9" "ARTEMIS" 500]) by repeat constructor.
  assert (H2 : Forall (λ msg, GetMessageNumber msg < GoInt.max_int)
                 [speed_up "R" 3 12 50; speed_up "R" 2 11 50]) by repeat constructor.
  assert (H3 : GetRocket (ingest_all NewRocketRepository
                            [launch "R" 1 10 "Falcon-9" "ARTEMIS" 500]) "R"
               = Some (mkRocket "R" "Falcon-9" 500 "ARTEMIS" false "" 10 10 1))
    by (vm_compute; reflexivity).
  destruct (cursor_never_goes_back _ _ _ _ H1 H2 H3) as (rocket' & Hrk & Hle & _).
  exists rocket'. split; [exact Hrk|exact Hle].
Defined.

(** ** What the handler of messages refuses *)

Lemma serve_ingest bodies r : serve r bodies = ingest_all r (validated_of bodies).
Proof.
  revert r. induction bodies as [|body bodies IH]; intros r; [done|].
  unfold serve, validated_of in *. simpl. rewrite IH.
  destruct body as [text|m]; simpl; [done|].
  destruct (ValidateRocketMessage m); simpl; [done|].
  by destruct (ProcessMessage r m) as [r' []].
Qed.

(** In a repository that keeps the invariant, a message that passes the
    validation is refused in one case only. *)
Lemma refused_after_explosion r msg :
  log_inv r → ValidateRocketMessage msg = None →
  GetMessageNumber msg < GoInt.max_int →
  (ProcessMessage r msg).2 = false ↔
  ∃ rocket, GetRocket r (GetChannel msg) = Some rocket ∧ Exploded rocket = true ∧
            is_launch msg = false ∧
            GetMessageNumber msg = LastProcessedMessageNumber rocket + 1.
Proof.
  intros Hinv Hv Hmax.
  pose proof (ValidateRocketMessage_passes msg Hv) as (_ & Hpos & _ & _ & Hacc & _).
  unfold GetRocket. split.
  - pose proof (ProcessMessage_case r msg) as Hcase.
    destruct (ProcessMessage r msg) as [r2 ok]. simpl in Hcase. simpl.
    intros Hok. revert Hok.
    destruct Hcase as [Hdup|Hdup Hnone Hl|ra rk r1 rk1 r' rk2 Hdup Hw Hn Hby Hdrain
                      |ra rk Hdup Hw Hn Hby|ra rk Hdup Hw Hn|ra rk Hdup Hw Hn];
      intros Hok; try discriminate.
    + destruct (working_logged _ _ _ _ Hinv Hw) as [(Hl & _) _].
      rewrite add_one_exact in Hn by done.
      pose proof (accepted_answer ra rk msg Hacc) as Hans. rewrite Hby in Hans.
      simpl in Hans. symmetry in Hans. apply orb_false_elim in Hans as [Hex Hl'].
      apply negb_false_iff in Hex.
      destruct Hw as [rk' Hrk'|_ Hl'']; [|congruence]. eauto.
    + destruct (working_logged _ _ _ _ Hinv Hw) as [(Hl & _) _].
      rewrite add_one_exact in Hn by done.
      destruct Hw as [rk' Hrk'|_ _]; [|simpl in Hn; lia].
      rewrite (proj2 (log_inv_processed r _ rk' (GetMessageNumber msg) Hinv Hrk')) in Hdup;
        [done|lia].
  - intros (rk & Hrk & Hex & Hl & Hn).
    destruct Hinv as [Hcur Hlog]. pose proof (Hcur (GetChannel msg)) as Hb.
    rewrite Hrk in Hb. destruct Hb as (Hlast & _ & Hkeys).
    unfold ProcessMessage. rewrite is_processed_init_maps.
    assert (is_processed r (GetChannel msg) (GetMessageNumber msg) = false) as ->.
    { unfold is_processed.
      destruct (processed_of r (GetChannel msg) !! GetMessageNumber msg) eqn:Hk; [|done].
      specialize (Hkeys _ ltac:(eauto)). lia. }
    change (rockets (init_maps r (GetChannel msg))) with (rockets r). rewrite Hrk.
    unfold process_in_sequence. rewrite add_one_exact by done.
    rewrite Hn, Z.eqb_refl. unfold processMessageByType. by rewrite Hex, Hl.
Qed.

(** X14: after any sequence of requests to [POST /messages] (message numbers
    below the largest [int]), [HandleMessage] answers a message that passes
    the validation with 200 or 400, and with 400 in one case only: the
    rocket of the channel has exploded, the message is not a launch, and its
    number is the one that follows the cursor.  A message behind the cursor
    is always a known duplicate and gets 200; the last [return false] of
    [ProcessMessage] is never reached. *)
Theorem validated_message_is_refused_only_after_explosion bodies msg :
  (∀ m, decoded m ∈ bodies → GetMessageNumber m < GoInt.max_int) →
  ValidateRocketMessage msg = None →
  GetMessageNumber msg < GoInt.max_int →
  (StatusCode (HandleMessage (serve NewRocketRepository bodies) (decoded msg)).2
     = StatusBadRequest ↔
   ∃ rocket,
     GetRocket (serve NewRocketRepository bodies) (GetChannel msg) = Some rocket ∧
     Exploded rocket = true ∧ is_launch msg = false ∧
     GetMessageNumber msg = LastProcessedMessageNumber rocket + 1) ∧
  (StatusCode (HandleMessage (serve NewRocketRepository bodies) (decoded msg)).2
     = StatusOK ∨
   StatusCode (HandleMessage (serve NewRocketRepository bodies) (decoded msg)).2
     = StatusBadRequest).
Proof.
  intros Hbodies Hv Hmax. rewrite serve_ingest.
  assert (Hall : Forall (λ m, GetMessageNumber m < GoInt.max_int) (validated_of bodies)).
  { apply Forall_forall. intros m Hin. apply Hbodies.
    apply list_elem_of_omap in Hin as (body & Hin & Hreach).
    destruct body as [text|m']; simpl in Hreach; [done|].
    destruct (ValidateRocketMessage m'); [done|]. by injection Hreach as ->. }
  destruct (log_inv_run _ _ log_inv_new Hall) as [Hinv _].
  rewrite <- (refused_after_explosion _ msg Hinv Hv Hmax).
  unfold HandleMessage. rewrite Hv.
  destruct (ProcessMessage _ msg) as [r' ok]. destruct ok; simpl; split; auto; done.
Qed.

Lemma validated_message_is_refused_only_after_explosion_witness :
  StatusCode
    (HandleMessage
       (serve NewRocketRepository
          [decoded (launch "R" 1 10 "Falcon-9" "ARTEMIS" 500);
           decoded (explode "R" 2 11 "X")])
       (decoded (speed_up "R" 3 12 50))).2 = StatusBadRequest.
Proof.
  apply (validated_message_is_refused_only_after_explosion
           [decoded (launch "R" 1 10 "Falcon-9" "ARTEMIS" 500);
            decoded (explode "R" 2 11 "X")]
           (speed_up "R" 3 12 50)).
  - intros m Hin.
    apply elem_of_cons in Hin as [[= ->]|Hin]; [reflexivity|].
    apply elem_of_cons in Hin as [[= ->]|Hin]; [reflexivity|].
    by apply elem_of_nil in Hin.
  - vm_compute. reflexivity.
  - done.
  - exists exploded_rocket. vm_compute. auto.
Defined.

(** ** The drain *)



(** ** Launching again *)

(** X16: a launch message with a type and a mission, numbered as the cursor
    expects, is applied to a rocket that has exploded.  The rocket flies
    again: it takes the type, the mission and the launch speed of the
    message, is no longer exploded and has no reason; its creation time is
    kept (unless it is the zero time).  Stated for the case where nothing is
    pending at the number after the message. *)
Theorem relaunch_after_explosion r msg rocket :
  GetRocket r (GetChannel msg) = Some rocket →
  Exploded rocket = true →
  is_launch msg = true →
  Type_ (Message msg) ≠ "" → Mission (Message msg) ≠ "" →
  is_processed r (GetChannel msg) (GetMessageNumber msg) = false →
  GetMessageNumber msg = GoInt.add (LastProcessedMessageNumber rocket) 1 →
  pending_of r (GetChannel msg) !! GoInt.add (GetMessageNumber msg) 1 = None →
  (ProcessMessage r msg).2 = true ∧
  GetRocket (ProcessMessage r msg).1 (GetChannel msg) =
    Some {| ID := ID rocket;
            RType := Type_ (Message msg);
            Speed := LaunchSpeed (Message msg);
            RMission := Mission (Message msg);
            Exploded := false;
            RReason := "";
            CreatedAt := if IsZero (CreatedAt rocket) then GetMessageTime msg
                         else CreatedAt rocket;
            UpdatedAt := GetMessageTime msg;
            LastProcessedMessageNumber := GetMessageNumber msg |}.
Proof.
  unfold GetRocket. intros Hrk Hex Hl Hty Hmi Hfresh Hn Hnone.
  set (c := GetChannel msg) in *.
  unfold ProcessMessage. fold c. rewrite is_processed_init_maps, Hfresh.
  change (rockets (init_maps r c)) with (rockets r). rewrite Hrk.
  unfold process_in_sequence. fold c. rewrite <- Hn, Z.eqb_refl.
  unfold processMessageByType. fold (is_launch msg). rewrite Hl.
  apply String.eqb_neq in Hty, Hmi. rewrite Hty, Hmi, andb_false_r. simpl.
  rewrite (processPendingMessages_drain _ c _) by apply lookup_insert_eq.
  rewrite drain_unfold. cbv zeta.
  change (pending_of (set_rocket (set_processed ?a c ?n) c ?b) c) with (pending_of a c).
  rewrite pending_of_init_maps. simpl. rewrite Hnone. simpl.
  rewrite lookup_insert_eq. done.
Qed.

Lemma relaunch_after_explosion_witness :
  (ProcessMessage exploded_sample (launch "R" 3 12 "Atlas" "LUNA" 800)).2 = true.
Proof.
  apply (relaunch_after_explosion exploded_sample (launch "R" 3 12 "Atlas" "LUNA" 800)
           exploded_rocket); vm_compute; congruence.
Defined.

(** ** The creation time *)

Lemma processMessageByType_created r rk msg :
  IsZero (CreatedAt rk) = false →
  CreatedAt (processMessageByType r rk msg).1.2 = CreatedAt rk.
Proof.
  intros Hz. unfold processMessageByType.
  repeat case_match; simpl; try done; congruence.
Qed.

Lemma pending_loop_created fuel c r rk r' rk' :
  pending_loop fuel c r rk = (r', rk') →
  IsZero (CreatedAt rk) = false → CreatedAt rk' = CreatedAt rk.
Proof.
  revert fuel c r rk r' rk'.
  refine (pending_loop_ind (λ c r rk r' rk',
            IsZero (CreatedAt rk) = false → CreatedAt rk' = CreatedAt rk) _ _ _ _);
    try done.
  intros c r rk msg r1 rk1 r' rk' _ _ Hby IH Hz.
  pose proof (processMessageByType_created r rk msg Hz) as Hc. rewrite Hby in Hc.
  simpl in Hc. rewrite IH; simpl; congruence.
Qed.

Lemma ProcessMessage_created r msg d rk :
  rockets r !! d = Some rk → IsZero (CreatedAt rk) = false →
  ∃ rk', rockets (ProcessMessage r msg).1 !! d = Some rk' ∧ CreatedAt rk' = CreatedAt rk.
Proof.
  intros Hrk Hz. destruct (decide (d = GetChannel msg)) as [->|Hne].
  - assert (is_Some (rockets (ProcessMessage r msg).1 !! GetChannel msg)) as [rk' Hrk'].
    { apply ProcessMessage_rockets. left. eauto. }
    exists rk'. split; [done|].
    apply ProcessMessage_rocket in Hrk'
      as [Hsame|(ra & rk0 & Hw & Hcases)]; [congruence|].
    assert (rk0 = rk) as ->.
    { destruct Hw as [rk1 Hrk1|Hnone _]; congruence. }
    destruct Hcases as [->|(r1 & rk1 & r' & _ & Hby & Hdrain)]; [done|].
    pose proof (processMessageByType_created ra rk msg Hz) as Hc. rewrite Hby in Hc.
    simpl in Hc. apply pending_loop_created in Hdrain; simpl in *; congruence.
  - destruct (ProcessMessage_other r msg d Hne) as (Hr & _).
    exists rk. by rewrite Hr.
Qed.

(** X17: the creation time of a rocket is written once.  From any state of
    the repository, once [CreatedAt] is not the zero time, no sequence of
    messages removes the rocket or changes its creation time: neither a
    relaunch nor any message applied from the pending buffer. *)
Theorem creation_time_is_written_once r msgs c rocket :
  GetRocket r c = Some rocket → IsZero (CreatedAt rocket) = false →
  ∃ rocket', GetRocket (ingest_all r msgs) c = Some rocket' ∧
             CreatedAt rocket' = CreatedAt rocket.
Proof.
  unfold GetRocket. revert r rocket.
  induction msgs as [|msg msgs IH]; intros r rocket Hrk Hz; [eauto|].
  destruct (ProcessMessage_created r msg c rocket Hrk Hz) as (rk1 & Hrk1 & Hc1).
  destruct (IH _ rk1 Hrk1 ltac:(congruence)) as (rk2 & Hrk2 & Hc2).
  exists rk2. simpl. split; [done|congruence].
Qed.

Lemma creation_time_is_written_once_witness :
  ∃ rocket', GetRocket (ingest_all exploded_sample [launch "R" 3 12 "Atlas" "LUNA" 800]) "R"
               = Some rocket' ∧
             CreatedAt rocket' = 10.
Proof.
  apply (creation_time_is_written_once exploded_sample
           [launch "R" 3 12 "Atlas" "LUNA" 800] "R" exploded_rocket);
    vm_compute; reflexivity.
Defined.

(** ** The sweep of an explosion *)

(** X18: an explosion message with a reason, applied to a rocket that has
    not exploded, marks it exploded with that reason, and the range loop
    over the pending map of the rocket leaves the launch messages and
    nothing else, in whatever order it visits the entries; the pending
    buffers of the other channels are not read. *)
Theorem explosion_sweeps_in_any_order o r rocket msg :
  Exploded rocket = false → is_explosion msg = true → Reason (Message msg) ≠ "" →
  (processMessageByType r rocket msg).2 = true ∧
  Exploded (processMessageByType r rocket msg).1.2 = true ∧
  RReason (processMessageByType r rocket msg).1.2 = Reason (Message msg) ∧
  pending_of (processMessageByType r rocket msg).1.1 (ID rocket)
    = sweep_range (visit o _ (map_to_list (pending_of r (ID rocket))))
        (pending_of r (ID rocket)) ∧
  (∀ k m, pending_of (processMessageByType r rocket msg).1.1 (ID rocket) !! k = Some m ↔
          pending_of r (ID rocket) !! k = Some m ∧ is_launch m = true) ∧
  (∀ d, d ≠ ID rocket →
        pending_of (processMessageByType r rocket msg).1.1 d = pending_of r d).
Proof.
  intros Hex He Hre. unfold is_explosion in He. apply String.eqb_eq in He.
  apply String.eqb_neq in Hre.
  unfold processMessageByType, is_launch. rewrite Hex, He, Hre. simpl.
  split; [done|]. split; [done|]. split; [done|].
  rewrite sweep_range_filter. split; [|split].
  - by rewrite pending_of_sweep_pending, decide_True.
  - intros k m. rewrite pending_of_sweep_pending, decide_True by done.
    rewrite map_lookup_filter_Some. done.
  - intros d Hd. by rewrite pending_of_sweep_pending, decide_False.
Qed.

Lemma explosion_sweeps_in_any_order_witness :
  pending_of (processMessageByType three_pending (new_rocket "R")
                (explode "R" 2 13 "X")).1.1 (ID (new_rocket "R"))
  = sweep_range
      (visit order_reversed _
         (map_to_list (pending_of three_pending (ID (new_rocket "R")))))
      (pending_of three_pending (ID (new_rocket "R"))).
Proof.
  apply (explosion_sweeps_in_any_order order_reversed three_pending (new_rocket "R")
           (explode "R" 2 13 "X")); vm_compute; congruence.
Defined.

(** ** An exploded rocket and messages that are not a launch *)

Lemma exploded_rocket_ignores r msg rk :
  rockets r !! GetChannel msg = Some rk → Exploded rk = true → is_launch msg = false →
  rockets (ProcessMessage r msg).1 !! GetChannel msg = Some rk.
Proof.
  intros Hrk Hex Hl.
  assert (is_Some (rockets (ProcessMessage r msg).1 !! GetChannel msg)) as [rk' Hrk'].
  { apply ProcessMessage_rockets. left. eauto. }
  rewrite Hrk'. f_equal.
  apply ProcessMessage_rocket in Hrk' as [Hsame|(ra & rk0 & Hw & Hcases)]; [congruence|].
  assert (rk0 = rk) as ->.
  { destruct Hw as [rk1 Hrk1|Hnone _]; congruence. }
  destruct Hcases as [->|(r1 & rk1 & r' & _ & Hby & _)]; [done|].
  unfold processMessageByType in Hby. rewrite Hex, Hl in Hby. simpl in Hby. congruence.
Qed.

(** X19: an exploded rocket is frozen until it is launched again.  From any
    state of the repository, a sequence of messages in which no message of
    the channel is a launch leaves the record of an exploded rocket exactly
    as it is, whatever the numbers of the messages: nothing is applied, from
    the call or from the pending buffer. *)
Theorem exploded_rocket_is_frozen r msgs c rocket :
  GetRocket r c = Some rocket → Exploded rocket = true →
  Forall (λ msg, GetChannel msg = c → is_launch msg = false) msgs →
  GetRocket (ingest_all r msgs) c = Some rocket.
Proof.
  unfold GetRocket. intros Hrk Hex Hall. revert r Hrk.
  induction Hall as [|msg msgs Hmsg _ IH]; intros r Hrk; [done|].
  simpl. apply IH. destruct (decide (c = GetChannel msg)) as [->|Hne].
  - apply exploded_rocket_ignores; auto.
  - destruct (ProcessMessage_other r msg c Hne) as (-> & _). done.
Qed.

Lemma exploded_rocket_is_frozen_witness :
  GetRocket (ingest_all exploded_sample
               [speed_up "R" 3 12 50; speed_up "R" 4 13 50; launch "Q" 1 14 "Atlas" "LUNA" 800])
    "R" = Some exploded_rocket.
Proof.
  apply (exploded_rocket_is_frozen exploded_sample
           [speed_up "R" 3 12 50; speed_up "R" 4 13 50; launch "Q" 1 14 "Atlas" "LUNA" 800]
           "R" exploded_rocket).
  - vm_compute. reflexivity.
  - reflexivity.
  - repeat constructor; vm_compute; congruence.
Defined.

(** ** A rocket that was never launched *)

(** X20: the record that a buffered launch message creates takes the
    messages that follow the cursor, launched or not.  On a new channel, a
    launch message with a number above 2 followed by a speed increase
    numbered 1 leaves a rocket without type, mission or creation time, and
    with the speed of the increase; both calls return true, and the launch
    is still pending. *)
Theorem speed_change_reaches_a_rocket_never_launched l m :
  is_launch l = true → 2 < GetMessageNumber l →
  GetMessageType m = MessageTypeRocketSpeedIncreased →
  0 < By (Message m) <= GoInt.max_int →
  GetChannel m = GetChannel l → GetMessageNumber m = 1 →
  ingest_results NewRocketRepository [l; m] = [true; true] ∧
  GetRocket (ingest_all NewRocketRepository [l; m]) (GetChannel l) =
    Some {| ID := GetChannel l; RType := ""; Speed := By (Message m); RMission := "";
            Exploded := false; RReason := ""; CreatedAt := 0;
            UpdatedAt := GetMessageTime m; LastProcessedMessageNumber := 1 |} ∧
  pending_of (ingest_all NewRocketRepository [l; m]) (GetChannel l)
    !! GetMessageNumber l = Some l.
Proof.
  intros Hl Hnl Hty Hby Hc Hnm. set (c := GetChannel l) in *.
  set (s1 := set_pending (set_rocket (init_maps NewRocketRepository c) c (new_rocket c))
               c (GetMessageNumber l) l).
  assert (H1 : ProcessMessage NewRocketRepository l = (s1, true)).
  { unfold ProcessMessage. fold c. rewrite is_processed_init_maps.
    change (is_processed NewRocketRepository c (GetMessageNumber l)) with false.
    change (rockets (init_maps NewRocketRepository c)) with (∅ : gmap string RocketState).
    rewrite lookup_empty, Hl. simpl. unfold process_in_sequence. fold c.
    change (GoInt.add (LastProcessedMessageNumber (new_rocket c)) 1) with 1.
    destruct (Z.eqb_spec (GetMessageNumber l) 1); [lia|].
    destruct (Z.gtb_spec (GetMessageNumber l) 1); [done|lia]. }
  assert (Hinit : init_maps s1 c = s1).
  { apply init_maps_done; simpl.
    - rewrite lookup_empty. simpl. rewrite lookup_insert_eq. eauto.
    - rewrite lookup_insert_eq. eauto. }
  assert (Hpend : pending_of s1 c = <[GetMessageNumber l := l]> ∅).
  { unfold s1. rewrite pending_of_set_pending, decide_True by done.
    change (pending_of (set_rocket ?a c ?b) c) with (pending_of a c).
    by rewrite pending_of_init_maps. }
  assert (Hproc : processed_of s1 c = ∅).
  { change (processed_of s1 c) with (processed_of (init_maps NewRocketRepository c) c).
    by rewrite processed_of_init_maps. }
  assert (Hlm : is_launch m = false).
  { unfold is_launch. by rewrite Hty. }
  assert (Hadd : GoInt.add 0 (By (Message m)) = By (Message m)).
  { apply wrap_id. unfold GoInt.in_range, GoInt.min_int. simpl. lia. }
  assert (H2 : (ProcessMessage s1 m).2 = true ∧
               rockets (ProcessMessage s1 m).1 !! c =
                 Some {| ID := c; RType := ""; Speed := By (Message m); RMission := "";
                         Exploded := false; RReason := ""; CreatedAt := 0;
                         UpdatedAt := GetMessageTime m; LastProcessedMessageNumber := 1 |} ∧
               pending_of (ProcessMessage s1 m).1 c !! GetMessageNumber l = Some l).
  { unfold ProcessMessage. rewrite Hc, Hinit, Hnm.
    unfold is_processed. rewrite Hproc, lookup_empty. simpl.
    rewrite lookup_insert_eq. unfold process_in_sequence. rewrite Hc, Hnm.
    change (1 =? GoInt.add (LastProcessedMessageNumber (new_rocket c)) 1) with true.
    unfold processMessageByType. fold (is_launch m). rewrite Hlm, Hty. simpl.
    destruct (Z.leb_spec (By (Message m)) 0); [lia|]. rewrite Hadd.
    rewrite (processPendingMessages_drain _ c _) by apply lookup_insert_eq.
    rewrite drain_unfold. cbv zeta.
    change (pending_of (set_rocket (set_processed s1 c 1) c ?b) c) with (pending_of s1 c).
    assert (Hnone : (<[GetMessageNumber l := l]> ∅ : gmap Z RocketMessage) !! 2 = None).
    { rewrite lookup_insert_ne by lia. apply lookup_empty. }
    rewrite Hpend. simpl. change (GoInt.add 1 1) with 2. rewrite Hnone. simpl.
    rewrite lookup_insert_eq. split; [done|]. split; [done|].
    change (pending_of (set_rocket (set_rocket (set_processed s1 c 1) c ?a) c ?b) c)
      with (pending_of s1 c).
    rewrite Hpend. apply lookup_insert_eq. }
  unfold GetRocket. simpl. rewrite H1. simpl.
  destruct (ProcessMessage s1 m) as [s2 ok]. simpl in H2.
  destruct H2 as (-> & ? & ?). done.
Qed.

Lemma speed_change_reaches_a_rocket_never_launched_witness :
  GetRocket (ingest_all NewRocketRepository
               [launch "R" 5 10 "Falcon-9" "ARTEMIS" 500; speed_up "R" 1 11 50]) "R" =
    Some {| ID := "R"; RType := ""; Speed := 50; RMission := ""; Exploded := false;
            RReason := ""; CreatedAt := 0; UpdatedAt := 11;
            LastProcessedMessageNumber := 1 |}.
Proof.
  apply (speed_change_reaches_a_rocket_never_launched
           (launch "R" 5 10 "Falcon-9" "ARTEMIS" 500) (speed_up "R" 1 11 50));
    vm_compute; try reflexivity; split; congruence.
Defined.

(** ** Where the entries of the buffers come from *)

Lemma sourced_step msgs r msg :
  sourced msgs r → sourced (msgs ++ [msg]) (ProcessMessage r msg).1.
Proof.
  intros [Hpend Hproc].
  assert (Hold : ∀ m, m ∈ msgs → m ∈ msgs ++ [msg]).
  { intros m Hm. apply elem_of_app. by left. }
  assert (Hnew : msg ∈ msgs ++ [msg]).
  { apply elem_of_app. right. apply list_elem_of_here. }
  assert (Hpend' : ∀ c k m, pending_of r c !! k = Some m →
            m ∈ msgs ++ [msg] ∧ GetChannel m = c ∧ GetMessageNumber m = k).
  { intros c k m Hk. destruct (Hpend c k m Hk) as (? & ? & ?). auto. }
  assert (Hproc' : ∀ c k, is_processed r c k = true →
            ∃ m, m ∈ msgs ++ [msg] ∧ GetChannel m = c ∧ GetMessageNumber m = k).
  { intros c k Hk. destruct (Hproc c k Hk) as (m & ? & ? & ?). eauto. }
  clear Hpend Hproc.
  assert (Hins : ∀ (pend : gmap Z RocketMessage) k m,
            pend ⊆ pending_of r (GetChannel msg) →
            <[GetMessageNumber msg := msg]> pend !! k = Some m →
            m ∈ msgs ++ [msg] ∧ GetChannel m = GetChannel msg ∧ GetMessageNumber m = k).
  { intros pend k m Hsub. rewrite lookup_insert. case_decide as Hk.
    - intros [= <-]. auto.
    - intros Hm. eapply lookup_weaken in Hm; [|exact Hsub]. by apply Hpend'. }
  split.
  - intros d k m. destruct (decide (d = GetChannel msg)) as [->|Hne].
    + pose proof (ProcessMessage_case r msg) as Hcase.
      destruct (ProcessMessage r msg) as [r2 ok]. simpl in Hcase. simpl.
      destruct Hcase as [Hdup|Hdup Hnone Hl|ra rk r1 rk1 r' rk2 Hdup Hw Hn Hby Hdrain
                        |ra rk Hdup Hw Hn Hby|ra rk Hdup Hw Hn|ra rk Hdup Hw Hn].
      * rewrite pending_of_init_maps. apply Hpend'.
      * rewrite pending_of_set_pending, decide_True by done.
        rewrite pending_of_init_maps. by apply Hins.
      * destruct (working_reads _ _ _ _ Hw) as (_ & _ & _ & Hpd).
        change (pending_of (set_rocket r' ?c rk2) ?d) with (pending_of r' d).
        intros Hk. apply Hpend'.
        eapply lookup_weaken in Hk; [|apply (pending_loop_pending _ _ _ _ _ _ Hdrain)].
        change (pending_of (set_rocket (set_processed r1 ?c ?n) ?c ?b) ?d)
          with (pending_of r1 d) in Hk.
        eapply lookup_weaken in Hk;
          [|apply (processMessageByType_pending _ _ _ _ _ _ _ Hby)].
        by rewrite Hpd in Hk.
      * destruct (working_reads _ _ _ _ Hw) as (_ & _ & _ & Hpd).
        change (pending_of (set_rocket ra ?c rk) ?d) with (pending_of ra d).
        rewrite Hpd. apply Hpend'.
      * destruct (working_reads _ _ _ _ Hw) as (_ & _ & _ & Hpd).
        rewrite pending_of_set_pending, decide_True by done.
        rewrite Hpd. by apply Hins.
      * destruct (working_reads _ _ _ _ Hw) as (_ & _ & _ & Hpd).
        rewrite Hpd. apply Hpend'.
    + destruct (ProcessMessage_other r msg d Hne) as (_ & _ & Hsub).
      intros Hk. eapply lookup_weaken in Hk; [|exact Hsub]. by apply Hpend'.
  - intros d k. destruct (decide (d = GetChannel msg)) as [->|Hne].
    + pose proof (ProcessMessage_case r msg) as Hcase.
      destruct (ProcessMessage r msg) as [r2 ok]. simpl in Hcase. simpl.
      destruct Hcase as [Hdup|Hdup Hnone Hl|ra rk r1 rk1 r' rk2 Hdup Hw Hn Hby Hdrain
                        |ra rk Hdup Hw Hn Hby|ra rk Hdup Hw Hn|ra rk Hdup Hw Hn].
      * rewrite is_processed_init_maps. apply Hproc'.
      * change (is_processed (set_pending ?a ?c ?n ?m) ?d k) with (is_processed a d k).
        rewrite is_processed_init_maps. apply Hproc'.
      * destruct (working_reads _ _ _ _ Hw) as (_ & _ & Hpr & Hpd).
        change (is_processed (set_rocket r' ?c rk2) ?d k) with (is_processed r' d k).
        intros Hk.
        pose proof (processMessageByType_pending _ _ _ _ _ _ (GetChannel msg) Hby) as Hsub.
        apply processMessageByType_frame in Hby as (_ & Hp1 & _).
        apply (pending_loop_processed _ _ _ _ _ _ Hdrain) in Hk as [Hk|[m Hk]].
        -- change (is_processed (set_rocket ?a ?c ?b) ?d k) with (is_processed a d k) in Hk.
           rewrite is_processed_set_processed in Hk. case_decide as Hkn.
           ++ destruct Hkn as [_ <-]. eauto.
           ++ apply Hproc'. unfold is_processed. unfold is_processed, processed_of in Hk.
              rewrite Hp1 in Hk. fold (processed_of ra (GetChannel msg)) in Hk.
              by rewrite Hpr in Hk.
        -- change (pending_of (set_rocket (set_processed r1 ?c ?n) ?c ?b) ?d)
             with (pending_of r1 d) in Hk.
           eapply lookup_weaken in Hk; [|exact Hsub]. rewrite Hpd in Hk.
           destruct (Hpend' _ _ _ Hk) as (? & ? & ?). eauto.
      * destruct (working_reads _ _ _ _ Hw) as (_ & _ & Hpr & _).
        change (is_processed (set_rocket ra ?c rk) ?d k) with (is_processed ra d k).
        unfold is_processed. rewrite Hpr. apply Hproc'.
      * destruct (working_reads _ _ _ _ Hw) as (_ & _ & Hpr & _).
        change (is_processed (set_pending ?a ?c ?n ?m) ?d k) with (is_processed a d k).
        unfold is_processed. rewrite Hpr. apply Hproc'.
      * destruct (working_reads _ _ _ _ Hw) as (_ & _ & Hpr & _).
        unfold is_processed. rewrite Hpr. apply Hproc'.
    + destruct (ProcessMessage_other r msg d Hne) as (_ & Hp & _).
      unfold is_processed. rewrite Hp. apply Hproc'.
Qed.

Lemma sourced_run msgs : sourced msgs (ingest_all NewRocketRepository msgs).
Proof.
  induction msgs as [|msg msgs IH] using rev_ind.
  - split.
    + intros c k m. unfold pending_of. simpl. rewrite lookup_empty. simpl.
      by rewrite lookup_empty.
    + intros c k. unfold is_processed, processed_of. simpl. rewrite lookup_empty. simpl.
      by rewrite lookup_empty.
  - unfold ingest_all. rewrite foldl_app. simpl. by apply sourced_step.
Qed.

(** X21: the buffers hold nothing but what was ingested.  In a state
    reached from the empty repository by the messages [msgs], every entry
    of a pending buffer is one of these messages, kept in the buffer of its
    own channel under its own number, and every processed number of a
    channel is the number of one of these messages on that channel. *)
Theorem buffers_hold_ingested_messages msgs c k :
  (∀ m, pending_of (ingest_all NewRocketRepository msgs) c !! k = Some m →
        m ∈ msgs ∧ GetChannel m = c ∧ GetMessageNumber m = k) ∧
  (is_processed (ingest_all NewRocketRepository msgs) c k = true →
   ∃ m, m ∈ msgs ∧ GetChannel m = c ∧ GetMessageNumber m = k).
Proof.
  destruct (sourced_run msgs) as [Hpend Hproc]. split; [apply Hpend|apply Hproc].
Qed.

Lemma buffers_hold_ingested_messages_witness :
  ∃ m, m ∈ [launch "R" 1 10 "Falcon-9" "ARTEMIS" 500; speed_up "R" 5 11 50;
            speed_up "R" 3 12 50] ∧
       GetChannel m = "R" ∧ GetMessageNumber m = 1.
Proof.
  apply (proj2 (buffers_hold_ingested_messages
                  [launch "R" 1 10 "Falcon-9" "ARTEMIS" 500; speed_up "R" 5 11 50;
                   speed_up "R" 3 12 50] "R" 1)).
  vm_compute. reflexivity.
Defined.

(** ** What the requests leave in the repository *)

Lemma validated_of_passes bodies m :
  m ∈ validated_of bodies → ValidateRocketMessage m = None ∧ decoded m ∈ bodies.
Proof.
  unfold validated_of. intros Hin.
  apply list_elem_of_omap in Hin as (body & Hin & Hreach).
  destruct body as [text|m']; simpl in Hreach; [done|].
  destruct (ValidateRocketMessage m') eqn:Hv; [done|]. by injection Hreach as ->.
Qed.

(** X22: the repository after a sequence of requests to [POST /messages]
    holds what passed the validation and nothing else.  Every stored rocket
    has a channel name that is not empty, every pending entry is a message
    that passed [ValidateRocketMessage], under a number that is at least 1,
    and every processed number is at least 1. *)
Theorem served_repository_holds_validated_messages bodies c :
  (is_Some (GetRocket (serve NewRocketRepository bodies) c) → c ≠ "") ∧
  (∀ k m, pending_of (serve NewRocketRepository bodies) c !! k = Some m →
          ValidateRocketMessage m = None ∧ decoded m ∈ bodies ∧ 1 <= k) ∧
  (∀ k, is_processed (serve NewRocketRepository bodies) c k = true → 1 <= k).
Proof.
  rewrite serve_ingest. destruct (sourced_run (validated_of bodies)) as [Hpend Hproc].
  split; [|split].
  - unfold GetRocket. intros Hrk.
    apply (ingest_all_rockets _ _ _ unborn_clean_new) in Hrk as [[rk Hrk]|(m & Hin & <- & _)].
    + simpl in Hrk. by rewrite lookup_empty in Hrk.
    + apply validated_of_passes in Hin as [Hv _].
      by apply ValidateRocketMessage_passes in Hv as (? & _).
  - intros k m Hk. destruct (Hpend c k m Hk) as (Hin & _ & <-).
    apply validated_of_passes in Hin as [Hv Hin]. split; [done|]. split; [done|].
    by apply ValidateRocketMessage_passes in Hv as (_ & ? & _).
  - intros k Hk. destruct (Hproc c k Hk) as (m & Hin & _ & <-).
    apply validated_of_passes in Hin as [Hv _].
    by apply ValidateRocketMessage_passes in Hv as (_ & ? & _).
Qed.

Lemma served_repository_holds_validated_messages_witness :
  ValidateRocketMessage (speed_up "R" 5 11 50) = None ∧
  decoded (speed_up "R" 5 11 50)
    ∈ [decoded (launch "R" 1 10 "Falcon-9" "ARTEMIS" 500); decoded (speed_up "R" 5 11 50);
       decode_error "unexpected end of JSON input"] ∧
  1 <= 5.
Proof.
  apply (proj1 (proj2 (served_repository_holds_validated_messages
                         [decoded (launch "R" 1 10 "Falcon-9" "ARTEMIS" 500);
                          decoded (speed_up "R" 5 11 50);
                          decode_error "unexpected end of JSON input"] "R"))).
  vm_compute. reflexivity.
Defined.

(** X23: for an id that [ValidateRocketID] accepts, [HandleGetRocket] answers
    404 until a launch message of that channel has passed through
    [HandleMessage], and 200 from then on, also when the launch is only
    buffered; it gives no other answer. *)
Theorem rocket_is_served_once_a_launch_arrived bodies rocketID :
  (3 <= String.length rocketID)%nat →
  (StatusCode (HandleGetRocket (serve NewRocketRepository bodies) rocketID) = StatusOK ↔
   ∃ m, decoded m ∈ bodies ∧ ValidateRocketMessage m = None ∧
        GetChannel m = rocketID ∧ is_launch m = true) ∧
  (StatusCode (HandleGetRocket (serve NewRocketRepository bodies) rocketID) = StatusOK ∨
   StatusCode (HandleGetRocket (serve NewRocketRepository bodies) rocketID)
     = StatusNotFound).
Proof.
  intros Hlen. apply ValidateRocketID_passes in Hlen.
  unfold HandleGetRocket, GetRocket. rewrite Hlen, serve_ingest.
  pose proof (ingest_all_rockets (validated_of bodies) NewRocketRepository rocketID
                unborn_clean_new) as Hiff.
  destruct (rockets (ingest_all NewRocketRepository (validated_of bodies)) !! rocketID)
    as [rk|] eqn:Hrk; simpl.
  - split; [|by left]. split; [|done]. intros _.
    destruct (proj1 Hiff ltac:(eauto)) as [[rk' Hrk']|(m & Hin & Hc & Hl)].
    + simpl in Hrk'. by rewrite lookup_empty in Hrk'.
    + apply validated_of_passes in Hin as [Hv Hin]. eauto.
  - split; [|by right]. split; [done|]. intros (m & Hin & Hv & Hc & Hl).
    assert (m ∈ validated_of bodies) as Hin'.
    { apply list_elem_of_omap. exists (decoded m). split; [done|]. simpl. by rewrite Hv. }
    destruct (proj2 Hiff) as [rk Hrk']; [right; eauto|]. congruence.
Qed.

Lemma rocket_is_served_once_a_launch_arrived_witness :
  StatusCode
    (HandleGetRocket
       (serve NewRocketRepository [decoded (launch "Apollo" 4 10 "Saturn-V" "MOON" 500)])
       "Apollo") = StatusOK.
Proof.
  apply (rocket_is_served_once_a_launch_arrived
           [decoded (launch "Apollo" 4 10 "Saturn-V" "MOON" 500)] "Apollo").
  - vm_compute. lia.
  - exists (launch "Apollo" 4 10 "Saturn-V" "MOON" 500).
    split; [apply list_elem_of_here|]. vm_compute. auto.
Defined.

(** ** A launch that arrives ahead of its number *)







(** ** A message of no known type *)






